(** * Gbbaas license engine: the Worker's request handlers over the D1 store

    A shallow embedding of the BAAS API Worker ([apps/baas-api/worker.js]:
    licence activation, heartbeat, usage metering, coupon redemption, licence
    issue and revocation, and [verifyJwt] of its developer API) over the
    relations of [db/schema.sql], with the ECMAScript time arithmetic the
    handlers rely on.

    Definitions come first: time values, the store, the statements and the
    handlers, then the vocabulary of the properties and a concrete platform
    and store to evaluate on.  The properties follow. *)

From stdpp Require Import gmap strings list fin_maps pretty.
From Stdlib Require Import ZArith Lia Ascii.
From Stdlib.Strings Require Import Byte.

Local Open Scope Z_scope.

(** ** ECMAScript time values (ECMA-262, "Time Values and Time Range")

    The handlers call [Date.now()], [new Date()], the [getUTC*] and local
    accessors and the [Date(year, month, date)] constructor.  Time values are
    integral milliseconds since the epoch. *)
Module JSDate.

Definition msPerDay : Z := 86400000.

Definition Day (t : Z) : Z := t `div` msPerDay.

Definition DaysInYear (y : Z) : Z :=
  if bool_decide (y `mod` 4 ≠ 0) then 365
  else if bool_decide (y `mod` 100 ≠ 0) then 366
  else if bool_decide (y `mod` 400 ≠ 0) then 365
  else 366.

Definition DayFromYear (y : Z) : Z :=
  365 * (y - 1970) + (y - 1969) `div` 4 - (y - 1901) `div` 100
    + (y - 1601) `div` 400.

Definition TimeFromYear (y : Z) : Z := msPerDay * DayFromYear y.

(** The largest year whose first day is not after [d].  The estimate from
    the mean Gregorian year is at most one year off; the three candidates
    around it are tried from the latest. *)
Definition YearFromDay (d : Z) : Z :=
  let y := 1970 + (d * 400) `div` 146097 in
  if bool_decide (DayFromYear (y + 1) ≤ d) then y + 1
  else if bool_decide (DayFromYear y ≤ d) then y
  else y - 1.

Definition YearFromTime (t : Z) : Z := YearFromDay (Day t).

Definition LeapOfYear (y : Z) : Z :=
  if bool_decide (DaysInYear y = 366) then 1 else 0.

Definition InLeapYear (t : Z) : Z := LeapOfYear (YearFromTime t).

Definition DayWithinYear (t : Z) : Z := Day t - DayFromYear (YearFromTime t).

Definition MonthFromTime (t : Z) : Z :=
  let d := DayWithinYear t in
  let l := InLeapYear t in
  if bool_decide (d < 31) then 0
  else if bool_decide (d < 59 + l) then 1
  else if bool_decide (d < 90 + l) then 2
  else if bool_decide (d < 120 + l) then 3
  else if bool_decide (d < 151 + l) then 4
  else if bool_decide (d < 181 + l) then 5
  else if bool_decide (d < 212 + l) then 6
  else if bool_decide (d < 243 + l) then 7
  else if bool_decide (d < 273 + l) then 8
  else if bool_decide (d < 304 + l) then 9
  else if bool_decide (d < 334 + l) then 10
  else 11.

Definition DateFromTime (t : Z) : Z :=
  let d := DayWithinYear t in
  let l := InLeapYear t in
  match MonthFromTime t with
  | 0 => d + 1
  | 1 => d - 30
  | 2 => d - 58 - l
  | 3 => d - 89 - l
  | 4 => d - 119 - l
  | 5 => d - 150 - l
  | 6 => d - 180 - l
  | 7 => d - 211 - l
  | 8 => d - 242 - l
  | 9 => d - 272 - l
  | 10 => d - 303 - l
  | _ => d - 333 - l
  end.

(** Day number, within a year of leap flag [l], of the first day of month
    [m] (0-based). *)
Definition MonthStart (m l : Z) : Z :=
  match m with
  | 0 => 0
  | 1 => 31
  | 2 => 59 + l
  | 3 => 90 + l
  | 4 => 120 + l
  | 5 => 151 + l
  | 6 => 181 + l
  | 7 => 212 + l
  | 8 => 243 + l
  | 9 => 273 + l
  | 10 => 304 + l
  | _ => 334 + l
  end.

(** [MakeDay(year, month, date)]: the day of the first of the month, found
    from the year and the month table, plus [date - 1]; months and dates out
    of range carry over. *)
Definition MakeDay (year month date : Z) : Z :=
  let ym := year + month `div` 12 in
  let mn := month `mod` 12 in
  DayFromYear ym + MonthStart mn (LeapOfYear ym) + date - 1.

Definition MakeDate (day time : Z) : Z := day * msPerDay + time.

(** [TimeClip]: a time value beyond 8.64e15 ms is the invalid date. *)
Definition TimeClip (t : Z) : option Z :=
  if bool_decide (Z.abs t ≤ 8640000000000000) then Some t else None.

(** Local time under a fixed offset [tza] (ms east of UTC): the Workers
    runtime, whose zone is UTC, and any zone whose offset does not change. *)
Definition LocalTime (tza t : Z) : Z := t + tza.
Definition UTC (tza t : Z) : Z := t - tza.

Definition getFullYear (tza t : Z) : Z := YearFromTime (LocalTime tza t).
Definition getMonth (tza t : Z) : Z := MonthFromTime (LocalTime tza t).
Definition getDate (tza t : Z) : Z := DateFromTime (LocalTime tza t).
Definition getUTCFullYear (t : Z) : Z := YearFromTime t.
Definition getUTCMonth (t : Z) : Z := MonthFromTime t.

(** [new Date(year, month, date)]: local midnight of that civil date; a
    year of 0..99 means 1900 + year. *)
Definition DateOfYMD (tza year month date : Z) : option Z :=
  let yr := if bool_decide (0 ≤ year ≤ 99) then 1900 + year else year in
  TimeClip (UTC tza (MakeDate (MakeDay yr month date) 0)).

End JSDate.

(** ** The relations of db/schema.sql

    A table with a primary key is a finite map from the key to the rest of
    the row; [usage] is keyed by an autoincrement id and is kept as the list
    of its rows in insertion order; [users_seen] carries a uniqueness
    constraint over all its data columns and is a finite set.  The columns
    the Worker neither writes nor reads ([issued_at], [created_at], [ts],
    filled in by the store) are left out.  A TEXT column holding JSON is
    represented by the value it parses to. *)

(** The quota object of a licence: [{ daily, byCategory: { bucket: { daily } } }].
    An absent (or null) property is [None]. *)
Record BucketQuota := { bq_daily : option Z }.
Record Quotas := {
  q_daily : option Z;
  q_byCategory : option (gmap string BucketQuota)
}.

(** The [quotas] column: SQL NULL, the JSON text [null] (which
    [JSON.stringify(null)] stores), or the text of a quota object.  Any other
    JSON value has none of the properties the Worker reads and stands as the
    empty object. *)
Inductive QuotasColumn :=
| QuotasNull
| QuotasJsonNull
| QuotasObject (quotas : Quotas).

Record License := {
  l_project_id : string;
  l_type : string;
  l_agency_id : option string;
  l_seat_index : option Z;
  l_quotas : QuotasColumn;
  l_exp : Z;
  l_revoked : bool
}.

Record ActivationSession := {
  s_jti : string;
  s_challenge : string;
  s_device_info : option string
}.

Record Activation := {
  a_jti : string;
  a_device_id : string;
  a_credential_id : string;
  a_public_key : string;
  a_last_seen : option Z;
  a_revoked : bool
}.

Record Usage := {
  u_jti : string;
  u_device_id : string;
  u_bucket : string;
  u_cost : Z;
  u_day_key : Z;
  u_minute_key : Z;
  u_month_key : string
}.

(** [plan_details_json] of a coupon: [{ durationDays, quotas }]. *)
Record Plan := { durationDays : Z; plan_quotas : Quotas }.

Record Coupon := {
  c_project_id : string;
  c_plan : Plan;
  c_max_uses : Z;
  c_current_uses : Z;
  c_expires_at : option Z
}.

Record Agency := { ag_name : string; ag_seat_quota : Z }.

Record DB := {
  agencies : gmap string Agency;                     (* key: agency_id *)
  licenses : gmap string License;                    (* key: jti *)
  activation_sessions : gmap string ActivationSession; (* key: activation_id *)
  activations : gmap string Activation;              (* key: activation_id *)
  usage : list Usage;
  users_seen : gset (string * string * string);      (* jti, device_id, user_hash *)
  coupon_codes : gmap string Coupon                  (* key: code *)
}.

Definition set_licenses (f : gmap string License → gmap string License) (db : DB) : DB :=
  {| agencies := agencies db; licenses := f (licenses db);
     activation_sessions := activation_sessions db; activations := activations db;
     usage := usage db; users_seen := users_seen db; coupon_codes := coupon_codes db |}.

Definition set_activation_sessions
    (f : gmap string ActivationSession → gmap string ActivationSession) (db : DB) : DB :=
  {| agencies := agencies db; licenses := licenses db;
     activation_sessions := f (activation_sessions db); activations := activations db;
     usage := usage db; users_seen := users_seen db; coupon_codes := coupon_codes db |}.

Definition set_activations (f : gmap string Activation → gmap string Activation) (db : DB) : DB :=
  {| agencies := agencies db; licenses := licenses db;
     activation_sessions := activation_sessions db; activations := f (activations db);
     usage := usage db; users_seen := users_seen db; coupon_codes := coupon_codes db |}.

Definition set_usage (f : list Usage → list Usage) (db : DB) : DB :=
  {| agencies := agencies db; licenses := licenses db;
     activation_sessions := activation_sessions db; activations := activations db;
     usage := f (usage db); users_seen := users_seen db; coupon_codes := coupon_codes db |}.

Definition set_users_seen
    (f : gset (string * string * string) → gset (string * string * string)) (db : DB) : DB :=
  {| agencies := agencies db; licenses := licenses db;
     activation_sessions := activation_sessions db; activations := activations db;
     usage := usage db; users_seen := f (users_seen db); coupon_codes := coupon_codes db |}.

Definition set_coupon_codes (f : gmap string Coupon → gmap string Coupon) (db : DB) : DB :=
  {| agencies := agencies db; licenses := licenses db;
     activation_sessions := activation_sessions db; activations := activations db;
     usage := usage db; users_seen := users_seen db; coupon_codes := f (coupon_codes db) |}.

Definition set_agencies (f : gmap string Agency → gmap string Agency) (db : DB) : DB :=
  {| agencies := f (agencies db); licenses := licenses db;
     activation_sessions := activation_sessions db; activations := activations db;
     usage := usage db; users_seen := users_seen db; coupon_codes := coupon_codes db |}.

Definition revoke_license (l : License) : License :=
  {| l_project_id := l_project_id l; l_type := l_type l; l_agency_id := l_agency_id l;
     l_seat_index := l_seat_index l; l_quotas := l_quotas l; l_exp := l_exp l;
     l_revoked := true |}.

Definition revoke_activation (a : Activation) : Activation :=
  {| a_jti := a_jti a; a_device_id := a_device_id a; a_credential_id := a_credential_id a;
     a_public_key := a_public_key a; a_last_seen := a_last_seen a; a_revoked := true |}.

Definition touch_activation (ts : Z) (a : Activation) : Activation :=
  {| a_jti := a_jti a; a_device_id := a_device_id a; a_credential_id := a_credential_id a;
     a_public_key := a_public_key a; a_last_seen := Some ts; a_revoked := a_revoked a |}.

Definition bump_coupon (c : Coupon) : Coupon :=
  {| c_project_id := c_project_id c; c_plan := c_plan c; c_max_uses := c_max_uses c;
     c_current_uses := c_current_uses c + 1; c_expires_at := c_expires_at c |}.

(** ** Handlers as store computations

    A handler runs against the store and either produces a value or throws
    (an uncaught exception: the router has no error handler, so the request
    fails without a JSON response).  Each D1 statement commits on its own:
    what was written before a throw stays written. *)
Inductive Error :=
| TypeError (msg : string)          (* JS: property of undefined, malformed token *)
| D1_TYPE_ERROR                     (* binding [undefined] to a statement *)
| D1_ERROR (constraint : string)    (* a constraint of the schema failed *)
| RangeError.                       (* [toISOString] of an invalid date *)

Inductive Res (A : Type) :=
| Ok (a : A)
| Throw (e : Error).
Arguments Ok {A} a.
Arguments Throw {A} e.

Definition M (A : Type) : Type := DB → DB * Res A.

Definition ret {A} (a : A) : M A := λ db, (db, Ok a).
Definition throw {A} (e : Error) : M A := λ db, (db, Throw e).
Definition bind {A B} (m : M A) (k : A → M B) : M B :=
  λ db, match m db with
        | (db', Ok a) => k a db'
        | (db', Throw e) => (db', Throw e)
        end.
Definition get_db : M DB := λ db, (db, Ok db).
Definition modify_db (f : DB → DB) : M unit := λ db, (f db, Ok tt).

Declare Scope handler_scope.
Delimit Scope handler_scope with handler.
Notation "'let*' x := m 'in' k" := (bind m (λ x, k))
  (at level 10, x name, m at level 100, k at level 200) : handler_scope.
Notation "m ;;; k" := (bind m (λ _, k))
  (at level 100, k at level 200, right associativity) : handler_scope.
Local Open Scope handler_scope.

(** Binding a JS value that may be [undefined]: D1 refuses it. *)
Definition bound {A} (v : option A) : M A :=
  match v with
  | Some a => ret a
  | None => throw D1_TYPE_ERROR
  end.

(** Unfolds the plumbing of [M] in the goal and the hypotheses. *)
Ltac unfold_M :=
  unfold bound in *; unfold bind, ret, throw, get_db, modify_db in *.

(** *** The statements the Worker prepares *)

(** [SELECT * FROM licenses WHERE jti = ?1 AND revoked = 0] … [.first()] *)
Definition select_live_license (jti : string) : M (option License) :=
  let* db := get_db in
  ret (match licenses db !! jti with
       | Some l => if l_revoked l then None else Some l
       | None => None
       end).

(** [SELECT project_id FROM licenses WHERE jti = ?1] … [.first()] *)
Definition select_license (jti : string) : M (option License) :=
  let* db := get_db in ret (licenses db !! jti).

(** [SELECT * FROM activation_sessions WHERE activation_id = ?1] … [.first()] *)
Definition select_session (activationId : string) : M (option ActivationSession) :=
  let* db := get_db in ret (activation_sessions db !! activationId).

(** [INSERT INTO activation_sessions (activation_id, jti, challenge, device_info)]:
    primary key [activation_id], foreign key [jti]. *)
Definition insert_session (activationId : string) (s : ActivationSession) : M unit :=
  let* db := get_db in
  if bool_decide (is_Some (activation_sessions db !! activationId))
  then throw (D1_ERROR "UNIQUE constraint failed: activation_sessions.activation_id")
  else if bool_decide (licenses db !! s_jti s = None)
  then throw (D1_ERROR "FOREIGN KEY constraint failed")
  else modify_db (set_activation_sessions (insert activationId s)).

(** [INSERT INTO activations (activation_id, jti, device_id, credential_id,
    public_key, last_seen)]: primary key [activation_id], [UNIQUE(jti, device_id)],
    foreign key [jti]. *)
Definition same_binding (jti device_id : string) (a : Activation) : Prop :=
  a_jti a = jti ∧ a_device_id a = device_id.
#[local] Instance same_binding_dec jti d a : Decision (same_binding jti d a).
Proof. unfold same_binding; apply _. Defined.

Definition bindings (jti device_id : string) (db : DB) : gmap string Activation :=
  filter (λ kv, same_binding jti device_id kv.2) (activations db).

Definition insert_activation (activationId : string) (a : Activation) : M unit :=
  let* db := get_db in
  if bool_decide (is_Some (activations db !! activationId))
  then throw (D1_ERROR "UNIQUE constraint failed: activations.activation_id")
  else if bool_decide (bindings (a_jti a) (a_device_id a) db ≠ ∅)
  then throw (D1_ERROR "UNIQUE constraint failed: activations.jti, activations.device_id")
  else if bool_decide (licenses db !! a_jti a = None)
  then throw (D1_ERROR "FOREIGN KEY constraint failed")
  else modify_db (set_activations (insert activationId a)).

(** [UPDATE activations SET last_seen = ?1 WHERE jti = ?2 AND device_id = ?3] *)
Definition update_last_seen (ts : Z) (jti device_id : string) : M unit :=
  modify_db (set_activations
    (fmap (λ a, if bool_decide (same_binding jti device_id a)
                then touch_activation ts a else a))).

(** [INSERT OR IGNORE INTO users_seen (jti, device_id, user_hash)] *)
Definition insert_or_ignore_user (jti device_id user_hash : string) : M unit :=
  modify_db (set_users_seen (union {[ (jti, device_id, user_hash) ]})).

(** [SELECT SUM(cost) as total FROM usage WHERE jti = ?1 AND day_key = ?2 AND
    bucket = ?3]: [None] is the NULL of an empty selection. *)
Definition in_window (jti : string) (day_key : Z) (bucket : string) (u : Usage) : Prop :=
  u_jti u = jti ∧ u_day_key u = day_key ∧ u_bucket u = bucket.
#[local] Instance in_window_dec j d b u : Decision (in_window j d b u).
Proof. unfold in_window; apply _. Defined.

Definition sum_cost (rows : list Usage) : Z := foldr (λ u acc, u_cost u + acc) 0 rows.

Definition select_sum_cost (jti : string) (day_key : Z) (bucket : string) : M (option Z) :=
  let* db := get_db in
  let rows := filter (in_window jti day_key bucket) (usage db) in
  ret (if bool_decide (rows = []) then None else Some (sum_cost rows)).

(** [INSERT INTO usage (jti, device_id, bucket, cost, day_key, minute_key,
    month_key)]: foreign key [jti]. *)
Definition insert_usage (u : Usage) : M unit :=
  let* db := get_db in
  if bool_decide (licenses db !! u_jti u = None)
  then throw (D1_ERROR "FOREIGN KEY constraint failed")
  else modify_db (set_usage (λ rows, rows ++ [u])).

(** [SELECT * FROM coupon_codes WHERE code = ?1 AND project_id = ?2] … [.first()] *)
Definition select_coupon (code projectId : string) : M (option Coupon) :=
  let* db := get_db in
  ret (match coupon_codes db !! code with
       | Some c => if bool_decide (c_project_id c = projectId) then Some c else None
       | None => None
       end).

(** [INSERT INTO licenses (jti, project_id, type, agency_id, seat_index, quotas,
    exp)]: [CHECK(type IN ('seat', 'individual'))], primary key [jti], foreign
    key [agency_id].  The store tests the row's own constraint first, then the
    key, and the foreign key when the statement ends. *)
Definition insert_license (jti : string) (l : License) : M unit :=
  let* db := get_db in
  if bool_decide (l_type l ≠ "seat" ∧ l_type l ≠ "individual")
  then throw (D1_ERROR "CHECK constraint failed: type IN ('seat', 'individual')")
  else if bool_decide (is_Some (licenses db !! jti))
  then throw (D1_ERROR "UNIQUE constraint failed: licenses.jti")
  else if match l_agency_id l with
          | Some ag => bool_decide (agencies db !! ag = None)
          | None => false
          end
  then throw (D1_ERROR "FOREIGN KEY constraint failed")
  else modify_db (set_licenses (insert jti l)).

(** [INSERT INTO agencies (agency_id, name, seat_quota)]: primary key
    [agency_id]. *)
Definition insert_agency (agency_id : string) (a : Agency) : M unit :=
  let* db := get_db in
  if bool_decide (is_Some (agencies db !! agency_id))
  then throw (D1_ERROR "UNIQUE constraint failed: agencies.agency_id")
  else modify_db (set_agencies (insert agency_id a)).

(** [INSERT INTO coupon_codes (code, project_id, plan_details_json, max_uses,
    expires_at)]: primary key [code]; [current_uses] defaults to 0. *)
Definition insert_coupon (code : string) (c : Coupon) : M unit :=
  let* db := get_db in
  if bool_decide (is_Some (coupon_codes db !! code))
  then throw (D1_ERROR "UNIQUE constraint failed: coupon_codes.code")
  else modify_db (set_coupon_codes (insert code c)).

(** [SELECT jti FROM licenses WHERE project_id = ?1 AND revoked = 1] … [.all()] *)
Definition select_revoked (projectId : string) : M (list string) :=
  let* db := get_db in
  ret ((map_to_list
          (filter (λ kv, l_project_id kv.2 = projectId ∧ l_revoked kv.2 = true)
             (licenses db))).*1).

(** [UPDATE coupon_codes SET current_uses = current_uses + 1 WHERE code = ?1] *)
Definition increment_coupon (code : string) : M unit :=
  modify_db (set_coupon_codes (alter bump_coupon code)).

(** [env.DB.batch] of
    [UPDATE licenses SET revoked = 1 WHERE jti = ?1] and
    [UPDATE activations SET revoked = 1 WHERE jti = ?1]: one transaction. *)
Definition batch_revoke (jti : string) : M unit :=
  modify_db (λ db,
    set_activations
      (fmap (λ a, if bool_decide (a_jti a = jti) then revoke_activation a else a))
      (set_licenses (alter revoke_license jti) db)).

(** ** Tokens and the platform

    A compact token is [header.payload.signature].  Base64, JSON and RSA are
    the platform's ([atob], [JSON], [crypto.subtle]); the handlers are
    parametric in them. *)

(** A parsed JSON object, by the properties the Worker reads off it; an
    absent property ([undefined]) is [None]. *)
Record Decoded := {
  alg : option string;
  aud : option string;
  exp : option Z;
  jti : option string;
  deviceId : option string
}.

(** The objects the Worker signs. *)
Inductive Payload :=
| ActivationPayload (projectId jti deviceId level : string) (exp : Z)
    (* { typ: 'activation', projectId, jti, deviceId, level, exp } *)
| RedeemedPayload (aud jti type : string) (exp : Z)
    (* { aud, jti, type, exp } *)
| IssuedPayload (aud jti type : string) (agency_id : option string)
    (seat_index : option Z) (exp : Z).
    (* { aud, jti, type, agency_id, seat_index, exp } *)

Record Platform := {
  (** [JSON.parse(atob(segment))]; [None] when either throws. *)
  JSON_parse_atob : string → option Decoded;
  (** [encodeBase64Url(new TextEncoder().encode(JSON.stringify(payload)))] *)
  encode_payload : Payload → string;
  (** [encodeBase64Url(await crypto.subtle.sign('RSASSA-PKCS1-v1_5', key, data))]
      under [env.PRIVATE_JWK]. *)
  subtle_sign : string → string;
  (** [crypto.subtle.verify('RSASSA-PKCS1-v1_5', key, signature, data)] under
      [env.PUBLIC_JWK_JSON], from the signature segment; [false] also when
      the segment does not decode. *)
  subtle_verify : string → string → bool
}.

(** [token.split('.')] *)
Fixpoint split_dot (s : string) : list string :=
  match s with
  | EmptyString => [EmptyString]
  | String c rest =>
      if bool_decide (c = "."%char) then EmptyString :: split_dot rest
      else match split_dot rest with
           | seg :: segs => String c seg :: segs
           | [] => [String c EmptyString]
           end
  end.

(** [encodeBase64Url] of [{"alg":"RS256","typ":"JWT"}] *)
Definition encodedHeader : string := "eyJhbGciOiJSUzI1NiIsInR5cCI6IkpXVCJ9".

Definition signJwt (P : Platform) (payload : Payload) : string :=
  let data := encodedHeader +:+ "." +:+ encode_payload P payload in
  data +:+ "." +:+ subtle_sign P data.

(** [verifyJwt(token, publicJwk)] of the developer API: the payload when the
    algorithm is RS256, the token has not expired and the signature verifies;
    [null] otherwise (every throw is caught). *)
Definition verifyJwt (P : Platform) (now : Z) (token : string) : option Decoded :=
  match split_dot token with
  | headerB64 :: payloadB64 :: signatureB64 :: _ =>
      match JSON_parse_atob P headerB64, JSON_parse_atob P payloadB64 with
      | Some header, Some payload =>
          if bool_decide (alg header ≠ Some "RS256") then None
          else if match exp payload with
                  | Some e => bool_decide (e * 1000 < now)
                  | None => false
                  end
          then None
          else if subtle_verify P signatureB64 (headerB64 +:+ "." +:+ payloadB64)
          then Some payload
          else None
      | _, _ => None
      end
  | _ => None
  end.

(** ** Responses *)
Inductive Body :=
| ErrorBody (error : string)                        (* { error } *)
| Started (activationId challenge rp_id user_name : string)
    (* { activationId, options: { challenge, rp, user, … } } *)
| Finished (activationCert : string)                (* { activationCert } *)
| OkTrue                                            (* { ok: true } *)
| Denied (bucket : string) (remaining resetAt : Z)
    (* { allowed: false, bucket, remaining, resetAt }; [resetAt] is the time
       value whose [toISOString()] is sent *)
| Allowed                                           (* { allowed: true } *)
| Redeemed (licenseToken : string)                  (* { licenseToken } *)
| RevokedOk (jti : string)                          (* { ok: true, jti } *)
| Revocations (revoked : list string) (updatedAt : Z)
    (* { revoked, updatedAt }; [updatedAt] is the time value whose
       [toISOString()] is sent *)
| IssuedTokens (licenseTokens : list string)        (* { licenseTokens } *)
| AgencyCreated (agencyId : string)                 (* { ok: true, agencyId } *)
| CouponCreated (code : string).                    (* { ok: true, code } *)

Record Response := { status : Z; body : Body }.

Definition jsonResponse (data : Body) (status : Z) : Response :=
  {| status := status; body := data |}.

(** JS truthiness of a number-or-undefined and of a string-or-undefined, and
    [a || b] on the former. *)
Definition truthy (v : option Z) : bool :=
  match v with
  | Some n => bool_decide (n ≠ 0)
  | None => false
  end.

Definition truthy_str (v : option string) : bool :=
  match v with
  | Some s => bool_decide (s ≠ "")
  | None => false
  end.

Definition or_else (a b : option Z) : option Z := if truthy a then a else b.

(** [String(x).padStart(n, c)] *)
Definition padStart (n : nat) (c : ascii) (s : string) : string :=
  String.string_of_list_ascii (replicate (n - String.length s)%nat c) +:+ s.

(** ** The Worker's handlers

    What a handler takes from outside the request and the store (the clock
    readings of [Date.now()] and [new Date()], the values drawn from
    [crypto.randomUUID()] and [crypto.getRandomValues], the host name of the
    request, the runtime's local time zone offset [tza], which is 0 on the
    Workers runtime) is an argument. *)
Section Worker.
Context (P : Platform).

(** [JSON.parse(atob(token.split('.')[1]))]; [None] when it throws. *)
Definition payload_of (token : string) : option Decoded :=
  split_dot token !! 1%nat ≫= JSON_parse_atob P.

Definition decode_payload (token : string) : M Decoded :=
  match payload_of token with
  | Some d => ret d
  | None => throw (TypeError "token payload does not decode")
  end.

(** *** POST /v1/activate/start *)
Definition activate_start (now : Z) (challenge activationId hostname : string)
    (projectId : option string) (licenseToken : string) (deviceInfo : option string)
    : M Response :=
  let* decodedToken := decode_payload licenseToken in
  if bool_decide (aud decodedToken ≠ projectId)
  then ret (jsonResponse (ErrorBody "Invalid token audience.") 400)
  else if match exp decodedToken with
          | Some e => bool_decide (e * 1000 < now)     (* Date.now() / 1000 > exp *)
          | None => false
          end
  then ret (jsonResponse (ErrorBody "License token has expired.") 400)
  else
    let* j := bound (jti decodedToken) in
    let* license := select_live_license j in
    match license with
    | None =>
        ret (jsonResponse
               (ErrorBody "License not found, has been revoked, or is invalid.") 404)
    | Some _ =>
        let* info := bound deviceInfo in
        insert_session activationId
          {| s_jti := j; s_challenge := challenge; s_device_info := Some info |} ;;;
        ret (jsonResponse (Started activationId challenge hostname j) 200)
    end.

(** *** POST /v1/activate/finish

    [credential] is the request's [credential] object by its [id]; [now]
    and [now'] are the two readings of [Date.now()]. *)
Definition activate_finish (deviceId : string) (now now' : Z)
    (activationId : string) (credential : option (option string)) : M Response :=
  let* session := select_session activationId in
  match session with
  | None =>
      ret (jsonResponse (ErrorBody "Activation session not found or expired.") 404)
  | Some session =>
      let* credential_id :=
        match credential with
        | Some id => bound id
        | None => throw (TypeError "Cannot read properties of undefined (reading 'id')")
        end in
      insert_activation activationId
        {| a_jti := s_jti session; a_device_id := deviceId;
           a_credential_id := credential_id; a_public_key := "{}";
           a_last_seen := Some (now `div` 1000); a_revoked := false |} ;;;
      let* row := select_license (s_jti session) in
      match row with
      | None => throw (TypeError "Cannot read properties of null (reading 'project_id')")
      | Some l =>
          let activationCert :=
            signJwt P (ActivationPayload (l_project_id l) (s_jti session) deviceId
                         "webauthn" (now' `div` 1000 + 7 * 24 * 60 * 60)) in
          ret (jsonResponse (Finished activationCert) 200)
      end
  end.

(** *** POST /v1/heartbeat *)
Definition heartbeat (now : Z) (activationCert : string) (userIdHash : option string)
    : M Response :=
  let* decodedCert := decode_payload activationCert in
  let* j := bound (jti decodedCert) in
  let* d := bound (deviceId decodedCert) in
  update_last_seen (now `div` 1000) j d ;;;
  (if truthy_str userIdHash
   then insert_or_ignore_user j d (default "" userIdHash)
   else ret tt) ;;;
  ret (jsonResponse OkTrue 200).

(** *** POST /v1/usage/meter *)

(** [quotas.byCategory && quotas.byCategory[bucket]) || {}], then
    [bucketQuota.daily || quotas.daily] *)
Definition dailyLimit (quotas : Quotas) (bucket : string) : option Z :=
  let bucketQuota :=
    default {| bq_daily := None |}
      (match q_byCategory quotas with
       | Some byCategory => byCategory !! bucket
       | None => None
       end) in
  or_else (bq_daily bucketQuota) (q_daily quotas).

(** [results[0]?.total || 0] *)
Definition todaysUsage (jti : string) (dayKey : Z) (bucket : string) : M Z :=
  let* total := select_sum_cost jti dayKey bucket in
  ret (default 0 (or_else total (Some 0))).

(** [new Date(today.getFullYear(), today.getMonth(), today.getDate() + 1)] *)
Definition next_local_midnight (tza today : Z) : option Z :=
  JSDate.DateOfYMD tza (JSDate.getFullYear tza today) (JSDate.getMonth tza today)
    (JSDate.getDate tza today + 1).

(** [`${now.getUTCFullYear()}${String(now.getUTCMonth() + 1).padStart(2, '0')}`] *)
Definition monthKey (now : Z) : string :=
  pretty (JSDate.getUTCFullYear now)
    +:+ padStart 2 "0" (pretty (JSDate.getUTCMonth now + 1)).

(** The [if (dailyLimit) { … }] block: [Some] response when it returns. *)
Definition quota_check (tza today : Z) (limit : option Z) (jti bucket : string)
    (cost : Z) : M (option Response) :=
  match limit with
  | Some dailyLimit =>
      if truthy limit then
        let dayKey := today `div` 86400000 in
        let* used := todaysUsage jti dayKey bucket in
        if bool_decide (used + cost > dailyLimit) then
          match next_local_midnight tza today with
          | Some resetAt =>
              ret (Some (jsonResponse (Denied bucket (dailyLimit - used) resetAt) 429))
          | None => throw RangeError
          end
        else ret None
      else ret None
  | None => ret None
  end.

(** [JSON.parse(license.quotas || '{}')]: [None] is the JSON [null], whose
    properties cannot be read. *)
Definition parse_quotas (license : License) : option Quotas :=
  match l_quotas license with
  | QuotasNull => Some {| q_daily := None; q_byCategory := None |}
  | QuotasJsonNull => None
  | QuotasObject quotas => Some quotas
  end.

(** The row bound to the [INSERT INTO usage]: the keys are those of [now]. *)
Definition usage_row (now : Z) (jti deviceId bucket : string) (cost : Z) : Usage :=
  let dayKey := now `div` 86400000 in
  let minuteKey := now `div` 60000 in
  {| u_jti := jti; u_device_id := deviceId; u_bucket := bucket; u_cost := cost;
     u_day_key := dayKey; u_minute_key := minuteKey; u_month_key := monthKey now |}.

(** [t] is the reading of [Date.now()] in the expiry test, [today] and
    [now] those of the two [new Date()]. *)
Definition meter (tza t today now : Z) (activationCert bucket : string) (cost : Z)
    : M Response :=
  let* decodedCert := decode_payload activationCert in
  let* j := bound (jti decodedCert) in
  let* license := select_live_license j in
  match license with
  | None => ret (jsonResponse (ErrorBody "Invalid or expired license.") 403)
  | Some license =>
      if bool_decide (l_exp license * 1000 < t)
      then ret (jsonResponse (ErrorBody "Invalid or expired license.") 403)
      else
        match parse_quotas license with
        | None =>
            throw (TypeError "Cannot read properties of null (reading 'byCategory')")
        | Some quotas =>
            let* denied :=
              quota_check tza today (dailyLimit quotas bucket) j bucket cost in
            match denied with
            | Some response => ret response
            | None =>
                let* d := bound (deviceId decodedCert) in
                insert_usage (usage_row now j d bucket cost) ;;;
                ret (jsonResponse Allowed 200)
            end
        end
  end.

(** *** POST /v1/coupons/redeem

    The handler awaits the store three times; between two awaits other
    requests run.  Its three parts are given apart, and [coupons_redeem] is
    the handler run without interruption. *)

(** Up to the validity tests on the selected coupon. *)
Definition redeem_select (now : Z) (couponCode projectId : option string)
    : M (Response + Plan) :=
  if negb (truthy_str couponCode) || negb (truthy_str projectId)
  then ret (inl (jsonResponse (ErrorBody "couponCode and projectId are required.") 400))
  else
    let* coupon := select_coupon (default "" couponCode) (default "" projectId) in
    match coupon with
    | None => ret (inl (jsonResponse (ErrorBody "Invalid or expired coupon code.") 404))
    | Some coupon =>
        if bool_decide (c_current_uses coupon >= c_max_uses coupon)
        then ret (inl (jsonResponse
               (ErrorBody "This coupon has reached its maximum number of uses.") 403))
        else if match c_expires_at coupon with
                | Some e => bool_decide (e ≠ 0) && bool_decide (e * 1000 < now)
                | None => false
                end
        then ret (inl (jsonResponse (ErrorBody "This coupon has expired.") 403))
        else ret (inr (c_plan coupon))
    end.

(** The licence row of a redemption. *)
Definition redeemed_license (projectId : string) (plan : Plan) (exp : Z) : License :=
  {| l_project_id := projectId; l_type := "individual"; l_agency_id := None;
     l_seat_index := None; l_quotas := QuotasObject (plan_quotas plan); l_exp := exp;
     l_revoked := false |}.

Definition redeem_exp (now : Z) (plan : Plan) : Z :=
  now `div` 1000 + durationDays plan * 24 * 60 * 60.

Definition redeem_token (projectId jti : string) (exp : Z) : Response :=
  jsonResponse (Redeemed (signJwt P (RedeemedPayload projectId jti "individual" exp))) 200.

Definition coupons_redeem (now now' : Z) (jti : string)
    (couponCode projectId : option string) : M Response :=
  let* checked := redeem_select now couponCode projectId in
  match checked with
  | inl response => ret response
  | inr plan =>
      let code := default "" couponCode in
      let project := default "" projectId in
      let exp := redeem_exp now' plan in
      insert_license jti (redeemed_license project plan exp) ;;;
      increment_coupon code ;;;
      ret (redeem_token project jti exp)
  end.

(** *** GET /v1/revocations *)
Definition revocations (now : Z) (projectId : option string) : M Response :=
  if negb (truthy_str projectId)
  then ret (jsonResponse (ErrorBody "projectId is required") 400)
  else
    let* results := select_revoked (default "" projectId) in
    ret (jsonResponse (Revocations results now) 200).

(** *** The admin endpoints

    [authorized] is the outcome of [adminAuth]'s comparison of the request's
    secret with [env.ADMIN_SECRET]; a request that fails it is answered 401
    and goes no further. *)

(** POST /admin/agencies/create *)
Definition agencies_create (authorized : bool) (agencyId name : option string)
    (seatQuota : option Z) : M Response :=
  if negb authorized then ret (jsonResponse (ErrorBody "Unauthorized") 401)
  else
    let* id := bound agencyId in
    let* n := bound name in
    let* quota := bound seatQuota in
    insert_agency id {| ag_name := n; ag_seat_quota := quota |} ;;;
    ret (jsonResponse (AgencyCreated id) 201).

(** POST /admin/licenses/issue: the loop over seats, [n] iterations from
    index [i] on.  [draw i] is what iteration [i] takes from
    [crypto.randomUUID()] and [Date.now()]; [agencyId] and [quotas] may be
    [undefined] ([None]) or [null] ([Some None]). *)
Fixpoint issue_seats (draw : Z → string * Z) (projectId type : option string)
    (agencyId : option (option string)) (durationDays : Z)
    (quotas : option (option Quotas)) (n : nat) (i : Z) (issuedTokens : list string)
    : M (list string) :=
  match n with
  | O => ret issuedTokens
  | S n' =>
      let '(j, now) := draw i in
      let exp := now `div` 1000 + durationDays * 24 * 60 * 60 in
      let seat_index := if bool_decide (type = Some "seat") then Some (i + 1) else None in
      let* project := bound projectId in
      let* ty := bound type in
      let* agency := bound agencyId in
      let* text := bound quotas in
      insert_license j
        {| l_project_id := project; l_type := ty; l_agency_id := agency;
           l_seat_index := seat_index;
           l_quotas := match text with
                       | Some q => QuotasObject q
                       | None => QuotasJsonNull
                       end;
           l_exp := exp; l_revoked := false |} ;;;
      let token := signJwt P (IssuedPayload project j ty agency seat_index exp) in
      issue_seats draw projectId type agencyId durationDays quotas n' (i + 1)
        (issuedTokens ++ [token])
  end.

(** [seats] defaults to 1 and [durationDays] to 30. *)
Definition licenses_issue (authorized : bool) (draw : Z → string * Z)
    (projectId type : option string) (agencyId : option (option string))
    (seats durationDays : option Z) (quotas : option (option Quotas)) : M Response :=
  if negb authorized then ret (jsonResponse (ErrorBody "Unauthorized") 401)
  else
    let* issuedTokens :=
      issue_seats draw projectId type agencyId (default 30 durationDays) quotas
        (Z.to_nat (default 1 seats)) 0 [] in
    ret (jsonResponse (IssuedTokens issuedTokens) 201).

(** POST /admin/coupons/create *)
Definition coupons_create (authorized : bool) (code projectId : option string)
    (durationDays : option Z) (quotas : option Quotas) (maxUses expiresAt : option Z)
    : M Response :=
  if negb authorized then ret (jsonResponse (ErrorBody "Unauthorized") 401)
  else if negb (truthy_str code) || negb (truthy_str projectId)
          || negb (truthy durationDays) || negb (bool_decide (is_Some quotas))
          || negb (truthy maxUses)
  then ret (jsonResponse (ErrorBody "Missing required fields.") 400)
  else
    let plan :=
      {| durationDays := default 0 durationDays;
         plan_quotas := default {| q_daily := None; q_byCategory := None |} quotas |} in
    insert_coupon (default "" code)
      {| c_project_id := default "" projectId; c_plan := plan;
         c_max_uses := default 0 maxUses; c_current_uses := 0;
         c_expires_at := or_else expiresAt None |} ;;;
    ret (jsonResponse (CouponCreated (default "" code)) 201).

(** POST /admin/licenses/revoke *)
Definition licenses_revoke (authorized : bool) (jti : option string) : M Response :=
  if negb authorized then ret (jsonResponse (ErrorBody "Unauthorized") 401)
  else
    let* j := bound jti in
    batch_revoke j ;;;
    ret (jsonResponse (RevokedOk j) 200).

End Worker.

Arguments next_local_midnight : simpl never.
Arguments monthKey : simpl never.
Arguments usage_row : simpl never.
Arguments signJwt : simpl never.

(** *** Interleaved redemptions

    A redemption in flight is at one of the handler's awaits; a step runs it
    up to the next one.  A schedule names, step by step, which request of a
    list runs next: requests interleave at their awaits and nowhere else. *)
Inductive RedeemTask :=
| Received (now now' : Z) (jti : string) (couponCode projectId : option string)
| Selected (now' : Z) (jti code project : string) (plan : Plan)
| Inserted (jti code project : string) (exp : Z)
| Answered (r : Response)
| Failed (e : Error).

Definition redeem_step (P : Platform) (task : RedeemTask) (db : DB) : DB * RedeemTask :=
  match task with
  | Received now now' jti couponCode projectId =>
      match redeem_select now couponCode projectId db with
      | (db', Ok (inl response)) => (db', Answered response)
      | (db', Ok (inr plan)) =>
          (db', Selected now' jti (default "" couponCode) (default "" projectId) plan)
      | (db', Throw e) => (db', Failed e)
      end
  | Selected now' jti code project plan =>
      let exp := redeem_exp now' plan in
      match insert_license jti (redeemed_license project plan exp) db with
      | (db', Ok _) => (db', Inserted jti code project exp)
      | (db', Throw e) => (db', Failed e)
      end
  | Inserted jti code project exp =>
      match increment_coupon code db with
      | (db', Ok _) => (db', Answered (redeem_token P project jti exp))
      | (db', Throw e) => (db', Failed e)
      end
  | Answered _ | Failed _ => (db, task)
  end.

Definition step_at (P : Platform) (i : nat) (tasks : list RedeemTask) (db : DB)
    : DB * list RedeemTask :=
  match tasks !! i with
  | Some task =>
      let '(db', task') := redeem_step P task db in (db', <[i := task']> tasks)
  | None => (db, tasks)
  end.

Fixpoint run_schedule (P : Platform) (schedule : list nat) (tasks : list RedeemTask)
    (db : DB) : DB * list RedeemTask :=
  match schedule with
  | [] => (db, tasks)
  | i :: rest =>
      let '(db', tasks') := step_at P i tasks db in run_schedule P rest tasks' db'
  end.

(** How a handler run shows in a task. *)
Definition task_of (out : Res Response) : RedeemTask :=
  match out with
  | Ok r => Answered r
  | Throw e => Failed e
  end.

(** *** Requests one after another

    The handlers above as one request type, and the store after a list of
    requests handled in turn (whatever each answered: a throw of one request
    leaves what it wrote and does not stop the next).  These are all the
    endpoints of the Worker that write to the relations above, and
    [GET /v1/revocations]; [GET /admin/analytics/summary] only reads. *)
Inductive Request :=
| ActivateStart (now : Z) (challenge activationId hostname : string)
    (projectId : option string) (licenseToken : string) (deviceInfo : option string)
| ActivateFinish (deviceId : string) (now now' : Z) (activationId : string)
    (credential : option (option string))
| Heartbeat (now : Z) (activationCert : string) (userIdHash : option string)
| Meter (tza t today now : Z) (activationCert bucket : string) (cost : Z)
| CouponsRedeem (now now' : Z) (jti : string) (couponCode projectId : option string)
| GetRevocations (now : Z) (projectId : option string)
| AgenciesCreate (authorized : bool) (agencyId name : option string) (seatQuota : option Z)
| LicensesIssue (authorized : bool) (draw : Z → string * Z)
    (projectId type : option string) (agencyId : option (option string))
    (seats durationDays : option Z) (quotas : option (option Quotas))
| CouponsCreate (authorized : bool) (code projectId : option string)
    (durationDays : option Z) (quotas : option Quotas) (maxUses expiresAt : option Z)
| LicensesRevoke (authorized : bool) (jti : option string).

Definition handle (P : Platform) (req : Request) : M Response :=
  match req with
  | ActivateStart now challenge activationId hostname projectId licenseToken deviceInfo =>
      activate_start P now challenge activationId hostname projectId licenseToken deviceInfo
  | ActivateFinish deviceId now now' activationId credential =>
      activate_finish P deviceId now now' activationId credential
  | Heartbeat now activationCert userIdHash => heartbeat P now activationCert userIdHash
  | Meter tza t today now activationCert bucket cost =>
      meter P tza t today now activationCert bucket cost
    | CouponsRedeem now now' jti couponCode projectId =>
      coupons_redeem P now now' jti couponCode projectId
  | GetRevocations now projectId => revocations now projectId
  | AgenciesCreate authorized agencyId name seatQuota =>
      agencies_create authorized agencyId name seatQuota
  | LicensesIssue authorized draw projectId type agencyId seats durationDays quotas =>
      licenses_issue P authorized draw projectId type agencyId seats durationDays quotas
  | CouponsCreate authorized code projectId durationDays quotas maxUses expiresAt =>
      coupons_create authorized code projectId durationDays quotas maxUses expiresAt
  | LicensesRevoke authorized jti => licenses_revoke authorized jti
  end.

Definition after (P : Platform) (reqs : list Request) (db : DB) : DB :=
  foldl (λ db req, (handle P req db).1) db reqs.

(** ** Vocabulary of the properties *)

(** A computation keeps [I] when the store it leaves satisfies [I] whenever
    the store it started from did, whether it ends well or throws. *)
Definition preserves {A} (I : DB → Prop) (m : M A) : Prop :=
  ∀ db, I db → I (m db).1.

(** The cost recorded for a licence and bucket in a day window. *)
Definition window_cost (jti : string) (day_key : Z) (bucket : string) (db : DB) : Z :=
  sum_cost (filter (in_window jti day_key bucket) (usage db)).

(** Every coupon is within its cap. *)
Definition within_cap (db : DB) : Prop :=
  ∀ code c, coupon_codes db !! code = Some c → c_current_uses c ≤ c_max_uses c.

(** A licence row that exists and is revoked. *)
Definition revoked_in (j : string) (db : DB) : Prop :=
  ∃ l, licenses db !! j = Some l ∧ l_revoked l = true.

(** A licence row that exists and is not revoked. *)
Definition live_license (db : DB) (j : string) (l : License) : Prop :=
  licenses db !! j = Some l ∧ l_revoked l = false.

(** ["YYYYMM"] spelled out: four decimal digits of the year, two of the
    month. *)
Definition digit (n : Z) : ascii := ascii_of_nat (48 + Z.to_nat (n `mod` 10)).

Definition year_digits (y : Z) : string :=
  String (digit (y `div` 1000)) (String (digit (y `div` 100))
    (String (digit (y `div` 10)) (String (digit y) EmptyString))).

Definition month_digits (m : Z) : string :=
  String (digit (m `div` 10)) (String (digit m) EmptyString).

Definition YYYYMM (year month : Z) : string := year_digits year +:+ month_digits month.

(** Sequential calls of [meter] with one certificate, bucket and cost, each
    with its own clock readings [(t, today, now)]. *)
Fixpoint meter_calls (P : Platform) (tza : Z) (clocks : list (Z * Z * Z))
    (activationCert bucket : string) (cost : Z) : M (list Response) :=
  match clocks with
  | [] => ret []
  | (t, today, now) :: rest =>
      let* r := meter P tza t today now activationCert bucket cost in
      let* rs := meter_calls P tza rest activationCert bucket cost in
      ret (r :: rs)
  end.

(** The handler's expiry test on a selected coupon:
    [coupon.expires_at && coupon.expires_at * 1000 < Date.now()]. *)
Definition expired_at (c : Coupon) (now : Z) : bool :=
  match c_expires_at c with
  | Some e => bool_decide (e ≠ 0) && bool_decide (e * 1000 < now)
  | None => false
  end.

(** The handler's expiry test on a licence token:
    [Date.now() / 1000 > exp]. *)
Definition token_expired (d : Decoded) (now : Z) : bool :=
  match exp d with
  | Some e => bool_decide (e * 1000 < now)
  | None => false
  end.

(** Clock readings [(t, today, now)] of a call made before the licence
    expires, with [today] and [now] in day [D]. *)
Definition same_day_unexpired (l : License) (D : Z) (clock : Z * Z * Z) : Prop :=
  ¬ (l_exp l * 1000 < clock.1.1) ∧ clock.1.2 `div` 86400000 = D ∧
  clock.2 `div` 86400000 = D.
#[global] Instance same_day_unexpired_dec l D c : Decision (same_day_unexpired l D c).
Proof. unfold same_day_unexpired; apply _. Defined.

(** The limit resolution in the words of the specification: the per-bucket
    daily limit if configured, else the global daily limit, else unlimited
    ([None]). *)
Definition bucket_daily (quotas : Quotas) (bucket : string) : option Z :=
  match q_byCategory quotas with
  | Some byCategory => byCategory !! bucket ≫= bq_daily
  | None => None
  end.

Definition configured_limit (quotas : Quotas) (bucket : string) : option Z :=
  match bucket_daily quotas bucket with
  | Some n => Some n
  | None => q_daily quotas
  end.

(** The same with a limit of 0 counted as not configured. *)
Definition nonzero (v : option Z) : option Z :=
  match v with
  | Some n => if bool_decide (n = 0) then None else Some n
  | None => None
  end.

Definition effective_limit (quotas : Quotas) (bucket : string) : option Z :=
  match nonzero (bucket_daily quotas bucket) with
  | Some n => Some n
  | None => nonzero (q_daily quotas)
  end.

(** ** A concrete platform and store

    Used to evaluate the handlers on explicit requests.  Base64url and the
    JSON text of the signed objects are computed as [btoa] and
    [JSON.stringify] compute them on plain ASCII; parsing is given on the
    segments the examples use; the signature is a stand-in (the data itself,
    marked, its dot replaced) that verifies exactly the data it was made
    from. *)
Module Demo.

Definition alphabet : list ascii :=
  String.list_ascii_of_string
    "ABCDEFGHIJKLMNOPQRSTUVWXYZabcdefghijklmnopqrstuvwxyz0123456789-_".

Definition sextet (n : nat) : ascii := default "A"%char (alphabet !! n).

Fixpoint b64url (bytes : list nat) : list ascii :=
  match bytes with
  | a :: b :: c :: rest =>
      sextet (a / 4) :: sextet ((a mod 4) * 16 + b / 16)
        :: sextet ((b mod 16) * 4 + c / 64) :: sextet (c mod 64) :: b64url rest
  | [a; b] => [sextet (a / 4); sextet ((a mod 4) * 16 + b / 16); sextet ((b mod 16) * 4)]
  | [a] => [sextet (a / 4); sextet ((a mod 4) * 16)]
  | [] => []
  end%nat.

Definition encodeBase64Url (text : string) : string :=
  String.string_of_list_ascii (b64url (nat_of_ascii <$> String.list_ascii_of_string text)).

Definition quote : string := String (ascii_of_nat 34) EmptyString.
Definition str (s : string) : string := quote +:+ s +:+ quote.
Definition field (name value : string) : string := str name +:+ ":" +:+ value.

Definition stringify (p : Payload) : string :=
  match p with
  | ActivationPayload projectId jti deviceId level exp =>
      "{" +:+ field "typ" (str "activation") +:+ "," +:+ field "projectId" (str projectId)
        +:+ "," +:+ field "jti" (str jti) +:+ "," +:+ field "deviceId" (str deviceId)
        +:+ "," +:+ field "level" (str level) +:+ "," +:+ field "exp" (pretty exp) +:+ "}"
  | RedeemedPayload aud jti type exp =>
      "{" +:+ field "aud" (str aud) +:+ "," +:+ field "jti" (str jti)
        +:+ "," +:+ field "type" (str type) +:+ "," +:+ field "exp" (pretty exp) +:+ "}"
  | IssuedPayload aud jti type agency_id seat_index exp =>
      "{" +:+ field "aud" (str aud) +:+ "," +:+ field "jti" (str jti)
        +:+ "," +:+ field "type" (str type)
        +:+ "," +:+ field "agency_id"
              match agency_id with
              | Some a => str a
              | None => "null"
              end
        +:+ "," +:+ field "seat_index"
              match seat_index with
              | Some i => pretty i
              | None => "null"
              end
        +:+ "," +:+ field "exp" (pretty exp) +:+ "}"
  end.

(** [{"aud":"p1","jti":"L1","type":"individual","exp":2000000000}] *)
Definition license_claims : Decoded :=
  {| alg := None; aud := Some "p1"; exp := Some 2000000000; jti := Some "L1";
     deviceId := None |}.

(** [{"typ":"activation","projectId":"p1","jti":"L1","deviceId":"D1",
     "level":"webauthn","exp":2000000000}] *)
Definition cert_claims : Decoded :=
  {| alg := None; aud := None; exp := Some 2000000000; jti := Some "L1";
     deviceId := Some "D1" |}.

Definition license_segment : string :=
  encodeBase64Url (stringify (RedeemedPayload "p1" "L1" "individual" 2000000000)).

Definition cert_segment : string :=
  encodeBase64Url (stringify (ActivationPayload "p1" "L1" "D1" "webauthn" 2000000000)).

Definition parse (segment : string) : option Decoded :=
  if bool_decide (segment = encodedHeader)
  then Some {| alg := Some "RS256"; aud := None; exp := None; jti := None;
               deviceId := None |}
  else if bool_decide (segment = license_segment) then Some license_claims
  else if bool_decide (segment = cert_segment) then Some cert_claims
  else None.

Definition sign (data : string) : string :=
  "signed_" +:+ String.concat "_" (split_dot data).

Definition platform : Platform :=
  {| JSON_parse_atob := parse;
     encode_payload := λ p, encodeBase64Url (stringify p);
     subtle_sign := sign;
     subtle_verify := λ signature data, bool_decide (signature = sign data) |}.

(** The licence token and the activation certificate as [signJwt] makes
    them. *)
Definition license_token : string :=
  signJwt platform (RedeemedPayload "p1" "L1" "individual" 2000000000).
Definition cert : string :=
  signJwt platform (ActivationPayload "p1" "L1" "D1" "webauthn" 2000000000).

(** Tokens that carry the two payloads under a signature nobody made. *)
Definition forged_license : string := encodedHeader +:+ "." +:+ license_segment +:+ ".AAAA".
Definition forged_cert : string := encodedHeader +:+ "." +:+ cert_segment +:+ ".AAAA".

Definition no_quotas : Quotas := {| q_daily := None; q_byCategory := None |}.

Definition license (quotas : Quotas) : License :=
  {| l_project_id := "p1"; l_type := "individual"; l_agency_id := None;
     l_seat_index := None; l_quotas := QuotasObject quotas; l_exp := 2000000000;
     l_revoked := false |}.

Definition empty_db : DB :=
  {| agencies := ∅; licenses := ∅; activation_sessions := ∅; activations := ∅;
     usage := []; users_seen := ∅; coupon_codes := ∅ |}.

(** A store holding licence [L1] of project [p1] with the given quotas. *)
Definition store (quotas : Quotas) : DB :=
  set_licenses (insert "L1" (license quotas)) empty_db.

(** 2026-11-03T08:00:00Z *)
Definition clock : Z := 1793692800000.

(** One hundred calls a second apart, from [clock] on. *)
Definition hundred_clocks : list (Z * Z * Z) :=
  (λ i, (clock + 1000 * i, clock + 1000 * i, clock + 1000 * i)) <$> seqZ 0 100.

(** Coupon [WELCOME] of project [p1]: one use, none taken, no expiry. *)
Definition coupon : Coupon :=
  {| c_project_id := "p1"; c_plan := {| durationDays := 30; plan_quotas := no_quotas |};
     c_max_uses := 1; c_current_uses := 0; c_expires_at := None |}.

Definition coupon_store : DB := set_coupon_codes (insert "WELCOME" coupon) empty_db.

(** Licence [L1] with a pending activation session [A1], and the same with
    session [A2] beside an activation of [L1] on device [D1]. *)
Definition session : ActivationSession :=
  {| s_jti := "L1"; s_challenge := "c29tZSBjaGFsbGVuZ2U"; s_device_info := Some "{}" |}.

Definition session_store : DB :=
  set_activation_sessions (insert "A1" session) (store no_quotas).

Definition activation_D1 : Activation :=
  {| a_jti := "L1"; a_device_id := "D1"; a_credential_id := "cred-1";
     a_public_key := "{}"; a_last_seen := Some 1793692800; a_revoked := false |}.

Definition bound_store : DB :=
  set_activation_sessions (insert "A2" session)
    (set_activations (insert "A1" activation_D1) (store no_quotas)).

(** [{ "daily": 100 }] *)
Definition daily_100 : Quotas := {| q_daily := Some 100; q_byCategory := None |}.

(** [{ "daily": 0, "byCategory": { "ai": { "daily": 0 } } }] *)
Definition zero_limits : Quotas :=
  {| q_daily := Some 0; q_byCategory := Some {[ "ai" := {| bq_daily := Some 0 |} ]} |}.

(** [{ "daily": 1 }] *)
Definition daily_1 : Quotas := {| q_daily := Some 1; q_byCategory := None |}.

(** [{ "daily": 5, "byCategory": { "ai": { "daily": 0 } } }] *)
Definition zero_bucket : Quotas :=
  {| q_daily := Some 5; q_byCategory := Some {[ "ai" := {| bq_daily := Some 0 |} ]} |}.

End Demo.

(** * Further parts of the Worker and the SDK *)

(** ** Local time in a zone whose offset changes

    [JSDate.LocalTime] has one offset for all times, which is the Workers
    runtime (UTC) and every zone without daylight saving.  In general
    ECMA-262 has [LocalTime(t) = t + LocalTZA(t, true)], with the offset in
    force at the instant [t], and [UTC(t) = t - LocalTZA(t, false)], with the
    offset under which the local time [t] is read as an instant (the one
    before a change for a local time that the change repeats or skips).  The
    zone is the argument [LocalTZA]; [λ _ _, tza] is the fixed offset [tza]. *)
Module JSLocal.

Definition LocalTime (LocalTZA : Z → bool → Z) (t : Z) : Z := t + LocalTZA t true.
Definition UTC (LocalTZA : Z → bool → Z) (t : Z) : Z := t - LocalTZA t false.

Definition getFullYear (LocalTZA : Z → bool → Z) (t : Z) : Z :=
  JSDate.YearFromTime (LocalTime LocalTZA t).
Definition getMonth (LocalTZA : Z → bool → Z) (t : Z) : Z :=
  JSDate.MonthFromTime (LocalTime LocalTZA t).
Definition getDate (LocalTZA : Z → bool → Z) (t : Z) : Z :=
  JSDate.DateFromTime (LocalTime LocalTZA t).

(** [new Date(year, month, date)] *)
Definition DateOfYMD (LocalTZA : Z → bool → Z) (year month date : Z) : option Z :=
  let yr := if bool_decide (0 ≤ year ≤ 99) then 1900 + year else year in
  JSDate.TimeClip (UTC LocalTZA (JSDate.MakeDate (JSDate.MakeDay yr month date) 0)).

End JSLocal.

(** [new Date(today.getFullYear(), today.getMonth(), today.getDate() + 1)] of
    the meter handler, in the zone [LocalTZA]. *)
Definition next_local_midnight_in (LocalTZA : Z → bool → Z) (today : Z) : option Z :=
  JSLocal.DateOfYMD LocalTZA (JSLocal.getFullYear LocalTZA today)
    (JSLocal.getMonth LocalTZA today) (JSLocal.getDate LocalTZA today + 1).

Module Base64.

Definition alphabet : list ascii :=
  String.list_ascii_of_string
    "ABCDEFGHIJKLMNOPQRSTUVWXYZabcdefghijklmnopqrstuvwxyz0123456789+/".

Definition digit_char (n : N) : ascii := default "A"%char (alphabet !! N.to_nat n).

Definition char_digit (c : ascii) : option N :=
  (λ found, N.of_nat found.1) <$> list_find (λ x, x = c) alphabet.

Fixpoint sextets (codes : list N) : list N :=
  match codes with
  | a :: b :: c :: rest =>
      a / 4 :: (a mod 4) * 16 + b / 16 :: (b mod 16) * 4 + c / 64 :: c mod 64
        :: sextets rest
  | [a; b] => [a / 4; (a mod 4) * 16 + b / 16; (b mod 16) * 4]
  | [a] => [a / 4; (a mod 4) * 16]
  | [] => []
  end%N.

Definition padding (n : nat) : list ascii :=
  match (n mod 3)%nat with
  | 1%nat => ["="; "="]%char
  | 2%nat => ["="]%char
  | _ => []
  end.

Definition btoa (s : string) : string :=
  let codes := N_of_ascii <$> String.list_ascii_of_string s in
  String.string_of_list_ascii ((digit_char <$> sextets codes) ++ padding (length codes)).

Definition whitespace (c : ascii) : Prop :=
  c ∈ [ascii_of_nat 9; ascii_of_nat 10; ascii_of_nat 12; ascii_of_nat 13; " "%char].
#[global] Instance whitespace_dec c : Decision (whitespace c).
Proof. unfold whitespace; apply _. Defined.

Definition strip_padding (data : list ascii) : list ascii :=
  if decide (length data mod 4 = 0)%nat then
    match reverse data with
    | x :: y :: r =>
        if decide (x = "="%char) then
          if decide (y = "="%char) then reverse r else reverse (y :: r)
        else data
    | [x] => if decide (x = "="%char) then [] else data
    | [] => data
    end
  else data.

Fixpoint octets (digits : list N) : list N :=
  match digits with
  | a :: b :: c :: d :: rest =>
      a * 4 + b / 16 :: (b mod 16) * 16 + c / 4 :: (c mod 4) * 64 + d :: octets rest
  | [a; b; c] => [a * 4 + b / 16; (b mod 16) * 16 + c / 4]
  | [a; b] => [a * 4 + b / 16]
  | _ => []
  end%N.

Definition atob (s : string) : option string :=
  let data := strip_padding (filter (λ c, ¬ whitespace c) (String.list_ascii_of_string s)) in
  if decide (length data mod 4 = 1)%nat then None
  else
    digits ← mapM char_digit data;
    Some (String.string_of_list_ascii (ascii_of_N <$> octets digits)).

Fixpoint replaceAll (c : ascii) (by_ : string) (s : string) : string :=
  match s with
  | EmptyString => EmptyString
  | String x rest =>
      if decide (x = c) then by_ +:+ replaceAll c by_ rest
      else String x (replaceAll c by_ rest)
  end.

Definition encodeBase64Url (buf : list byte) : string :=
  replaceAll "=" "" (replaceAll "/" "_" (replaceAll "+" "-"
    (btoa (String.string_of_list_byte buf)))).

Definition decodeBase64Url (str : string) : option (list byte) :=
  String.list_byte_of_string <$> atob (replaceAll "_" "/" (replaceAll "-" "+" str)).

(** The URL-safe alphabet, and the byte values of a binary string. *)
Definition url_alphabet : list ascii :=
  String.list_ascii_of_string
    "ABCDEFGHIJKLMNOPQRSTUVWXYZabcdefghijklmnopqrstuvwxyz0123456789-_".

Definition url_char (n : N) : ascii := default "A"%char (url_alphabet !! N.to_nat n).

Definition url_safe (c : ascii) : Prop := c ∈ url_alphabet.

Definition codes (s : string) : list N := N_of_ascii <$> String.list_ascii_of_string s.

(** The three replacements of [encodeBase64Url] on a digit, and the two of
    [decodeBase64Url] on what they give. *)
Definition to_url (c : ascii) : list ascii :=
  (([c] ≫= (λ x : ascii, if decide (x = "+"%char) then ["-"%char] else [x]))
      ≫= (λ x : ascii, if decide (x = "/"%char) then ["_"%char] else [x]))
      ≫= (λ x : ascii, if decide (x = "="%char) then [] else [x]).

Definition from_url (c : ascii) : list ascii :=
  ([c] ≫= (λ x : ascii, if decide (x = "-"%char) then ["+"%char] else [x]))
      ≫= (λ x : ascii, if decide (x = "_"%char) then ["/"%char] else [x]).

End Base64.
(** ** The Worker's check of admin requests, and its CORS header *)





(** [s.split(sep)] for a one-character separator. *)
Fixpoint split_on (sep : ascii) (s : string) : list string :=
  match s with
  | EmptyString => [EmptyString]
  | String c rest =>
      if bool_decide (c = sep) then EmptyString :: split_on sep rest
      else match split_on sep rest with
           | seg :: segs => String c seg :: segs
           | [] => [String c EmptyString]
           end
  end.

(** What [new Response(…, { headers })] keeps of a header's value (Fetch,
    "append a header"): the value without its leading and trailing HTTP
    whitespace (tab, line feed, carriage return, space); a value that then
    still has a NUL, a line feed or a carriage return is no header value and
    the constructor throws a [TypeError] ([None]).  The characters of a text
    here are code units up to 255, which the conversion to a byte string
    takes. *)
Definition http_whitespace (c : ascii) : Prop :=
  c ∈ [ascii_of_nat 9; ascii_of_nat 10; ascii_of_nat 13; ascii_of_nat 32].
#[global] Instance http_whitespace_dec c : Decision (http_whitespace c).
Proof. unfold http_whitespace; apply _. Defined.

Definition forbidden_in_value (c : ascii) : Prop :=
  c ∈ [ascii_of_nat 0; ascii_of_nat 10; ascii_of_nat 13].
#[global] Instance forbidden_in_value_dec c : Decision (forbidden_in_value c).
Proof. unfold forbidden_in_value; apply _. Defined.

Fixpoint strip_leading (cs : list ascii) : list ascii :=
  match cs with
  | c :: rest => if bool_decide (http_whitespace c) then strip_leading rest else cs
  | [] => []
  end.

Definition normalize (value : list ascii) : list ascii :=
  reverse (strip_leading (reverse (strip_leading value))).

Definition header_value (value : string) : option string :=
  let kept := normalize (String.list_ascii_of_string value) in
  if bool_decide (Exists forbidden_in_value kept) then None
  else Some (String.string_of_list_ascii kept).

(** The [Access-Control-Allow-Origin] header of [jsonResponse]:
    [(env.ALLOWED_ORIGINS || "").split(',')[0] || '*'], as the response keeps
    it; [None] when constructing the response throws. *)
Definition allowOrigin (ALLOWED_ORIGINS : option string) : option string :=
  let allowedOrigins := split_on "," (default "" ALLOWED_ORIGINS) in
  let first := head allowedOrigins in
  header_value (if truthy_str first then default "" first else "*").

(** ** GET /admin/analytics/summary *)

(** A row of the seats query: the licence's columns and, from the left
    join, the columns of one of its activations ([None]: it has none). *)
Record Seat := {
  seat_jti : string;
  seat_seat_index : option Z;
  seat_exp : Z;
  seat_revoked : bool;
  seat_device_id : option string;
  seat_last_seen : option Z
}.

Definition seat_of (j : string) (l : License) (a : option Activation) : Seat :=
  {| seat_jti := j; seat_seat_index := l_seat_index l; seat_exp := l_exp l;
     seat_revoked := l_revoked l; seat_device_id := a_device_id <$> a;
     seat_last_seen := a ≫= a_last_seen |}.

(** [SELECT l.jti, l.seat_index, l.exp, l.revoked, a.device_id, a.last_seen
     FROM licenses l LEFT JOIN activations a ON l.jti = a.jti
     WHERE l.agency_id = ?1] … [.all()].  The order of the rows is the
    store's. *)
Definition activations_of (j : string) (db : DB) : list Activation :=
  (map_to_list (filter (λ ka, a_jti ka.2 = j) (activations db))).*2.

Definition seats_of (db : DB) (jl : string * License) : list Seat :=
  match activations_of jl.1 db with
  | [] => [seat_of jl.1 jl.2 None]
  | acts => (λ a, seat_of jl.1 jl.2 (Some a)) <$> acts
  end.

Definition select_seats (agencyId : string) : M (list Seat) :=
  let* db := get_db in
  ret (map_to_list (filter (λ jl, l_agency_id jl.2 = Some agencyId) (licenses db))
         ≫= seats_of db).

(** [SELECT l.jti, u.bucket, SUM(u.cost) as total_usage
     FROM usage u JOIN licenses l ON u.jti = l.jti
     WHERE l.agency_id = ?1 AND u.day_key = ?2 GROUP BY l.jti, u.bucket] *)
Definition of_agency (agencyId : string) (db : DB) (j : string) : Prop :=
  match licenses db !! j with
  | Some l => l_agency_id l = Some agencyId
  | None => False
  end.
#[global] Instance of_agency_dec agencyId db j : Decision (of_agency agencyId db j).
Proof. unfold of_agency; destruct (licenses db !! j); apply _. Defined.

Definition agency_usage (agencyId : string) (todayKey : Z) (db : DB) : list Usage :=
  filter (λ u, u_day_key u = todayKey ∧ of_agency agencyId db (u_jti u)) (usage db).

Definition select_usage_totals (agencyId : string) (todayKey : Z)
    : M (list (string * string * Z)) :=
  let* db := get_db in
  let rows := agency_usage agencyId todayKey db in
  let groups := remove_dups ((λ u, (u_jti u, u_bucket u)) <$> rows) in
  ret ((λ g, (g.1, g.2, sum_cost (filter (λ u, u_jti u = g.1 ∧ u_bucket u = g.2) rows)))
         <$> groups).

(** The property names every object inherits from [Object.prototype]. *)
Definition inherited : list string :=
  ["__proto__"; "constructor"; "hasOwnProperty"; "isPrototypeOf";
   "propertyIsEnumerable"; "toLocaleString"; "toString"; "valueOf";
   "__defineGetter__"; "__defineSetter__"; "__lookupGetter__"; "__lookupSetter__"].

(** The [reduce] into [usageByJti], for licence ids that are no inherited
    property names: [acc[jti]] is then the object put there or [undefined].
    Assigning to [__proto__] of the inner object a number does nothing. *)
Definition usageByJti (usage : list (string * string * Z)) : gmap string (gmap string Z) :=
  foldl (λ acc row,
           let inner := default ∅ (acc !! row.1.1) in
           <[row.1.1 := if bool_decide (row.1.2 = "__proto__") then inner
                        else <[row.1.2 := row.2]> inner]> acc)
    ∅ usage.

Definition seat_status (now : Z) (seat : Seat) : string :=
  if seat_revoked seat then "revoked"
  else if truthy_str (seat_device_id seat) then "active"
  else if bool_decide (seat_exp seat * 1000 < now) then "expired"
  else "issued".

(** An entry of [summary]: [{ ...seat, status, todays_usage }]. *)
Record SeatSummary := {
  ss_seat : Seat;
  ss_status : string;
  ss_todays_usage : gmap string Z
}.

(** What the endpoint answers: an error response, [{ summary }] with
    status 200, or, where a licence id of the agency is an inherited property
    name (the Worker draws its ids from [crypto.randomUUID()]), an answer
    that is not modelled. *)
Inductive Summary :=
| SummaryError (r : Response)
| SummaryRows (summary : list SeatSummary)
| SummaryNotModelled.

(** [today] is the reading of [new Date()], [clock i] that of [Date.now()]
    for the seat at index [i]. *)
Definition analytics_summary (authorized : bool) (today : Z) (clock : nat → Z)
    (agencyId : option string) : M Summary :=
  if negb authorized then ret (SummaryError (jsonResponse (ErrorBody "Unauthorized") 401))
  else if negb (truthy_str agencyId)
  then ret (SummaryError (jsonResponse (ErrorBody "agencyId is required") 400))
  else
    let* seats := select_seats (default "" agencyId) in
    let todayKey := today `div` 86400000 in
    let* usage := select_usage_totals (default "" agencyId) todayKey in
    if bool_decide (Exists (λ seat, seat_jti seat ∈ inherited) seats)
    then ret SummaryNotModelled
    else
      let byJti := usageByJti usage in
      ret (SummaryRows
             (imap (λ i seat,
                      {| ss_seat := seat; ss_status := seat_status (clock i) seat;
                         ss_todays_usage := default ∅ (byJti !! seat_jti seat) |})
                seats)).

(** ** The SDK ([sdk/baas-sdk.js]) against the Worker

    The SDK keeps [config.projectId], [state.license] and
    [state.activation], caches the licence token and the activation in
    [localStorage], and calls the Worker's endpoints with [fetch].  A request
    that the Worker fails with an uncaught exception is answered without a
    JSON body and is not [ok]. *)
Module SDK.

(** [config.projectId]: [null] at first, then what [ensure] assigns. *)
Inductive JSVal :=
| Undefined
| Null
| Str (s : string).

#[global] Instance JSVal_eq_dec : EqDecision JSVal.
Proof. solve_decision. Defined.

Definition of_option (v : option string) : JSVal :=
  match v with
  | Some s => Str s
  | None => Undefined
  end.

Definition truthy_val (v : JSVal) : bool :=
  match v with
  | Str s => bool_decide (s ≠ "")
  | _ => false
  end.

(** The file holds the SDK twice: with the signature verified against
    [PUBLIC_JWK], and with that step left as a TODO. *)
Inductive Version := Verifying | Simplified.

(** [verifyJwt(token)]: the payload, or [null] ([None]); every throw is
    caught. *)
Definition verifyJwt (P : Platform) (version : Version) (projectId : JSVal) (now : Z)
    (token : string) : option Decoded :=
  match version with
  | Verifying =>
      match split_dot token with
      | headerB64 :: payloadB64 :: rest =>
          match JSON_parse_atob P headerB64, JSON_parse_atob P payloadB64 with
          | Some _, Some payload =>
              if token_expired payload now then None
              else if bool_decide (of_option (aud payload) ≠ projectId) then None
              else match rest with
                   | signatureB64 :: _ =>
                       if subtle_verify P signatureB64 (headerB64 +:+ "." +:+ payloadB64)
                       then Some payload
                       else None
                   | [] => None
                   end
          | _, _ => None
          end
      | _ => None
      end
  | Simplified =>
      match split_dot token !! 1%nat ≫= JSON_parse_atob P with
      | Some payload =>
          if token_expired payload now then None
          else if bool_decide (of_option (aud payload) ≠ projectId) then None
          else Some payload
      | None => None
      end
  end.

(** [state.activation]: [{ deviceId, activationCert, level }]. *)
Record Activated := {
  act_deviceId : option string;
  act_activationCert : string;
  act_level : string
}.

(** The two items the SDK keeps in [localStorage], each under
    [baas:<projectId>:<key>], by project id: [{ token }] under [license] and
    the activation under [activation]. *)
Record Storage := {
  kept_license : gmap string string;
  kept_activation : gmap string Activated
}.

Record State := { license : option Decoded; activation : option Activated }.

Record Sdk := { projectId : JSVal; state : State; storage : Storage }.

(** What [updateStatus] hands to [config.onStatus]. *)
Record Status := {
  valid : bool;
  st_projectId : JSVal;
  st_license : option Decoded;
  st_activation : option (option string * string)    (* deviceId, level *)
}.

Definition updateStatus (s : Sdk) : Status :=
  {| valid := bool_decide (is_Some (license (state s)) ∧ is_Some (activation (state s)));
     st_projectId := projectId s;
     st_license := license (state s);
     st_activation := (λ a, (act_deviceId a, act_level a)) <$> activation (state s) |}.

(** [res.ok] of the response to a request. *)
Definition ok (out : Res Response) : bool :=
  match out with
  | Ok r => bool_decide (200 ≤ status r ≤ 299)
  | Throw _ => false
  end.

(** What one [activate] takes from outside: the Worker's clock readings and
    random draws for its two requests, the user agent text, the outcome of
    [navigator.credentials.create] (the credential's [id]; [None] when it
    rejects or gives [null]) and the SDK's clock reading. *)
Record ActivateDraws := {
  ad_now_start : Z;
  ad_challenge : string;
  ad_activationId : string;
  ad_hostname : string;
  ad_deviceInfo : string;
  ad_credential : option string;
  ad_deviceId : string;
  ad_now_finish : Z;
  ad_now_finish' : Z;
  ad_now_verify : Z
}.

(** [activate(licenseToken)] with [config.projectId] a string: whether it
    succeeded, and [state.activation] and the storage after it. *)
Definition activate (P : Platform) (version : Version) (project : string)
    (draws : ActivateDraws) (licenseToken : string) (activation0 : option Activated)
    (storage0 : Storage) (db : DB) : DB * (bool * option Activated * Storage) :=
  let failed db' := (db', (false, activation0, storage0)) in
  let '(db1, startRes) :=
    activate_start P (ad_now_start draws) (ad_challenge draws) (ad_activationId draws)
      (ad_hostname draws) (Some project) licenseToken (Some (ad_deviceInfo draws)) db in
  if negb (ok startRes) then failed db1
  else
    match startRes with
    | Ok {| body := Started activationId options_challenge _ _ |} =>
        match Base64.decodeBase64Url options_challenge, ad_credential draws with
        | Some _, Some credential_id =>
            let '(db2, finishRes) :=
              activate_finish P (ad_deviceId draws) (ad_now_finish draws) (ad_now_finish' draws)
                activationId (Some (Some credential_id)) db1 in
            if negb (ok finishRes) then failed db2
            else
              match finishRes with
              | Ok {| body := Finished activationCert |} =>
                  match verifyJwt P version (Str project) (ad_now_verify draws)
                          activationCert with
                  | Some decodedCert =>
                      let activated :=
                        {| act_deviceId := deviceId decodedCert;
                           act_activationCert := activationCert;
                           act_level := "webauthn" |} in
                      (db2,
                       (true, Some activated,
                        {| kept_license := kept_license storage0;
                           kept_activation :=
                             <[project := activated]> (kept_activation storage0) |}))
                  | None => failed db2
                  end
              | _ => failed db2
              end
        | _, _ => failed db1
        end
    | _ => failed db1
    end.

(** What one [ensure] takes from outside. *)
Record Ensure := {
  opts_projectId : option JSVal;    (* [opts.projectId], when [opts] has it *)
  token1 : option string;           (* [onRequestLicense()]; [None]: it throws *)
  token2 : option string;
  now1 : Z;                         (* the clock of each [verifyJwt] *)
  now2 : Z;
  now3 : Z;
  draws : ActivateDraws;
  now_beat : Z;
  userIdHash : option string
}.

(** How the promise of [ensure] ends. *)
Inductive Ended := Resolved | Rejected.

Record Outcome := {
  sdk : Sdk;
  statuses : list Status;     (* the calls of [config.onStatus], in order *)
  heartbeat_started : bool;
  ended : Ended
}.

Definition with_state (s : Sdk) (l : option Decoded) (a : option Activated) : Sdk :=
  {| projectId := projectId s; state := {| license := l; activation := a |};
     storage := storage s |}.

Definition ensure (P : Platform) (version : Version) (inputs : Ensure) (s0 : Sdk)
    (db : DB) : DB * Outcome :=
  let assigned :=
    {| projectId := default (projectId s0) (opts_projectId inputs);
       state := state s0; storage := storage s0 |} in
  match token1 inputs with
  | None =>
      (db, {| sdk := assigned; statuses := []; heartbeat_started := false;
              ended := Rejected |})
  | Some t1 =>
      let pid :=
        match verifyJwt P version (projectId assigned) (now1 inputs) t1 with
        | Some payload => of_option (aud payload)
        | None => Undefined
        end in
      match pid with
      | Str project =>
          if negb (truthy_val pid)
          then (db, {| sdk := {| projectId := pid; state := state s0;
                                 storage := storage s0 |};
                       statuses := []; heartbeat_started := false; ended := Resolved |})
          else
            let s1 := {| projectId := pid; state := state s0; storage := storage s0 |} in
            let activation1 := kept_activation (storage s0) !! project in
            let license1 :=
              match kept_license (storage s0) !! project with
              | Some token => verifyJwt P version pid (now2 inputs) token
              | None => license (state s0)
              end in
            let s2 := with_state s1 license1 activation1 in
            (* if (!state.license) *)
            let requested : option (option Sdk) :=
              match license1 with
              | Some _ => Some (Some s2)
              | None =>
                  match token2 inputs with
                  | None => None
                  | Some t2 =>
                      match verifyJwt P version pid (now3 inputs) t2 with
                      | Some payload =>
                          Some (Some
                            {| projectId := pid;
                               state := {| license := Some payload;
                                           activation := activation1 |};
                               storage :=
                                 {| kept_license :=
                                      <[project := t2]> (kept_license (storage s0));
                                    kept_activation := kept_activation (storage s0) |} |})
                      | None => Some None
                      end
                  end
              end in
            match requested with
            | None =>
                (db, {| sdk := s2; statuses := []; heartbeat_started := false;
                        ended := Rejected |})
            | Some None =>
                (db, {| sdk := s2; statuses := [updateStatus s2];
                        heartbeat_started := false; ended := Resolved |})
            | Some (Some s3) =>
                (* if (!state.activation) *)
                let activated : DB * option (option Sdk) :=
                  match activation (state s3) with
                  | Some _ => (db, Some (Some s3))
                  | None =>
                      match kept_license (storage s3) !! project with
                      | None => (db, None)
                      | Some token =>
                          let '(db', (success, activation', storage')) :=
                            activate P version project (draws inputs) token
                              (activation (state s3)) (storage s3) db in
                          let s4 :=
                            {| projectId := pid;
                               state := {| license := license (state s3);
                                           activation := activation' |};
                               storage := storage' |} in
                          (db', Some (if success then Some s4 else None))
                      end
                  end in
                match activated with
                | (db', None) =>
                    (db', {| sdk := s3; statuses := []; heartbeat_started := false;
                             ended := Rejected |})
                | (db', Some None) =>
                    (db', {| sdk := s3; statuses := [updateStatus s3];
                             heartbeat_started := false; ended := Resolved |})
                | (db', Some (Some s4)) =>
                    (* startHeartbeat(): the immediate beat, which reports the
                       status as [ensure] then does; the later beats of the
                       timer are not part of this call *)
                    let db'' :=
                      match activation (state s4) with
                      | Some a =>
                          (heartbeat P (now_beat inputs) (act_activationCert a)
                             (userIdHash inputs) db').1
                      | None => db'
                      end in
                    (db'', {| sdk := s4; statuses := [updateStatus s4; updateStatus s4];
                              heartbeat_started := true; ended := Resolved |})
                end
            end
      | _ =>
          (db, {| sdk := {| projectId := pid; state := state s0; storage := storage s0 |};
                  statuses := []; heartbeat_started := false; ended := Resolved |})
      end
  end.

(** [quota.meter(bucket, cost)]: what the promise gives. *)
Inductive Metered :=
| MeterReturned (body : Body)      (* resolves with the response body *)
| NotActivated                     (* throws Error('SDK not activated') *)
| LimitThrown (errorData : Body)   (* throws { limit: errorData } *)
| NoJson.                          (* [res.json()] rejects: no JSON body *)

Definition quota_meter (P : Platform) (tza t today now : Z) (activation0 : option Activated)
    (bucket : string) (cost : Z) (db : DB) : DB * Metered :=
  match activation0 with
  | None => (db, NotActivated)
  | Some a =>
      let '(db', res) :=
        meter P tza t today now (act_activationCert a) bucket cost db in
      match res with
      | Ok r => (db', if ok res then MeterReturned (body r) else LimitThrown (body r))
      | Throw _ => (db', NoJson)
      end
  end.

(** [quota.wrap(name, fn, { bucket, cost })(...args)]: [Some] result of [fn]
    when it was called. *)
Definition quota_wrap {A B} (P : Platform) (tza t today now : Z)
    (activation0 : option Activated) (fn : A → B) (bucket : option string)
    (cost : option Z) (args : A) (db : DB) : DB * option B :=
  let '(db', metered) :=
    quota_meter P tza t today now activation0 (default "general" bucket) (default 1 cost) db in
  match metered with
  | MeterReturned _ => (db', Some (fn args))
  | _ => (db', None)
  end.

End SDK.

(** ** Vocabulary of the further properties *)

(** A text without a dot: one segment of a compact token. *)
Definition dotless (s : string) : Prop := "."%char ∉ String.list_ascii_of_string s.
#[global] Instance dotless_dec s : Decision (dotless s).
Proof. unfold dotless; apply _. Defined.

(** What the Worker reads off an object it signed. *)
Definition claims_of (payload : Payload) : Decoded :=
  match payload with
  | ActivationPayload projectId jti deviceId level exp =>
      {| alg := None; aud := None; exp := Some exp; jti := Some jti;
         deviceId := Some deviceId |}
  | RedeemedPayload aud jti type exp =>
      {| alg := None; aud := Some aud; exp := Some exp; jti := Some jti;
         deviceId := None |}
  | IssuedPayload aud jti type agency_id seat_index exp =>
      {| alg := None; aud := Some aud; exp := Some exp; jti := Some jti;
         deviceId := None |}
  end.


(** A licence row keeps its terms: the row is there and is the row it was,
    or that row revoked. *)
Definition license_kept (j : string) (l : License) (db : DB) : Prop :=
  ∃ l', licenses db !! j = Some l' ∧ (l' = l ∨ l' = revoke_license l).

(** Redemptions of one coupon handled one after another, each with its
    clock readings and the licence id it draws. *)
Fixpoint redeem_calls (P : Platform) (draws : list (Z * Z * string))
    (couponCode projectId : option string) : M (list Response) :=
  match draws with
  | [] => ret []
  | (now, now', jti) :: rest =>
      let* r := coupons_redeem P now now' jti couponCode projectId in
      let* rs := redeem_calls P rest couponCode projectId in
      ret (r :: rs)
  end.

(** A coupon keeps its terms and its count does not go down. *)
Definition coupon_kept (code : string) (c : Coupon) (db : DB) : Prop :=
  ∃ c', coupon_codes db !! code = Some c' ∧
        c_project_id c' = c_project_id c ∧ c_plan c' = c_plan c ∧
        c_max_uses c' = c_max_uses c ∧ c_expires_at c' = c_expires_at c ∧
        c_current_uses c ≤ c_current_uses c'.

(** The licence row and the token of seat [i] of an issue, and the store
    with the rows of the seats [seats] inserted. *)
Definition seat_index_of (type : string) (i : Z) : option Z :=
  if bool_decide (type = "seat") then Some (i + 1) else None.

Definition issued_exp (draw : Z → string * Z) (durationDays i : Z) : Z :=
  (draw i).2 `div` 1000 + durationDays * 24 * 60 * 60.

Definition issued_license (draw : Z → string * Z) (project type : string)
    (agency : option string) (durationDays : Z) (quotas : option Quotas) (i : Z)
    : License :=
  {| l_project_id := project; l_type := type; l_agency_id := agency;
     l_seat_index := seat_index_of type i;
     l_quotas := match quotas with
                 | Some q => QuotasObject q
                 | None => QuotasJsonNull
                 end;
     l_exp := issued_exp draw durationDays i; l_revoked := false |}.

Definition issued_token (P : Platform) (draw : Z → string * Z) (project type : string)
    (agency : option string) (durationDays i : Z) : string :=
  signJwt P (IssuedPayload project (draw i).1 type agency (seat_index_of type i)
               (issued_exp draw durationDays i)).

Definition with_seats (draw : Z → string * Z) (project type : string)
    (agency : option string) (durationDays : Z) (quotas : option Quotas)
    (seats : list Z) (db : DB) : DB :=
  set_licenses
    (λ rows, foldl (λ rows i,
                      <[(draw i).1 :=
                          issued_license draw project type agency durationDays quotas i]>
                        rows)
               rows seats)
    db.

(** An activation row keeps its binding: the row is there with the licence,
    device, credential and key it had, and stays revoked once it is. *)
Definition activation_kept (k : string) (a : Activation) (db : DB) : Prop :=
  ∃ a', activations db !! k = Some a' ∧
        a_jti a' = a_jti a ∧ a_device_id a' = a_device_id a ∧
        a_credential_id a' = a_credential_id a ∧ a_public_key a' = a_public_key a ∧
        (a_revoked a = true → a_revoked a' = true).

(** The object [activate_finish] signs for a licence row, and the
    activation row it inserts. *)
Definition finish_payload (l : License) (j deviceId : string) (now' : Z) : Payload :=
  ActivationPayload (l_project_id l) j deviceId "webauthn"
    (now' `div` 1000 + 7 * 24 * 60 * 60).

Definition finish_row (j deviceId credential_id : string) (now : Z) : Activation :=
  {| a_jti := j; a_device_id := deviceId; a_credential_id := credential_id;
     a_public_key := "{}"; a_last_seen := Some (now `div` 1000); a_revoked := false |}.

(** The object of an activation certificate has no [aud] property: the
    platform reads none off a certificate the Worker signs. *)
Definition no_aud_in_certificates (P : Platform) : Prop :=
  ∀ projectId jti deviceId level exp d,
    payload_of P (signJwt P (ActivationPayload projectId jti deviceId level exp)) = Some d →
    aud d = None.

(** ** Further stores to evaluate on *)
Module Demo2.

(** A coupon of project [p1] with three uses, none taken, expiring at
    [2000000000]. *)
Definition three_uses : Coupon :=
  {| c_project_id := "p1";
     c_plan := {| durationDays := 30; plan_quotas := Demo.daily_100 |};
     c_max_uses := 3; c_current_uses := 0; c_expires_at := Some 2000000000 |}.

(** [Demo.coupon_store] after one redemption as licence [L-A]. *)
Definition redeemed_store : DB :=
  set_coupon_codes (insert "WELCOME" (bump_coupon Demo.coupon))
    (set_licenses
       (insert "L-A" (redeemed_license "p1" (c_plan Demo.coupon) 1796284800))
       Demo.empty_db).

(** A store with agency [acme], whose seat quota is 2, and the licence ids
    and clock readings an issue draws: [S0], [S1], … *)
Definition agency_store : DB :=
  set_agencies (insert "acme" {| ag_name := "Acme"; ag_seat_quota := 2 |}) Demo.empty_db.

Definition draw (i : Z) : string * Z := ("S" +:+ pretty i, Demo.clock + i).

(** Licence [L1] of a project whose id has a tilde. *)
Definition tilde_license : License :=
  {| l_project_id := "my~app"; l_type := "individual"; l_agency_id := None;
     l_seat_index := None; l_quotas := QuotasObject Demo.no_quotas; l_exp := 2000000000;
     l_revoked := false |}.

(** America/New_York around the end of daylight saving on 2026-11-01 at
    06:00 UTC: four hours behind UTC before it, five hours after.  A local
    time before 02:00 of that day is read with the earlier offset (the hour
    from 01:00 comes twice, and is read as its first pass). *)
Definition new_york (t : Z) (isUTC : bool) : Z :=
  if isUTC
  then if bool_decide (t < 1793512800000) then -14400000 else -18000000
  else if bool_decide (t < 1793498400000) then -14400000 else -18000000.

(** [{ "daily": 5 }] *)
Definition daily_5 : Quotas := {| q_daily := Some 5; q_byCategory := None |}.

(** Licence [L1] with a daily limit of 5 and usage on record: in bucket
    [ai], 3 and 1 on the day of [Demo.clock] and 9 the day before; in
    bucket [general], 7 on the day of [Demo.clock]. *)
Definition used_rows : list Usage :=
  [usage_row (Demo.clock - 86400000) "L1" "D1" "ai" 9;
   usage_row Demo.clock "L1" "D1" "ai" 3;
   usage_row Demo.clock "L1" "D1" "general" 7;
   usage_row (Demo.clock + 1000) "L1" "D1" "ai" 1].

Definition used_store : DB := set_usage (λ _, used_rows) (Demo.store daily_5).

(** [agency_store] with seat [S0] of [acme] issued for 30 days, bound to
    device [D1], and one call metered at [Demo.clock]. *)
Definition seat_store : DB :=
  set_usage (λ rows, rows ++ [usage_row Demo.clock "S0" "D1" "general" 1])
    (set_activations (insert "A1" (finish_row "S0" "D1" "cred-1" Demo.clock))
       (with_seats draw "p1" "seat" (Some "acme") 30 None [0] agency_store)).

(** 2033-05-11T03:33:20Z: seven days before the expiry [2000000000] of
    the demo tokens. *)
Definition late_clock : Z := 1999395200000.

(** A browser with nothing kept, and what one activation draws. *)
Definition empty_storage : SDK.Storage :=
  {| SDK.kept_license := ∅; SDK.kept_activation := ∅ |}.

Definition activate_draws : SDK.ActivateDraws :=
  {| SDK.ad_now_start := Demo.clock; SDK.ad_challenge := "c29tZSBjaGFsbGVuZ2U";
     SDK.ad_activationId := "A1"; SDK.ad_hostname := "baas.example";
     SDK.ad_deviceInfo := "{}"; SDK.ad_credential := Some "cred-1";
     SDK.ad_deviceId := "D1"; SDK.ad_now_finish := Demo.clock + 2000;
     SDK.ad_now_finish' := Demo.clock + 2000; SDK.ad_now_verify := Demo.clock + 3000 |}.

(** The SDK as loaded, and an [ensure] whose [opts] name the project. *)
Definition fresh_sdk : SDK.Sdk :=
  {| SDK.projectId := SDK.Null;
     SDK.state := {| SDK.license := None; SDK.activation := None |};
     SDK.storage := empty_storage |}.

Definition ensure_inputs : SDK.Ensure :=
  {| SDK.opts_projectId := Some (SDK.Str "p1");
     SDK.token1 := Some Demo.license_token; SDK.token2 := Some Demo.license_token;
     SDK.now1 := Demo.clock - 3000; SDK.now2 := Demo.clock - 2000;
     SDK.now3 := Demo.clock - 1000; SDK.draws := activate_draws;
     SDK.now_beat := Demo.clock + 4000; SDK.userIdHash := None |}.

End Demo2.

(** * Properties *)

(** ** The calendar *)
Module JSDateFacts.
Import JSDate.

(** [YearFromDay] is the year ECMA-262 defines: the largest whose first day
    is not after [d]. *)
Lemma YearFromDay_spec d :
  DayFromYear (YearFromDay d) ≤ d < DayFromYear (YearFromDay d + 1).
Proof.
  unfold YearFromDay; cbv zeta.
  set (y := 1970 + (d * 400) `div` 146097).
  assert (Hy : 146097 * (y - 1970) ≤ d * 400 < 146097 * (y - 1970) + 146097)
    by (unfold y; Z.div_mod_to_equations; lia).
  clearbody y.
  repeat case_bool_decide; unfold DayFromYear in *;
    Z.div_mod_to_equations; lia.
Qed.

Lemma DayFromYear_succ y : DayFromYear (y + 1) = DayFromYear y + DaysInYear y.
Proof.
  unfold DayFromYear, DaysInYear.
  repeat case_bool_decide; Z.div_mod_to_equations; lia.
Qed.

Lemma DayWithinYear_range t :
  0 ≤ DayWithinYear t < 365 + InLeapYear t.
Proof.
  unfold DayWithinYear, InLeapYear, YearFromTime, LeapOfYear.
  pose proof (YearFromDay_spec (Day t)) as H.
  rewrite DayFromYear_succ in H.
  case_bool_decide as Hl; [lia|].
  assert (DaysInYear (YearFromDay (Day t)) = 365); [|lia].
  revert Hl; unfold DaysInYear; repeat case_bool_decide; lia.
Qed.

Lemma MonthFromTime_range t : 0 ≤ MonthFromTime t ≤ 11.
Proof. unfold MonthFromTime; cbv zeta; repeat case_bool_decide; lia. Qed.

(** The date within the month is the day within the year less the start of
    the month. *)
Lemma DateFromTime_MonthStart t :
  DateFromTime t = DayWithinYear t - MonthStart (MonthFromTime t) (InLeapYear t) + 1.
Proof.
  unfold DateFromTime, MonthFromTime; cbv zeta.
  repeat case_bool_decide; simpl; lia.
Qed.

Lemma DateFromTime_range t : 1 ≤ DateFromTime t ≤ 31.
Proof.
  pose proof (DayWithinYear_range t) as Hd.
  assert (0 ≤ InLeapYear t ≤ 1)
    by (unfold InLeapYear, LeapOfYear; case_bool_decide; lia).
  unfold DateFromTime, MonthFromTime; cbv zeta.
  repeat case_bool_decide; lia.
Qed.

(** The constructor applied to the accessors of [t], with the date moved on
    by [k], is the day of [t] moved on by [k]: dates past the end of the
    month carry over. *)
Lemma MakeDay_accessors t k :
  MakeDay (YearFromTime t) (MonthFromTime t) (DateFromTime t + k) = Day t + k.
Proof.
  pose proof (MonthFromTime_range t) as Hm.
  unfold MakeDay; cbv zeta.
  rewrite Z.div_small, Z.mod_small, Z.add_0_r by lia.
  rewrite DateFromTime_MonthStart.
  unfold DayWithinYear, InLeapYear. lia.
Qed.

(** Civil dates of a few time values: leap days, a century that is no leap
    year, a day before the epoch. *)
Example civil_dates :
  (YearFromTime 1709164800000, MonthFromTime 1709164800000, DateFromTime 1709164800000)
    = (2024, 1, 29) ∧
  (YearFromTime 951782400000, MonthFromTime 951782400000, DateFromTime 951782400000)
    = (2000, 1, 29) ∧
  (YearFromTime (-2203891200000), MonthFromTime (-2203891200000),
   DateFromTime (-2203891200000)) = (1900, 2, 1) ∧
  (YearFromTime 4133894400000, MonthFromTime 4133894400000, DateFromTime 4133894400000)
    = (2100, 11, 31) ∧
  (YearFromTime (-1), MonthFromTime (-1), DateFromTime (-1)) = (1969, 11, 31) ∧
  DateOfYMD 0 2024 1 30 = Some 1709251200000 ∧
  DateOfYMD 19800000 2026 10 4 = Some (1793750400000 - 19800000).
Proof. repeat split; vm_compute; reflexivity. Qed.

End JSDateFacts.

(** ** Running a handler *)
Section Running.
Context {A B : Type}.

Lemma bind_ok (m : M A) (k : A → M B) db db' a :
  m db = (db', Ok a) → bind m k db = k a db'.
Proof. unfold bind; intros ->; reflexivity. Qed.

End Running.

(** ** What every handler keeps

    The handlers write to the store through eight statements only; what
    these keep, every handler keeps, and so does every run of requests. *)
Section Preserving.
Context (P : Platform) (I : DB → Prop).

Lemma preserves_ret {A} (a : A) : preserves I (ret a).
Proof. intros db HI. exact HI. Qed.

Lemma preserves_throw {A} e : preserves I (@throw A e).
Proof. intros db HI. exact HI. Qed.

Lemma preserves_bind {A B} (m : M A) (k : A → M B) :
  preserves I m → (∀ a, preserves I (k a)) → preserves I (bind m k).
Proof.
  intros Hm Hk db HI. unfold bind.
  specialize (Hm db HI). destruct (m db) as [db' [a|e]]; cbn in *; [|exact Hm].
  by apply Hk.
Qed.

Lemma preserves_read {A} (m : M A) : (∀ db, (m db).1 = db) → preserves I m.
Proof. intros Hread db HI. by rewrite Hread. Qed.

Hypothesis keeps_insert_session : ∀ id s, preserves I (insert_session id s).
Hypothesis keeps_insert_activation : ∀ id a, preserves I (insert_activation id a).
Hypothesis keeps_update_last_seen : ∀ ts j d, preserves I (update_last_seen ts j d).
Hypothesis keeps_insert_or_ignore_user : ∀ j d h, preserves I (insert_or_ignore_user j d h).
Hypothesis keeps_insert_usage : ∀ u, preserves I (insert_usage u).
Hypothesis keeps_insert_license : ∀ j l, preserves I (insert_license j l).
Hypothesis keeps_increment_coupon : ∀ code, preserves I (increment_coupon code).
Hypothesis keeps_insert_agency : ∀ id a, preserves I (insert_agency id a).
Hypothesis keeps_insert_coupon : ∀ code c, preserves I (insert_coupon code c).
Hypothesis keeps_batch_revoke : ∀ j, preserves I (batch_revoke j).

Ltac keep :=
  repeat first
    [ apply preserves_ret
    | apply preserves_throw
    | apply keeps_insert_session
    | apply keeps_insert_activation
    | apply keeps_update_last_seen
    | apply keeps_insert_or_ignore_user
    | apply keeps_insert_usage
    | apply keeps_insert_license
        | apply keeps_increment_coupon
    | apply keeps_insert_agency
    | apply keeps_insert_coupon
    | apply keeps_batch_revoke
    | apply preserves_read; reflexivity
    | apply preserves_bind; [|intros ?]
    | case_match ].

Lemma keeps_decode_payload token : preserves I (decode_payload P token).
Proof. unfold decode_payload. keep. Qed.

Lemma keeps_bound {A} (v : option A) : preserves I (bound v).
Proof. unfold bound. keep. Qed.

Lemma keeps_quota_check tza today limit j b cost :
  preserves I (quota_check tza today limit j b cost).
Proof. unfold quota_check, todaysUsage. keep. Qed.

Lemma keeps_redeem_select now couponCode projectId :
  preserves I (redeem_select now couponCode projectId).
Proof. unfold redeem_select. keep. Qed.

Lemma keeps_issue_seats draw projectId type agencyId durationDays quotas n :
  ∀ i issuedTokens,
    preserves I (issue_seats P draw projectId type agencyId durationDays quotas n i
                   issuedTokens).
Proof.
  induction n as [|n IH]; intros i issuedTokens; cbn [issue_seats]; [keep|].
  destruct (draw i) as [j now].
  repeat first [apply IH | apply keeps_bound | keep].
Qed.

Theorem handle_preserves req : preserves I (handle P req).
Proof.
  destruct req; cbn [handle].
  - unfold activate_start.
    apply preserves_bind; [apply keeps_decode_payload|intros ?].
    repeat first [apply keeps_bound | keep].
  - unfold activate_finish. repeat first [apply keeps_bound | keep].
  - unfold heartbeat.
    apply preserves_bind; [apply keeps_decode_payload|intros ?].
    repeat first [apply keeps_bound | keep].
  - unfold meter.
    apply preserves_bind; [apply keeps_decode_payload|intros ?].
    repeat first [apply keeps_bound | apply keeps_quota_check | keep].
  - unfold coupons_redeem.
    apply preserves_bind; [apply keeps_redeem_select|intros ?].
        keep.
  - unfold revocations. keep.
  - unfold agencies_create. repeat first [apply keeps_bound | keep].
  - unfold licenses_issue. repeat first [apply keeps_issue_seats | keep].
  - unfold coupons_create. keep.
  - unfold licenses_revoke. repeat first [apply keeps_bound | keep].
Qed.

Theorem after_preserves reqs db : I db → I (after P reqs db).
Proof.
  revert db. induction reqs as [|req reqs IH]; intros db HI; [exact HI|].
  cbn [after foldl]. apply IH. by apply handle_preserves.
Qed.

End Preserving.

(** *** Instances *)
Section Kept.
Context (P : Platform).

(** Unfolds a statement and runs its branches. *)
Ltac statement :=
  intros db0 HI; unfold_M; cbn [fst]; repeat case_match; simplify_eq; cbn [fst];
  try done.

(** A licence once revoked stays revoked: no handler clears the flag, and
    no insert can replace the row. *)
Lemma revoked_stays j reqs db : revoked_in j db → revoked_in j (after P reqs db).
Proof.
  apply (after_preserves P (revoked_in j)).
  - intros id s. unfold insert_session. statement.
  - intros id a. unfold insert_activation. statement.
  - intros ts j' d. unfold update_last_seen. statement.
  - intros j' d h. unfold insert_or_ignore_user. statement.
  - intros u. unfold insert_usage. statement.
  - intros j' l'. unfold insert_license. statement.
    all: destruct HI as (l & Hl & Hr); exists l; split; [|done].
    all: cbn; rewrite lookup_insert_ne; [done|]; intros ->.
    all: match goal with
         | H : bool_decide (is_Some _) = false |- _ =>
             rewrite bool_decide_eq_false in H; apply H; eauto
         end.
  - intros code. unfold increment_coupon. statement.
  - intros id a. unfold insert_agency. statement.
  - intros code c. unfold insert_coupon. statement.
  - intros j'. unfold batch_revoke. statement.
    destruct HI as (l & Hl & Hr).
    destruct (decide (j' = j)) as [->|Hne].
    + exists (revoke_license l). cbn. rewrite lookup_alter_eq, Hl. done.
    + exists l. cbn. rewrite lookup_alter_ne by done. done.
Qed.

(** An activation row is never deleted. *)
Lemma activation_stays k reqs db :
  is_Some (activations db !! k) → is_Some (activations (after P reqs db) !! k).
Proof.
  apply (after_preserves P (λ db', is_Some (activations db' !! k))).
  - intros id s. unfold insert_session. statement.
  - intros id a. unfold insert_activation. statement.
    cbn. destruct (decide (id = k)) as [->|Hne].
    + rewrite lookup_insert_eq. eauto.
    + rewrite lookup_insert_ne by done. done.
  - intros ts j' d. unfold update_last_seen. statement.
    cbn. rewrite lookup_fmap. by apply fmap_is_Some.
  - intros j' d h. unfold insert_or_ignore_user. statement.
  - intros u. unfold insert_usage. statement.
  - intros j' l'. unfold insert_license. statement.
  - intros code. unfold increment_coupon. statement.
  - intros id a. unfold insert_agency. statement.
  - intros code c. unfold insert_coupon. statement.
  - intros j'. unfold batch_revoke. statement.
    cbn. rewrite lookup_fmap. by apply fmap_is_Some.
Qed.

(** An activation session is never deleted. *)
Lemma session_stays k reqs db :
  is_Some (activation_sessions db !! k) →
  is_Some (activation_sessions (after P reqs db) !! k).
Proof.
  apply (after_preserves P (λ db', is_Some (activation_sessions db' !! k))).
  - intros id s. unfold insert_session. statement.
    cbn. destruct (decide (id = k)) as [->|Hne].
    + rewrite lookup_insert_eq. eauto.
    + rewrite lookup_insert_ne by done. done.
  - intros id a. unfold insert_activation. statement.
  - intros ts j' d. unfold update_last_seen. statement.
  - intros j' d h. unfold insert_or_ignore_user. statement.
  - intros u. unfold insert_usage. statement.
  - intros j' l'. unfold insert_license. statement.
  - intros code. unfold increment_coupon. statement.
  - intros id a. unfold insert_agency. statement.
  - intros code c. unfold insert_coupon. statement.
  - intros j'. unfold batch_revoke. statement.
Qed.

(** X1.  Usage is append-only: whatever requests are handled, the usage
    rows recorded before are still there, in their order, and only new rows
    follow them. *)
Theorem usage_grows reqs db : ∃ rows, usage (after P reqs db) = usage db ++ rows.
Proof.
  apply (after_preserves P (λ db', ∃ rows, usage db' = usage db ++ rows)).
  - intros id s. unfold insert_session. statement.
  - intros id a. unfold insert_activation. statement.
  - intros ts j' d. unfold update_last_seen. statement.
  - intros j' d h. unfold insert_or_ignore_user. statement.
  - intros u. unfold insert_usage. statement.
    destruct HI as [rows Hrows]. exists (rows ++ [u]). cbn.
    rewrite Hrows, app_assoc. reflexivity.
  - intros j' l'. unfold insert_license. statement.
  - intros code. unfold increment_coupon. statement.
  - intros id a. unfold insert_agency. statement.
  - intros code c. unfold insert_coupon. statement.
  - intros j'. unfold batch_revoke. statement.
  - exists []. by rewrite app_nil_r.
Qed.

End Kept.

(** ** The usage window *)
Section Window.
Implicit Types (rows : list Usage) (u : Usage).

Lemma sum_cost_app rows rows' :
  sum_cost (rows ++ rows') = sum_cost rows + sum_cost rows'.
Proof. induction rows as [|u rows IH]; simpl; [|rewrite IH]; lia. Qed.

Lemma window_cost_insert j k b u db :
  window_cost j k b (set_usage (λ rows, rows ++ [u]) db) =
    window_cost j k b db + (if decide (in_window j k b u) then u_cost u else 0).
Proof.
  unfold window_cost; simpl.
  rewrite filter_app, sum_cost_app. f_equal.
  rewrite filter_cons, filter_nil. case_decide; simpl; lia.
Qed.

(** [results[0]?.total || 0] is the cost recorded in the window. *)
Lemma todaysUsage_eq j k b db :
  todaysUsage j k b db = (db, Ok (window_cost j k b db)).
Proof.
  unfold todaysUsage, select_sum_cost, window_cost; unfold_M.
  case_bool_decide as Hrows; simpl.
  - rewrite Hrows; reflexivity.
  - unfold or_else, truthy. case_bool_decide as Hz; simpl; [reflexivity|].
    f_equal. f_equal. lia.
Qed.
End Window.

(** ** The next local midnight *)
Section Midnight.
Import JSDate JSDateFacts.

Lemma year_after_epoch t : 0 ≤ t → 1970 ≤ YearFromTime t.
Proof.
  intros Ht. unfold YearFromTime.
  assert (0 ≤ Day t) by (unfold Day, msPerDay; Z.div_mod_to_equations; lia).
  pose proof (YearFromDay_spec (Day t)) as [_ Hlt].
  destruct (decide (1970 ≤ YearFromDay (Day t))) as [|Hn]; [done|exfalso].
  revert Hlt; unfold DayFromYear. Z.div_mod_to_equations; lia.
Qed.

Lemma next_local_midnight_eq tza today :
  ¬ (0 ≤ getFullYear tza today ≤ 99) →
  Z.abs ((Day (today + tza) + 1) * msPerDay - tza) ≤ 8640000000000000 →
  next_local_midnight tza today = Some ((Day (today + tza) + 1) * msPerDay - tza).
Proof.
  intros Hy Hclip.
  unfold next_local_midnight, DateOfYMD; cbv zeta.
  rewrite bool_decide_eq_false_2 by done.
  unfold getFullYear, getMonth, getDate, LocalTime.
  rewrite MakeDay_accessors.
  unfold TimeClip, UTC, MakeDate. rewrite Z.add_0_r.
  rewrite bool_decide_eq_true_2 by done. reflexivity.
Qed.

(** On a runtime whose local time zone is UTC the reset time is the start
    of the next UTC day. *)
Lemma next_utc_midnight today :
  0 ≤ today → today + msPerDay ≤ 8640000000000000 →
  next_local_midnight 0 today = Some ((today `div` 86400000 + 1) * 86400000).
Proof.
  intros H0 Hmax.
  rewrite next_local_midnight_eq.
  - rewrite Z.add_0_r, Z.sub_0_r. reflexivity.
  - pose proof (year_after_epoch today H0).
    unfold getFullYear, LocalTime. rewrite Z.add_0_r. lia.
  - rewrite Z.add_0_r, Z.sub_0_r.
    unfold Day, msPerDay in *. Z.div_mod_to_equations; lia.
Qed.
End Midnight.

(** ** Metering *)
Section Metering.
Context (P : Platform).
Implicit Types (db : DB) (l : License).

Lemma select_live_license_live db j l :
  live_license db j l → select_live_license j db = (db, Ok (Some l)).
Proof.
  intros [Hl Hr]. unfold select_live_license; unfold_M. rewrite Hl, Hr. reflexivity.
Qed.

Lemma quota_check_cases tza today limit j b cost db :
  quota_check tza today limit j b cost db =
    match limit with
    | Some L =>
        if truthy limit && bool_decide (window_cost j (today `div` 86400000) b db + cost > L)
        then match next_local_midnight tza today with
             | Some resetAt =>
                 (db, Ok (Some (jsonResponse
                    (Denied b (L - window_cost j (today `div` 86400000) b db) resetAt) 429)))
             | None => (db, Throw RangeError)
             end
        else (db, Ok None)
    | None => (db, Ok None)
    end.
Proof.
  unfold quota_check. destruct limit as [L|]; [|reflexivity].
  destruct (truthy (Some L)); [|reflexivity]. cbv zeta.
  rewrite (bind_ok _ _ _ _ _ (todaysUsage_eq _ _ _ _)).
  case_bool_decide; [|reflexivity].
  destruct (next_local_midnight tza today); reflexivity.
Qed.

(** The request passes the licence tests and the quota block lets it
    through: one row is appended. *)
Lemma meter_passes tza t today now cert b cost db d j dev l q :
  payload_of P cert = Some d → jti d = Some j → deviceId d = Some dev →
  live_license db j l → ¬ (l_exp l * 1000 < t) → parse_quotas l = Some q →
  quota_check tza today (dailyLimit q b) j b cost db = (db, Ok None) →
  meter P tza t today now cert b cost db =
    (set_usage (λ rows, rows ++ [usage_row now j dev b cost]) db,
     Ok (jsonResponse Allowed 200)).
Proof.
  intros Hd Hj Hdev Hl Hexp Hpq Hq.
  unfold meter, decode_payload. rewrite Hd.
  unfold bind at 1, ret at 1. rewrite Hj. unfold bind at 1, bound at 1, ret at 1.
  rewrite (bind_ok _ _ _ _ _ (select_live_license_live _ _ _ Hl)).
  rewrite bool_decide_eq_false_2 by done. rewrite Hpq.
  rewrite (bind_ok _ _ _ _ _ Hq). rewrite Hdev.
  unfold insert_usage; unfold_M. simpl.
  destruct Hl as [Hl _]. rewrite Hl.
  rewrite bool_decide_eq_false_2 by done. reflexivity.
Qed.

(** The quota block returns: nothing is written. *)
Lemma meter_stopped tza t today now cert b cost db d j l q r :
  payload_of P cert = Some d → jti d = Some j →
  live_license db j l → ¬ (l_exp l * 1000 < t) → parse_quotas l = Some q →
  quota_check tza today (dailyLimit q b) j b cost db = (db, Ok (Some r)) →
  meter P tza t today now cert b cost db = (db, Ok r).
Proof.
  intros Hd Hj Hl Hexp Hpq Hq.
  unfold meter, decode_payload. rewrite Hd.
  unfold bind at 1, ret at 1. rewrite Hj. unfold bind at 1, bound at 1, ret at 1.
  rewrite (bind_ok _ _ _ _ _ (select_live_license_live _ _ _ Hl)).
  rewrite bool_decide_eq_false_2 by done. rewrite Hpq.
  rewrite (bind_ok _ _ _ _ _ Hq). reflexivity.
Qed.

(** Every way [meter] can respond. *)
Lemma meter_inv tza t today now cert b cost db db' r :
  meter P tza t today now cert b cost db = (db', Ok r) →
  (status r = 403 ∧ db' = db) ∨
  ∃ d j l q,
    payload_of P cert = Some d ∧ jti d = Some j ∧ live_license db j l ∧
    ¬ (l_exp l * 1000 < t) ∧ parse_quotas l = Some q ∧
    ((quota_check tza today (dailyLimit q b) j b cost db = (db, Ok (Some r))
      ∧ db' = db) ∨
     (∃ dev, deviceId d = Some dev ∧
        quota_check tza today (dailyLimit q b) j b cost db = (db, Ok None) ∧
        db' = set_usage (λ rows, rows ++ [usage_row now j dev b cost]) db ∧
        r = jsonResponse Allowed 200)).
Proof.
  unfold meter, decode_payload.
  destruct (payload_of P cert) as [d|] eqn:Hd; [|discriminate].
  unfold bind at 1, ret at 1.
  destruct (jti d) as [j|] eqn:Hj; [|discriminate].
  unfold bind at 1, bound at 1, ret at 1.
  unfold bind at 1, select_live_license at 1. unfold_M.
  destruct (licenses db !! j) as [l|] eqn:Hl;
    [|intros [= <- <-]; left; done].
  destruct (l_revoked l) eqn:Hr; [intros [= <- <-]; left; done|].
  case_bool_decide as Hexp; [intros [= <- <-]; left; done|].
  destruct (parse_quotas l) as [q|] eqn:Hpq; [|discriminate].
  intros H. right. exists d, j, l, q.
  split_and!; try done.
  rewrite quota_check_cases in H |- *.
  destruct (dailyLimit q b) as [L|] eqn:HL.
  - destruct (truthy (Some L) && _) eqn:Hdeny.
    + destruct (next_local_midnight tza today); [|discriminate].
      left. by simplify_eq.
    + right. destruct (deviceId d) as [dev|]; [|discriminate].
      exists dev. unfold insert_usage in H; unfold_M. simpl in H.
      rewrite Hl in H. rewrite bool_decide_eq_false_2 in H by done.
      by simplify_eq.
  - right. destruct (deviceId d) as [dev|]; [|discriminate].
    exists dev. unfold insert_usage in H; unfold_M. simpl in H.
    rewrite Hl in H. rewrite bool_decide_eq_false_2 in H by done.
    by simplify_eq.
Qed.

End Metering.

Lemma checked_on_range (Q : Z → Prop) `{!∀ y, Decision (Q y)} (lo n : Z) :
  forallb (λ y, bool_decide (Q y)) (seqZ lo n) = true → ∀ y, lo ≤ y < lo + n → Q y.
Proof.
  intros Hall y Hy. rewrite forallb_forall in Hall.
  eapply bool_decide_eq_true_1, Hall.
  apply list_elem_of_In, elem_of_seqZ. lia.
Qed.

Lemma pretty_year y : 1000 ≤ y < 1000 + 9000 → pretty y = year_digits y.
Proof.
  revert y. apply (checked_on_range (λ y, pretty y = year_digits y)).
  vm_compute; reflexivity.
Qed.

Lemma padded_month m : 1 ≤ m < 1 + 12 → padStart 2 "0" (pretty m) = month_digits m.
Proof.
  revert m. apply (checked_on_range (λ m, padStart 2 "0" (pretty m) = month_digits m)).
  vm_compute; reflexivity.
Qed.

Lemma monthKey_digits year month :
  1000 ≤ year ≤ 9999 → 1 ≤ month ≤ 12 →
  pretty year +:+ padStart 2 "0" (pretty month) = YYYYMM year month.
Proof.
  intros Hy Hm.
  rewrite pretty_year, padded_month by lia. reflexivity.
Qed.

Lemma monthKey_YYYYMM now :
  1000 ≤ JSDate.getUTCFullYear now ≤ 9999 →
  monthKey now = YYYYMM (JSDate.getUTCFullYear now) (JSDate.getUTCMonth now + 1).
Proof.
  intros Hy. unfold monthKey. apply monthKey_digits; [done|].
  pose proof (JSDateFacts.MonthFromTime_range now). unfold JSDate.getUTCMonth. lia.
Qed.

(** The demo segments are the base64url texts of the JSON they stand for. *)
Example license_segment_text :
  Demo.license_segment =
    "eyJhdWQiOiJwMSIsImp0aSI6IkwxIiwidHlwZSI6ImluZGl2aWR1YWwiLCJleHAiOjIwMDAwMDAwMDB9".
Proof. vm_compute. reflexivity. Qed.

Example cert_segment_text :
  Demo.cert_segment =
    "eyJ0eXAiOiJhY3RpdmF0aW9uIiwicHJvamVjdElkIjoicDEiLCJqdGkiOiJMMSIsImRldmljZUlkIjoiRDEiLCJsZXZlbCI6IndlYmF1dGhuIiwiZXhwIjoyMDAwMDAwMDAwfQ".
Proof. vm_compute. reflexivity. Qed.

(** ** Claims on metering *)

(** C7.  Whenever [meter] answers 429, the licence of the certificate has a
    non-zero resolved daily limit [L], the cost recorded in the day window of
    [today] plus the requested cost exceeds [L], the response reports
    [remaining = L - cumulative] and [resetAt] = the start of the next UTC
    day, and the store is unchanged (no usage row is appended).  The runtime's
    local time zone is UTC, as on the Workers runtime, and [today] is a time
    value from the epoch on whose next day is still a valid date. *)
Theorem meter_denial_report P tza t today now cert bucket cost db db' r :
  tza = 0 → 0 ≤ today → today + 86400000 ≤ 8640000000000000 →
  meter P tza t today now cert bucket cost db = (db', Ok r) →
  status r = 429 →
  ∃ d j l q L,
    payload_of P cert = Some d ∧ jti d = Some j ∧ live_license db j l ∧
    parse_quotas l = Some q ∧ dailyLimit q bucket = Some L ∧ L ≠ 0 ∧
    window_cost j (today `div` 86400000) bucket db + cost > L ∧
    body r = Denied bucket (L - window_cost j (today `div` 86400000) bucket db)
               ((today `div` 86400000 + 1) * 86400000) ∧
    usage db' = usage db ∧ db' = db.
Proof.
  intros -> H0 Hmax Hrun Hst.
  apply meter_inv in Hrun
    as [[Hst' _]|(d & j & l & q & Hd & Hj & Hl & Hexp & Hpq & Hq)]; [congruence|].
  destruct Hq as [[Hq ->]|(dev & _ & _ & _ & ->)]; [|discriminate].
  exists d, j, l, q.
  rewrite quota_check_cases in Hq.
  destruct (dailyLimit q bucket) as [L|]; [|discriminate].
  exists L.
  destruct (truthy (Some L)) eqn:HL; cbn [andb] in Hq; [|discriminate].
  case_bool_decide as Hover; [|discriminate].
  rewrite next_utc_midnight in Hq by done.
  injection Hq as <-. cbn [body jsonResponse].
  apply bool_decide_eq_true_1 in HL.
  split_and!; done.
Qed.

(** On a store with usage on record: the limit is 5, the window of the day
    in bucket [ai] holds 3 + 1 = 4 beside the rows of another day and of
    another bucket, and a call of cost 2 is denied with [remaining = 1]; the
    four rows are as they were. *)
Lemma meter_denial_report_witness :
  meter Demo.platform 0 (Demo.clock + 2000) (Demo.clock + 2000) (Demo.clock + 2000)
    Demo.cert "ai" 2 Demo2.used_store =
    (Demo2.used_store, Ok (jsonResponse (Denied "ai" 1 1793750400000) 429)) ∧
  window_cost "L1" ((Demo.clock + 2000) `div` 86400000) "ai" Demo2.used_store = 4 ∧
  usage Demo2.used_store = Demo2.used_rows ∧
  ∃ d j l q L,
    payload_of Demo.platform Demo.cert = Some d ∧ jti d = Some j ∧
    live_license Demo2.used_store j l ∧
    parse_quotas l = Some q ∧ dailyLimit q "ai" = Some L ∧ L ≠ 0 ∧
    window_cost j ((Demo.clock + 2000) `div` 86400000) "ai" Demo2.used_store + 2 > L ∧
    body (jsonResponse (Denied "ai" 1 1793750400000) 429) =
      Denied "ai"
        (L - window_cost j ((Demo.clock + 2000) `div` 86400000) "ai" Demo2.used_store)
        (((Demo.clock + 2000) `div` 86400000 + 1) * 86400000) ∧
    usage Demo2.used_store = usage Demo2.used_store ∧
    Demo2.used_store = Demo2.used_store.
Proof.
  split; [by vm_compute|]. split; [by vm_compute|]. split; [reflexivity|].
  apply (meter_denial_report Demo.platform 0 (Demo.clock + 2000) (Demo.clock + 2000)
           (Demo.clock + 2000) Demo.cert "ai" 2 Demo2.used_store).
  - reflexivity.
  - vm_compute; discriminate.
  - vm_compute; discriminate.
  - vm_compute; reflexivity.
  - reflexivity.
Defined.

(** C8.  Every admitted [meter] call (answer 200) appends exactly one usage
    row and changes nothing else; the row carries the requested cost and the
    keys of the insertion-time clock reading [now]:
    [dayKey = floor(now / 86400000)], [minuteKey = floor(now / 60000)] and
    [monthKey] = the UTC year and month of [now] written ["YYYYMM"] (for a
    four-digit year). *)
Theorem admitted_call_appends_one_row P tza t today now cert bucket cost db db' r :
  meter P tza t today now cert bucket cost db = (db', Ok r) →
  status r = 200 →
  ∃ d j dev row,
    payload_of P cert = Some d ∧ jti d = Some j ∧ deviceId d = Some dev ∧
    db' = set_usage (λ rows, rows ++ [row]) db ∧
    usage db' = usage db ++ [row] ∧
    u_jti row = j ∧ u_device_id row = dev ∧ u_bucket row = bucket ∧
    u_cost row = cost ∧
    u_day_key row = now `div` 86400000 ∧
    u_minute_key row = now `div` 60000 ∧
    (1000 ≤ JSDate.getUTCFullYear now ≤ 9999 →
     u_month_key row = YYYYMM (JSDate.getUTCFullYear now) (JSDate.getUTCMonth now + 1)).
Proof.
  intros Hrun Hst.
  apply meter_inv in Hrun
    as [[Hst' _]|(d & j & l & q & Hd & Hj & Hl & Hexp & Hpq & Hq)]; [congruence|].
  destruct Hq as [[Hq ->]|(dev & Hdev & _ & -> & ->)].
  - exfalso. rewrite quota_check_cases in Hq.
    destruct (dailyLimit q bucket) as [L|]; [|discriminate].
    destruct (_ && _); [|discriminate].
    destruct (next_local_midnight tza today); [|discriminate].
    injection Hq as <-. discriminate.
  - exists d, j, dev, (usage_row now j dev bucket cost).
    split_and!; try done.
    intros Hy. apply monthKey_YYYYMM, Hy.
Qed.

Lemma admitted_call_appends_one_row_witness :
  ∃ d j dev row,
    payload_of Demo.platform Demo.cert = Some d ∧ jti d = Some j ∧
    deviceId d = Some dev ∧
    set_usage (λ rows, rows ++ [usage_row Demo.clock "L1" "D1" "ai" 3])
      (Demo.store Demo.no_quotas)
      = set_usage (λ rows, rows ++ [row]) (Demo.store Demo.no_quotas) ∧
    usage (set_usage (λ rows, rows ++ [usage_row Demo.clock "L1" "D1" "ai" 3])
             (Demo.store Demo.no_quotas))
      = usage (Demo.store Demo.no_quotas) ++ [row] ∧
    u_jti row = j ∧ u_device_id row = dev ∧ u_bucket row = "ai" ∧
    u_cost row = 3 ∧
    u_day_key row = 20760 ∧
    u_minute_key row = 29894880 ∧
    (1000 ≤ JSDate.getUTCFullYear Demo.clock ≤ 9999 → u_month_key row = "202611").
Proof.
  apply (admitted_call_appends_one_row Demo.platform 0 Demo.clock Demo.clock Demo.clock
           Demo.cert "ai" 3 (Demo.store Demo.no_quotas) _
           (jsonResponse Allowed 200)).
  - vm_compute; reflexivity.
  - reflexivity.
Defined.

(** C9.  For a live, unexpired licence whose resolved daily limit for the
    bucket is 0 or absent, [meter] makes no quota test: whatever usage is
    already recorded and whatever the cost, the call is admitted and one
    usage row is appended. *)
Theorem falsy_limit_is_unlimited P tza t today now cert bucket cost db d j dev l q :
  payload_of P cert = Some d → jti d = Some j → deviceId d = Some dev →
  live_license db j l → ¬ (l_exp l * 1000 < t) → parse_quotas l = Some q →
  dailyLimit q bucket = Some 0 ∨ dailyLimit q bucket = None →
  quota_check tza today (dailyLimit q bucket) j bucket cost db = (db, Ok None) ∧
  meter P tza t today now cert bucket cost db =
    (set_usage (λ rows, rows ++ [usage_row now j dev bucket cost]) db,
     Ok (jsonResponse Allowed 200)).
Proof.
  intros Hd Hj Hdev Hl Hexp Hpq Hlimit.
  assert (Hq : quota_check tza today (dailyLimit q bucket) j bucket cost db
               = (db, Ok None)).
  { rewrite quota_check_cases. destruct Hlimit as [-> | ->]; reflexivity. }
  split; [exact Hq|].
  eapply meter_passes; eauto.
Qed.

Lemma falsy_limit_is_unlimited_witness :
  quota_check 0 Demo.clock (dailyLimit Demo.zero_limits "ai") "L1" "ai" 7
    (Demo.store Demo.zero_limits)
  = (Demo.store Demo.zero_limits, Ok None) ∧
  meter Demo.platform 0 Demo.clock Demo.clock Demo.clock Demo.cert "ai" 7
    (Demo.store Demo.zero_limits)
  = (set_usage (λ rows, rows ++ [usage_row Demo.clock "L1" "D1" "ai" 7])
       (Demo.store Demo.zero_limits),
     Ok (jsonResponse Allowed 200)).
Proof.
  apply (falsy_limit_is_unlimited Demo.platform 0 Demo.clock Demo.clock Demo.clock
           Demo.cert "ai" 7 _ Demo.cert_claims "L1" "D1"
           (Demo.license Demo.zero_limits)).
  - vm_compute; reflexivity.
  - reflexivity.
  - reflexivity.
  - split; vm_compute; reflexivity.
  - vm_compute; discriminate.
  - reflexivity.
  - left; vm_compute; reflexivity.
Defined.

(** ** Claims on the heartbeat *)
Section Heartbeat.
Context (P : Platform).

Lemma update_last_seen_unbound ts j dev db :
  bindings j dev db = ∅ →
  update_last_seen ts j dev db = (db, Ok tt).
Proof.
  intros Hnone. unfold update_last_seen; unfold_M.
  f_equal. destruct db as [ag li se ac us se' co]; unfold set_activations; simpl in *.
  f_equal. apply map_eq; intros k. rewrite lookup_fmap.
  destruct (ac !! k) as [a|] eqn:Hk; simpl; [|reflexivity].
  case_bool_decide as Hsame; [|reflexivity].
  exfalso. unfold bindings in Hnone; simpl in Hnone.
  assert (Hin : filter (λ kv, same_binding j dev kv.2) ac !! k = Some a)
    by (apply map_lookup_filter_Some; done).
  rewrite Hnone, lookup_empty in Hin. discriminate.
Qed.

End Heartbeat.

(** C10.  [heartbeat] answers [{ ok: true }] with status 200 for every
    certificate whose payload decodes to a [jti] and a [deviceId]: when no
    activation row exists for the pair the [last_seen] update touches no row
    and the answer is still 200 (never a 404), and a sighting
    [(jti, deviceId, userIdHash)] that is already recorded leaves [users_seen]
    as it was. *)
Theorem heartbeat_needs_no_binding P now cert userIdHash db d j dev :
  payload_of P cert = Some d → jti d = Some j → deviceId d = Some dev →
  ∃ db',
    heartbeat P now cert userIdHash db = (db', Ok (jsonResponse OkTrue 200)) ∧
    (bindings j dev db = ∅ → activations db' = activations db) ∧
    (∀ h, userIdHash = Some h → (j, dev, h) ∈ users_seen db →
          users_seen db' = users_seen db) ∧
    (userIdHash = None → users_seen db' = users_seen db).
Proof.
  intros Hd Hj Hdev.
  unfold heartbeat, decode_payload. rewrite Hd.
  unfold bind at 1, ret at 1. rewrite Hj. unfold bind at 1, bound at 1, ret at 1.
  rewrite Hdev. unfold bind at 1, bound at 1, ret at 1.
  unfold update_last_seen, insert_or_ignore_user; unfold_M.
  destruct (truthy_str userIdHash) eqn:Huh; eexists; (split; [reflexivity|]).
  - split_and!.
    + intros Hnone.
      pose proof (update_last_seen_unbound (now `div` 1000) j dev db Hnone) as Hup.
      unfold update_last_seen in Hup; unfold_M.
      injection Hup as Hup'. rewrite <- Hup' at 2. reflexivity.
    + intros h -> Hin. cbn [users_seen set_users_seen default].
      by apply subseteq_union_1_L, singleton_subseteq_l.
    + intros ->. discriminate.
  - split_and!.
    + intros Hnone.
      pose proof (update_last_seen_unbound (now `div` 1000) j dev db Hnone) as Hup.
      unfold update_last_seen in Hup; unfold_M.
      injection Hup as Hup'. rewrite <- Hup' at 2. reflexivity.
    + intros h -> Hin. reflexivity.
    + intros ->. reflexivity.
Qed.

Lemma heartbeat_needs_no_binding_witness :
  ∃ db',
    heartbeat Demo.platform Demo.clock Demo.cert (Some "u1")
      (set_users_seen (union {[ ("L1", "D1", "u1") ]}) Demo.empty_db)
      = (db', Ok (jsonResponse OkTrue 200)) ∧
    (bindings "L1" "D1" (set_users_seen (union {[ ("L1", "D1", "u1") ]}) Demo.empty_db) = ∅ →
     activations db' =
       activations (set_users_seen (union {[ ("L1", "D1", "u1") ]}) Demo.empty_db)) ∧
    (∀ h, Some "u1" = Some h →
          ("L1", "D1", h) ∈
            users_seen (set_users_seen (union {[ ("L1", "D1", "u1") ]}) Demo.empty_db) →
          users_seen db' =
            users_seen (set_users_seen (union {[ ("L1", "D1", "u1") ]}) Demo.empty_db)) ∧
    (Some "u1" = None →
     users_seen db' =
       users_seen (set_users_seen (union {[ ("L1", "D1", "u1") ]}) Demo.empty_db)).
Proof.
  apply (heartbeat_needs_no_binding Demo.platform Demo.clock Demo.cert (Some "u1")
           _ Demo.cert_claims "L1" "D1").
  - vm_compute; reflexivity.
  - reflexivity.
  - reflexivity.
Defined.

(** ** Sequential metering against a limit *)
Section Exactness.
Context (P : Platform).

Lemma usage_row_cost now j dev b cost : u_cost (usage_row now j dev b cost) = cost.
Proof. reflexivity. Qed.

Lemma usage_row_in_window now j dev b cost :
  in_window j (now `div` 86400000) b (usage_row now j dev b cost).
Proof. unfold in_window. done. Qed.

Lemma set_usage_set_usage f g db :
  set_usage f (set_usage g db) = set_usage (λ rows, f (g rows)) db.
Proof. reflexivity. Qed.

Lemma quota_check_under tza today L j b cost db :
  window_cost j (today `div` 86400000) b db + cost ≤ L →
  quota_check tza today (Some L) j b cost db = (db, Ok None).
Proof.
  intros Hle. rewrite quota_check_cases.
  rewrite (bool_decide_eq_false_2 (_ > _)) by lia.
  rewrite andb_false_r. reflexivity.
Qed.

Lemma quota_check_over tza today L j b cost db resetAt :
  L ≠ 0 →
  window_cost j (today `div` 86400000) b db + cost > L →
  next_local_midnight tza today = Some resetAt →
  quota_check tza today (Some L) j b cost db =
    (db, Ok (Some (jsonResponse
       (Denied b (L - window_cost j (today `div` 86400000) b db) resetAt) 429))).
Proof.
  intros HL Hgt Hreset. rewrite quota_check_cases.
  unfold truthy. rewrite !bool_decide_eq_true_2 by done.
  cbn [andb]. rewrite Hreset. reflexivity.
Qed.

(** As long as the window holds, every call is admitted and appends its row. *)
Lemma meter_calls_under_limit tza cert b L d j dev l q D clocks : ∀ db,
  payload_of P cert = Some d → jti d = Some j → deviceId d = Some dev →
  live_license db j l → parse_quotas l = Some q →
  dailyLimit q b = Some L →
  Forall (same_day_unexpired l D) clocks →
  window_cost j D b db + Z.of_nat (length clocks) ≤ L →
  meter_calls P tza clocks cert b 1 db =
    (set_usage (λ rows, rows ++ ((λ c, usage_row c.2 j dev b 1) <$> clocks)) db,
     Ok (replicate (length clocks) (jsonResponse Allowed 200))).
Proof.
  induction clocks as [|[[t today] now] clocks IH];
    intros db Hd Hj Hdev Hl Hpq HL Hall Hle.
  - simpl. unfold ret. f_equal. destruct db; unfold set_usage; simpl.
    rewrite app_nil_r. reflexivity.
  - apply Forall_cons in Hall as [(Hexp & Htoday & Hnow) Hall]. simpl in Hexp, Htoday, Hnow.
    rewrite length_cons in Hle.
    cbn [meter_calls].
    erewrite bind_ok; cycle 1.
    { eapply meter_passes; eauto. rewrite HL. apply quota_check_under.
      rewrite Htoday. lia. }
    erewrite bind_ok; cycle 1.
    { apply IH; try done.
      rewrite window_cost_insert.
      rewrite decide_True by (rewrite <- Hnow; apply usage_row_in_window).
      rewrite usage_row_cost. lia. }
    unfold ret. rewrite set_usage_set_usage. f_equal.
    destruct db; unfold set_usage; simpl. rewrite <- app_assoc. reflexivity.
Qed.

Lemma window_cost_after_calls j dev b D clocks l db :
  Forall (same_day_unexpired l D) clocks →
  window_cost j D b
    (set_usage (λ rows, rows ++ ((λ c, usage_row c.2 j dev b 1) <$> clocks)) db)
  = window_cost j D b db + Z.of_nat (length clocks).
Proof.
  intros Hall. unfold window_cost; simpl.
  rewrite filter_app, sum_cost_app. f_equal.
  induction Hall as [|[[t today] now] clocks (_ & _ & Hnow) _ IH]; [reflexivity|].
  simpl in Hnow. rewrite fmap_cons, filter_cons, decide_True.
  - rewrite length_cons. cbn [sum_cost foldr]. rewrite usage_row_cost.
    fold (sum_cost (filter (in_window j D b) ((λ c, usage_row c.2 j dev b 1) <$> clocks))).
    rewrite IH. lia.
  - rewrite <- Hnow. apply usage_row_in_window.
Qed.

Lemma effective_limit_eq q b : nonzero (dailyLimit q b) = effective_limit q b.
Proof.
  unfold dailyLimit, effective_limit, bucket_daily, or_else, truthy, nonzero.
  destruct (q_byCategory q) as [m|]; simpl.
  - destruct (m !! b) as [bq|]; simpl; [|reflexivity].
    destruct (bq_daily bq) as [n|]; simpl; [|reflexivity].
    repeat case_bool_decide; try done.
  - reflexivity.
Qed.

Lemma quota_check_unlimited tza today q j b cost db :
  effective_limit q b = None →
  quota_check tza today (dailyLimit q b) j b cost db = (db, Ok None).
Proof.
  rewrite <- effective_limit_eq. intros Hnone. rewrite quota_check_cases.
  destruct (dailyLimit q b) as [L|]; [|reflexivity].
  unfold nonzero in Hnone. case_bool_decide as Hz; [|discriminate].
  subst L. reflexivity.
Qed.

End Exactness.

(** C6, amended.  With a resolved daily limit of 100 for the bucket and no
    cost yet recorded in the day window, 100 sequential [meter] calls of cost
    1 within the day are all admitted, each appending one usage row, and a
    101st is denied with status 429 and [remaining = 0].  The limit applied is
    the per-bucket daily limit if it is configured and not zero, else the
    licence's global daily limit if that is configured and not zero, else
    none (unlimited). *)
Theorem quota_exactness P tza cert bucket db d j dev l q D clocks t' today' now' :
  payload_of P cert = Some d → jti d = Some j → deviceId d = Some dev →
  live_license db j l → parse_quotas l = Some q →
  dailyLimit q bucket = Some 100 →
  window_cost j D bucket db = 0 →
  length clocks = 100%nat →
  Forall (same_day_unexpired l D) clocks →
  same_day_unexpired l D (t', today', now') →
  is_Some (next_local_midnight tza today') →
  (∃ db100 resetAt,
     meter_calls P tza clocks cert bucket 1 db =
       (db100, Ok (replicate 100 (jsonResponse Allowed 200))) ∧
     usage db100 = usage db ++ ((λ c, usage_row c.2 j dev bucket 1) <$> clocks) ∧
     length (usage db100) = (length (usage db) + 100)%nat ∧
     meter P tza t' today' now' cert bucket 1 db100 =
       (db100, Ok (jsonResponse (Denied bucket 0 resetAt) 429))) ∧
  (∀ q b, nonzero (dailyLimit q b) = effective_limit q b) ∧
  (∀ q b j' cost today db0, effective_limit q b = None →
     quota_check tza today (dailyLimit q b) j' b cost db0 = (db0, Ok None)).
Proof.
  intros Hd Hj Hdev Hl Hpq HL H0 Hlen Hall (Hexp' & Htoday' & _) [resetAt Hreset].
  split; [|split; [apply effective_limit_eq|intros; by apply quota_check_unlimited]].
  eexists _, resetAt. split_and!.
  - rewrite <- Hlen. eapply meter_calls_under_limit; eauto. rewrite H0, Hlen. lia.
  - reflexivity.
  - simpl. rewrite length_app, length_fmap, Hlen. reflexivity.
  - simpl in Hexp', Htoday'.
    erewrite meter_stopped; [reflexivity|eauto..].
    rewrite HL, quota_check_over with (resetAt := resetAt); try done.
    + rewrite Htoday', (window_cost_after_calls _ _ _ _ _ l) by done.
      rewrite H0, Hlen. reflexivity.
    + rewrite Htoday', (window_cost_after_calls _ _ _ _ _ l) by done.
      rewrite H0, Hlen. lia.
Qed.

Lemma quota_exactness_witness :
  (∃ db100 resetAt,
     meter_calls Demo.platform 0 Demo.hundred_clocks Demo.cert "general" 1
       (Demo.store Demo.daily_100) =
       (db100, Ok (replicate 100 (jsonResponse Allowed 200))) ∧
     usage db100 = usage (Demo.store Demo.daily_100) ++
       ((λ c, usage_row c.2 "L1" "D1" "general" 1) <$> Demo.hundred_clocks) ∧
     length (usage db100) = (length (usage (Demo.store Demo.daily_100)) + 100)%nat ∧
     meter Demo.platform 0 (Demo.clock + 100000) (Demo.clock + 100000) (Demo.clock + 100000)
       Demo.cert "general" 1 db100 =
       (db100, Ok (jsonResponse (Denied "general" 0 resetAt) 429))) ∧
  (∀ q b, nonzero (dailyLimit q b) = effective_limit q b) ∧
  (∀ q b j' cost today db0, effective_limit q b = None →
     quota_check 0 today (dailyLimit q b) j' b cost db0 = (db0, Ok None)).
Proof.
  apply (quota_exactness Demo.platform 0 Demo.cert "general"
           (Demo.store Demo.daily_100) Demo.cert_claims "L1" "D1"
           (Demo.license Demo.daily_100) Demo.daily_100 20760 Demo.hundred_clocks).
  - vm_compute; reflexivity.
  - reflexivity.
  - reflexivity.
  - split; vm_compute; reflexivity.
  - reflexivity.
  - vm_compute; reflexivity.
  - vm_compute; reflexivity.
  - vm_compute; reflexivity.
  - apply (bool_decide_eq_true_1 _). vm_compute; reflexivity.
  - apply (bool_decide_eq_true_1 _). vm_compute; reflexivity.
  - eexists. vm_compute; reflexivity.
Defined.

(** C6 as stated fails where a per-bucket daily limit of 0 is configured:
    the limit applied is the global one, and a call the per-bucket limit
    forbids is admitted. *)
Lemma zero_bucket_limit_not_applied :
  configured_limit Demo.zero_bucket "ai" = Some 0 ∧
  dailyLimit Demo.zero_bucket "ai" = Some 5 ∧
  window_cost "L1" (Demo.clock `div` 86400000) "ai" (Demo.store Demo.zero_bucket) + 1 > 0 ∧
  meter Demo.platform 0 Demo.clock Demo.clock Demo.clock Demo.cert "ai" 1
    (Demo.store Demo.zero_bucket) =
    (set_usage (λ rows, rows ++ [usage_row Demo.clock "L1" "D1" "ai" 1])
       (Demo.store Demo.zero_bucket),
     Ok (jsonResponse Allowed 200)).
Proof. split_and!; vm_compute; reflexivity. Qed.

(** ** Claims on device binding *)
Section Binding.
Context (P : Platform).

(** A successful finish: the session was there, the credential had an id,
    and the activation row keyed by the session's [activation_id] was
    inserted; nothing else changed. *)
Lemma activate_finish_inv dev now now' id cred db db1 r :
  activate_finish P dev now now' id cred db = (db1, Ok r) →
  status r = 200 →
  ∃ s cid l,
    activation_sessions db !! id = Some s ∧ cred = Some (Some cid) ∧
    activations db !! id = None ∧ bindings (s_jti s) dev db = ∅ ∧
    licenses db !! s_jti s = Some l ∧
    db1 = set_activations
            (insert id {| a_jti := s_jti s; a_device_id := dev; a_credential_id := cid;
                          a_public_key := "{}"; a_last_seen := Some (now `div` 1000);
                          a_revoked := false |}) db ∧
    r = jsonResponse
          (Finished (signJwt P (ActivationPayload (l_project_id l) (s_jti s) dev "webauthn"
                                  (now' `div` 1000 + 7 * 24 * 60 * 60)))) 200.
Proof.
  unfold activate_finish, select_session, select_license, insert_activation.
  unfold_M.
  destruct (activation_sessions db !! id) as [s|] eqn:Hs;
    [|intros [= <- <-]; discriminate].
  destruct cred as [[cid|]|]; try discriminate.
  cbv beta iota.
  case_bool_decide as Hpk; [discriminate|].
  cbn [a_jti a_device_id].
  case_bool_decide as Huniq; [discriminate|].
  case_bool_decide as Hfk; [discriminate|].
  cbn [licenses set_activations].
  destruct (licenses db !! s_jti s) as [l|] eqn:Hl; [|done].
  intros [= <- <-] _. exists s, cid, l.
  split_and!; try done.
  by apply eq_None_not_Some.
Qed.

(** With the session row and an activation row keyed by [id] both in the
    store, a finish for [id] writes nothing and mints nothing: it throws. *)
Lemma activate_finish_again dev now now' id cred db :
  is_Some (activation_sessions db !! id) →
  is_Some (activations db !! id) →
  ∃ e, activate_finish P dev now now' id cred db = (db, Throw e).
Proof.
  intros [s Hs] Hsome.
  unfold activate_finish, select_session, insert_activation. unfold_M.
  rewrite Hs.
  destruct cred as [[cid|]|]; cbv beta iota; [|eauto..].
  rewrite bool_decide_eq_true_2 by done. eauto.
Qed.

End Binding.

(** C3, amended.  [activate_finish] succeeds at most once per activation id.
    A successful finish leaves the session row in place (it is not consumed)
    and inserts the activation row under the session's [activation_id]; from
    then on, whatever requests are handled in between, a finish for the same
    id creates no activation and no certificate and leaves the store as it
    is, and it fails by throwing, not with a 404 or 409 answer: with a
    well-formed credential, right after the first finish, the insert violates
    the primary key of [activations]. *)
Theorem finish_succeeds_at_most_once P dev now now' id cred db db1 r :
  activate_finish P dev now now' id cred db = (db1, Ok r) →
  status r = 200 →
  activation_sessions db1 = activation_sessions db ∧
  is_Some (activation_sessions db1 !! id) ∧
  is_Some (activations db1 !! id) ∧
  (∀ dev2 t2 t2' cid2,
     activate_finish P dev2 t2 t2' id (Some (Some cid2)) db1 =
       (db1, Throw (D1_ERROR "UNIQUE constraint failed: activations.activation_id"))) ∧
  (∀ reqs dev2 t2 t2' cred2,
     ∃ e, activate_finish P dev2 t2 t2' id cred2 (after P reqs db1) =
            (after P reqs db1, Throw e)).
Proof.
  intros Hrun Hst.
  apply activate_finish_inv in Hrun as (s & cid & l & Hs & -> & Hnone & Hb & Hl & -> & ->);
    [|done].
  split_and!.
  - reflexivity.
  - simpl. rewrite Hs. eauto.
  - simpl. rewrite lookup_insert_eq. eauto.
  - intros dev2 t2 t2' cid2.
    unfold activate_finish, select_session, insert_activation. unfold_M.
    change (activation_sessions (set_activations ?f db)) with (activation_sessions db).
    rewrite Hs.
    rewrite bool_decide_eq_true_2; [reflexivity|].
    change (activations (set_activations ?f db)) with (f (activations db)).
    rewrite lookup_insert_eq. eauto.
  - intros reqs dev2 t2 t2' cred2. apply activate_finish_again.
    + apply session_stays. cbn. rewrite Hs. eauto.
    + apply activation_stays. cbn. rewrite lookup_insert_eq. eauto.
Qed.

Lemma finish_succeeds_at_most_once_witness :
  activation_sessions
    (set_activations
       (insert "A1" {| a_jti := "L1"; a_device_id := "D1"; a_credential_id := "cred-1";
                       a_public_key := "{}"; a_last_seen := Some 1793692800;
                       a_revoked := false |}) Demo.session_store)
    = activation_sessions Demo.session_store ∧
  is_Some (activation_sessions (set_activations (insert "A1" Demo.activation_D1)
                                  Demo.session_store) !! "A1") ∧
  is_Some (activations (set_activations (insert "A1" Demo.activation_D1)
                          Demo.session_store) !! "A1") ∧
  (∀ dev2 t2 t2' cid2,
     activate_finish Demo.platform dev2 t2 t2' "A1" (Some (Some cid2))
       (set_activations (insert "A1" Demo.activation_D1) Demo.session_store) =
       (set_activations (insert "A1" Demo.activation_D1) Demo.session_store,
        Throw (D1_ERROR "UNIQUE constraint failed: activations.activation_id"))) ∧
  (∀ reqs dev2 t2 t2' cred2,
     ∃ e, activate_finish Demo.platform dev2 t2 t2' "A1" cred2
            (after Demo.platform reqs
               (set_activations (insert "A1" Demo.activation_D1) Demo.session_store)) =
            (after Demo.platform reqs
               (set_activations (insert "A1" Demo.activation_D1) Demo.session_store),
             Throw e)).
Proof.
  apply (finish_succeeds_at_most_once Demo.platform "D1" Demo.clock Demo.clock "A1"
           (Some (Some "cred-1")) Demo.session_store _
           (jsonResponse
              (Finished (signJwt Demo.platform
                 (ActivationPayload "p1" "L1" "D1" "webauthn" 1794297600))) 200)).
  - vm_compute; reflexivity.
  - reflexivity.
Defined.

(** C3 as stated fails: after the first successful finish the session row is
    still there (it is not consumed), and the second finish does not answer
    with a 404 or 409 response: it throws the store's constraint error. *)
Lemma second_finish_throws :
  activate_finish Demo.platform "D1" Demo.clock Demo.clock "A1" (Some (Some "cred-1"))
    Demo.session_store =
    (set_activations (insert "A1" Demo.activation_D1) Demo.session_store,
     Ok (jsonResponse
           (Finished (signJwt Demo.platform
              (ActivationPayload "p1" "L1" "D1" "webauthn" 1794297600))) 200)) ∧
  activation_sessions (set_activations (insert "A1" Demo.activation_D1) Demo.session_store)
    !! "A1" = Some Demo.session ∧
  activate_finish Demo.platform "D2" (Demo.clock + 1000) (Demo.clock + 1000) "A1"
    (Some (Some "cred-2"))
    (set_activations (insert "A1" Demo.activation_D1) Demo.session_store) =
    (set_activations (insert "A1" Demo.activation_D1) Demo.session_store,
     Throw (D1_ERROR "UNIQUE constraint failed: activations.activation_id")).
Proof. split_and!; vm_compute; reflexivity. Qed.

(** C4, evaluated.  A licence already bound to device [devA] is bound again
    to a different device [devB]: with a pending session of that licence
    (one more [activate_start] gives it), [activate_finish] answers 200 with
    a certificate for [devB] and inserts a second activation row; the row of
    [devA] stays.  No test of existing activations is made. *)
Theorem finish_binds_second_device P devB now now' id2 cid db k1 a1 s l :
  activations db !! k1 = Some a1 →
  activation_sessions db !! id2 = Some s →
  a_jti a1 = s_jti s →
  a_device_id a1 ≠ devB →
  activations db !! id2 = None →
  bindings (s_jti s) devB db = ∅ →
  licenses db !! s_jti s = Some l →
  ∃ db' a2,
    activate_finish P devB now now' id2 (Some (Some cid)) db =
      (db', Ok (jsonResponse
                  (Finished (signJwt P (ActivationPayload (l_project_id l) (s_jti s) devB
                                          "webauthn" (now' `div` 1000 + 7 * 24 * 60 * 60))))
                  200)) ∧
    activations db' !! k1 = Some a1 ∧
    activations db' !! id2 = Some a2 ∧
    a_jti a2 = a_jti a1 ∧ a_device_id a2 = devB ∧ a_device_id a2 ≠ a_device_id a1 ∧
    a_revoked a2 = false.
Proof.
  intros Hk1 Hs Hjti Hdev Hfresh Huniq Hl.
  eexists _, _. split.
  - unfold activate_finish, select_session, select_license, insert_activation. unfold_M.
    rewrite Hs. cbv beta iota. cbn [a_jti a_device_id].
    rewrite Hfresh.
    rewrite (bool_decide_eq_false_2 (is_Some None)) by (intros [? [=]]).
    rewrite (bool_decide_eq_false_2 (_ ≠ ∅)) by (intros Hne; by apply Hne).
    rewrite Hl. rewrite (bool_decide_eq_false_2 (Some l = None)) by done.
    change (licenses (set_activations ?f db)) with (licenses db). rewrite Hl.
    reflexivity.
  - change (activations (set_activations ?f db)) with (f (activations db)).
    assert (k1 ≠ id2) by (intros ->; congruence).
    rewrite lookup_insert_ne by done. rewrite lookup_insert_eq.
    split_and!; try done.
Qed.

Lemma finish_binds_second_device_witness :
  ∃ db' a2,
    activate_finish Demo.platform "D2" Demo.clock Demo.clock "A2" (Some (Some "cred-2"))
      Demo.bound_store =
      (db', Ok (jsonResponse
                  (Finished (signJwt Demo.platform
                     (ActivationPayload "p1" "L1" "D2" "webauthn" 1794297600))) 200)) ∧
    activations db' !! "A1" = Some Demo.activation_D1 ∧
    activations db' !! "A2" = Some a2 ∧
    a_jti a2 = "L1" ∧ a_device_id a2 = "D2" ∧ a_device_id a2 ≠ "D1" ∧
    a_revoked a2 = false.
Proof.
  apply (finish_binds_second_device Demo.platform "D2" Demo.clock Demo.clock "A2" "cred-2"
           Demo.bound_store "A1" Demo.activation_D1 Demo.session
           (Demo.license Demo.no_quotas)).
  - vm_compute; reflexivity.
  - vm_compute; reflexivity.
  - reflexivity.
  - vm_compute; discriminate.
  - vm_compute; reflexivity.
  - vm_compute; reflexivity.
  - vm_compute; reflexivity.
Defined.

(** ** Claims on revocation *)
Section Revocation.
Context (P : Platform).

Lemma batch_revoke_license j db l :
  licenses db !! j = Some l →
  licenses (batch_revoke j db).1 !! j = Some (revoke_license l).
Proof.
  intros Hl. unfold batch_revoke; unfold_M. cbn.
  rewrite lookup_alter_eq, Hl. reflexivity.
Qed.

Lemma batch_revoke_activations j db k a :
  activations (batch_revoke j db).1 !! k = Some a →
  a_jti a = j → a_revoked a = true.
Proof.
  unfold batch_revoke; unfold_M. cbn.
  rewrite lookup_fmap. destruct (activations db !! k) as [a0|]; [|discriminate].
  cbn. case_bool_decide as Hj; intros [= <-]; [reflexivity|done].
Qed.

(** Once the licence row is revoked (or absent), [meter] answers 403 and
    writes nothing. *)
Lemma meter_revoked tza t today now cert bucket cost db d j :
  payload_of P cert = Some d → jti d = Some j →
  (∀ l, licenses db !! j = Some l → l_revoked l = true) →
  meter P tza t today now cert bucket cost db =
    (db, Ok (jsonResponse (ErrorBody "Invalid or expired license.") 403)).
Proof.
  intros Hd Hj Hrev.
  unfold meter, decode_payload. rewrite Hd.
  unfold bind at 1, ret at 1. rewrite Hj. unfold bind at 1, bound at 1, ret at 1.
  unfold bind at 1, select_live_license. unfold_M.
  destruct (licenses db !! j) as [l|] eqn:Hl; [|reflexivity].
  rewrite (Hrev l eq_refl). reflexivity.
Qed.

(** [heartbeat] reads neither revocation flag. *)
Lemma heartbeat_runs now cert userIdHash db d j dev :
  payload_of P cert = Some d → jti d = Some j → deviceId d = Some dev →
  ∃ db',
    heartbeat P now cert userIdHash db = (db', Ok (jsonResponse OkTrue 200)) ∧
    ∀ k a, activations db !! k = Some a → same_binding j dev a →
           activations db' !! k = Some (touch_activation (now `div` 1000) a).
Proof.
  intros Hd Hj Hdev.
  unfold heartbeat, decode_payload. rewrite Hd.
  unfold bind at 1, ret at 1. rewrite Hj. unfold bind at 1, bound at 1, ret at 1.
  rewrite Hdev. unfold bind at 1, bound at 1, ret at 1.
  unfold update_last_seen, insert_or_ignore_user; unfold_M.
  destruct (truthy_str userIdHash); eexists; (split; [reflexivity|]);
    intros k a Hk Hsame; cbn; rewrite lookup_fmap, Hk; cbn;
    rewrite bool_decide_eq_true_2 by done; reflexivity.
Qed.

End Revocation.

(** C5, evaluated.  [licenses_revoke] sets the revoked flag of the licence
    and of every activation under it, and [meter] from then on, whatever
    requests are handled in between, answers 403 without appending usage.
    [heartbeat] however still answers [{ ok: true }] with status 200 and
    moves [last_seen] of the revoked activation: it reads neither flag. *)
Theorem revoked_license_still_beats P tza t today now cert bucket cost userIdHash
    db d j dev :
  payload_of P cert = Some d → jti d = Some j → deviceId d = Some dev →
  ∃ db1,
    licenses_revoke true (Some j) db = (db1, Ok (jsonResponse (RevokedOk j) 200)) ∧
    (∀ l, licenses db !! j = Some l → licenses db1 !! j = Some (revoke_license l)) ∧
    (∀ k a, activations db1 !! k = Some a → a_jti a = j → a_revoked a = true) ∧
    meter P tza t today now cert bucket cost db1 =
      (db1, Ok (jsonResponse (ErrorBody "Invalid or expired license.") 403)) ∧
    (is_Some (licenses db !! j) → ∀ reqs,
       meter P tza t today now cert bucket cost (after P reqs db1) =
         (after P reqs db1,
          Ok (jsonResponse (ErrorBody "Invalid or expired license.") 403)) ∧
       ∃ db2, heartbeat P now cert userIdHash (after P reqs db1) =
                (db2, Ok (jsonResponse OkTrue 200))) ∧
    ∃ db2,
      heartbeat P now cert userIdHash db1 = (db2, Ok (jsonResponse OkTrue 200)) ∧
      ∀ k a, activations db1 !! k = Some a → same_binding j dev a →
             a_revoked a = true ∧
             activations db2 !! k = Some (touch_activation (now `div` 1000) a).
Proof.
  intros Hd Hj Hdev.
  exists (batch_revoke j db).1. split_and!.
  - reflexivity.
  - intros l Hl. by apply batch_revoke_license.
  - apply batch_revoke_activations.
  - eapply meter_revoked; eauto.
    intros l. unfold batch_revoke; unfold_M. cbn.
    rewrite lookup_alter_eq. destruct (licenses db !! j); intros [= <-]; reflexivity.
  - intros [l Hl] reqs. split.
    + eapply meter_revoked; eauto.
      intros l' Hl'.
      destruct (revoked_stays P j reqs (batch_revoke j db).1) as (l'' & Hl'' & Hr).
      { exists (revoke_license l). split; [by apply batch_revoke_license|done]. }
      congruence.
    + destruct (heartbeat_runs P now cert userIdHash (after P reqs (batch_revoke j db).1)
                  d j dev) as (db2 & Hrun & _); eauto.
  - destruct (heartbeat_runs P now cert userIdHash (batch_revoke j db).1 d j dev)
      as (db2 & Hrun & Htouch); try done.
    exists db2. split; [exact Hrun|].
    intros k a Hk Hsame. split; [|by apply Htouch].
    eapply batch_revoke_activations; [exact Hk|apply Hsame].
Qed.

Lemma revoked_license_still_beats_witness :
  ∃ db1,
    licenses_revoke true (Some "L1") Demo.bound_store =
      (db1, Ok (jsonResponse (RevokedOk "L1") 200)) ∧
    (∀ l, licenses Demo.bound_store !! "L1" = Some l →
          licenses db1 !! "L1" = Some (revoke_license l)) ∧
    (∀ k a, activations db1 !! k = Some a → a_jti a = "L1" → a_revoked a = true) ∧
    meter Demo.platform 0 Demo.clock Demo.clock Demo.clock Demo.cert "ai" 1 db1 =
      (db1, Ok (jsonResponse (ErrorBody "Invalid or expired license.") 403)) ∧
    (is_Some (licenses Demo.bound_store !! "L1") → ∀ reqs,
       meter Demo.platform 0 Demo.clock Demo.clock Demo.clock Demo.cert "ai" 1
         (after Demo.platform reqs db1) =
         (after Demo.platform reqs db1,
          Ok (jsonResponse (ErrorBody "Invalid or expired license.") 403)) ∧
       ∃ db2, heartbeat Demo.platform Demo.clock Demo.cert None
                (after Demo.platform reqs db1) = (db2, Ok (jsonResponse OkTrue 200))) ∧
    ∃ db2,
      heartbeat Demo.platform Demo.clock Demo.cert None db1 =
        (db2, Ok (jsonResponse OkTrue 200)) ∧
      ∀ k a, activations db1 !! k = Some a → same_binding "L1" "D1" a →
             a_revoked a = true ∧
             activations db2 !! k = Some (touch_activation (Demo.clock `div` 1000) a).
Proof.
  apply (revoked_license_still_beats Demo.platform 0 Demo.clock Demo.clock Demo.clock
           Demo.cert "ai" 1 None Demo.bound_store Demo.cert_claims "L1" "D1").
  - vm_compute; reflexivity.
  - reflexivity.
  - reflexivity.
Defined.

(** ** Claims on coupon redemption *)
Section Redemption.
Context (P : Platform).

Lemma redeem_select_passes now code project c db :
  code ≠ "" → project ≠ "" →
  coupon_codes db !! code = Some c → c_project_id c = project →
  c_current_uses c < c_max_uses c → expired_at c now = false →
  redeem_select now (Some code) (Some project) db = (db, Ok (inr (c_plan c))).
Proof.
  intros Hcode Hproj Hc Hp Hlt Hexp.
  unfold redeem_select, truthy_str. cbv beta iota.
  rewrite !bool_decide_eq_true_2 by done. cbn [negb orb].
  unfold select_coupon; unfold_M. cbn [default]. unfold id.
  rewrite Hc. rewrite bool_decide_eq_true_2 by done.
  rewrite (bool_decide_eq_false_2 (_ >= _)) by lia.
  fold (expired_at c now). rewrite Hexp. reflexivity.
Qed.

Lemma insert_license_fresh j project plan e db :
  licenses db !! j = None →
  insert_license j (redeemed_license project plan e) db =
    (set_licenses (insert j (redeemed_license project plan e)) db, Ok tt).
Proof.
  intros Hfresh. unfold insert_license; unfold_M.
  rewrite Hfresh.
  rewrite (bool_decide_eq_false_2 (is_Some None)) by (intros [? [=]]).
  cbn [l_type l_agency_id redeemed_license].
  rewrite bool_decide_eq_false_2 by (intros [_ ?]; done).
  reflexivity.
Qed.

(** X2.  Run alone, the three steps of a redemption are the handler
    [coupons_redeem]: same store, same answer or throw. *)
Theorem steps_are_handler now now' j couponCode projectId db :
  run_schedule P [0; 0; 0]%nat [Received now now' j couponCode projectId] db =
    (let '(db', out) := coupons_redeem P now now' j couponCode projectId db in
     (db', [task_of out])).
Proof.
  unfold coupons_redeem, bind at 1.
  cbn [run_schedule step_at lookup list_lookup redeem_step].
  destruct (redeem_select now couponCode projectId db) as [db1 [[r|plan]|e]];
    cbn [run_schedule step_at lookup list_lookup list_insert insert redeem_step];
    try reflexivity.
  unfold bind at 1.
  destruct (insert_license _ _ db1) as [db2 [[]|e]];
    cbn [run_schedule step_at lookup list_lookup list_insert insert redeem_step];
    try reflexivity.
Qed.

Lemma redeem_select_inv now couponCode projectId db db' plan :
  redeem_select now couponCode projectId db = (db', Ok (inr plan)) →
  db' = db ∧
  ∃ code c, couponCode = Some code ∧ coupon_codes db !! code = Some c ∧
            c_current_uses c < c_max_uses c.
Proof.
  unfold redeem_select, select_coupon. unfold_M.
  destruct couponCode as [code|]; [|discriminate].
  destruct (negb _ || negb _); [discriminate|].
  cbn [default]. unfold id.
  destruct (coupon_codes db !! code) as [c|] eqn:Hc; [|discriminate].
  case_bool_decide; [|discriminate].
  case_bool_decide as Hge; [discriminate|].
  case_match; [discriminate|].
  intros [= <- <-]. split; [done|]. exists code, c. split_and!; [done..|lia].
Qed.

End Redemption.

(** X3.  A redemption that runs without another request in between keeps
    every coupon within its cap ([current_uses <= max_uses]): the test it made
    on the selected row still holds when it increments. *)
Theorem redeem_alone_keeps_cap P now now' j couponCode projectId :
  preserves within_cap (coupons_redeem P now now' j couponCode projectId).
Proof.
  intros db Hcap. unfold coupons_redeem, bind at 1.
  destruct (redeem_select now couponCode projectId db) as [db1 [[r|plan]|e]] eqn:Hsel.
  - cbn. unfold redeem_select, select_coupon in Hsel. unfold_M.
    repeat case_match; by simplify_eq.
  - apply redeem_select_inv in Hsel as (-> & code & c & -> & Hc & Hlt).
    cbn [default]. unfold id, bind at 1, insert_license, increment_coupon. unfold_M.
    repeat case_match; simplify_eq; cbn [fst]; try exact Hcap.
    all: intros code' c'; cbn.
    all: destruct (decide (code' = code)) as [->|Hne].
    all: try (rewrite lookup_alter_eq, Hc; intros [= <-]; cbn; lia).
    all: rewrite lookup_alter_ne by done; apply Hcap.
  - cbn. unfold redeem_select, select_coupon in Hsel. unfold_M.
    repeat case_match; by simplify_eq.
Qed.

Lemma redeem_alone_keeps_cap_witness :
  within_cap
    (coupons_redeem Demo.platform Demo.clock Demo.clock "L-A" (Some "WELCOME") (Some "p1")
       Demo.coupon_store).1.
Proof.
  apply (redeem_alone_keeps_cap Demo.platform Demo.clock Demo.clock "L-A" (Some "WELCOME")
           (Some "p1") Demo.coupon_store).
  intros code c. unfold Demo.coupon_store. cbn.
  destruct (decide (code = "WELCOME")) as [->|Hne].
  - rewrite lookup_insert_eq. intros [= <-]. cbn. lia.
  - rewrite lookup_insert_ne by done. rewrite lookup_empty. discriminate.
Defined.

Section Race.
Context (P : Platform).

Lemma step_at_0 a b db :
  step_at P 0 [a; b] db = (let '(db', a') := redeem_step P a db in (db', [a'; b])).
Proof. unfold step_at. cbn. destruct (redeem_step P a db). reflexivity. Qed.

Lemma step_at_1 a b db :
  step_at P 1 [a; b] db = (let '(db', b') := redeem_step P b db in (db', [a; b'])).
Proof. unfold step_at. cbn. destruct (redeem_step P b db). reflexivity. Qed.

Lemma step_received now now' j code project c db :
  code ≠ "" → project ≠ "" →
  coupon_codes db !! code = Some c → c_project_id c = project →
  c_current_uses c < c_max_uses c → expired_at c now = false →
  redeem_step P (Received now now' j (Some code) (Some project)) db =
    (db, Selected now' j code project (c_plan c)).
Proof.
  intros. cbn [redeem_step]. by erewrite redeem_select_passes.
Qed.

Lemma step_selected now' j code project plan db :
  licenses db !! j = None →
  redeem_step P (Selected now' j code project plan) db =
    (set_licenses (insert j (redeemed_license project plan (redeem_exp now' plan))) db,
     Inserted j code project (redeem_exp now' plan)).
Proof.
  intros Hfresh. cbn [redeem_step]. cbv zeta.
  by rewrite insert_license_fresh.
Qed.

Lemma step_inserted j code project e db :
  redeem_step P (Inserted j code project e) db =
    (set_coupon_codes (alter bump_coupon code) db,
     Answered (redeem_token P project j e)).
Proof. reflexivity. Qed.

End Race.

(** C1, evaluated.  Two redemptions of a coupon with exactly one use left,
    interleaved so that both select the coupon before either writes, both
    answer 200 with a licence token, both licence rows are inserted, and
    [current_uses] ends at [max_uses + 1]: the test of
    [current_uses >= max_uses] is made on the row read earlier and the
    increment is unconditional.  Also, in a single redemption the licence row
    is inserted before the increment is made. *)
Theorem racing_redemptions_overshoot P nowA nowA' nowB nowB' jA jB code project c db :
  code ≠ "" → project ≠ "" →
  coupon_codes db !! code = Some c → c_project_id c = project →
  c_current_uses c + 1 = c_max_uses c →
  expired_at c nowA = false → expired_at c nowB = false →
  licenses db !! jA = None → licenses db !! jB = None → jA ≠ jB →
  (∃ db' c',
     run_schedule P [0; 1; 0; 0; 1; 1]%nat
       [Received nowA nowA' jA (Some code) (Some project);
        Received nowB nowB' jB (Some code) (Some project)] db =
       (db', [Answered (redeem_token P project jA (redeem_exp nowA' (c_plan c)));
              Answered (redeem_token P project jB (redeem_exp nowB' (c_plan c)))]) ∧
     is_Some (licenses db' !! jA) ∧ is_Some (licenses db' !! jB) ∧
     coupon_codes db' !! code = Some c' ∧
     c_max_uses c' = c_max_uses c ∧
     c_current_uses c' = c_max_uses c + 1) ∧
  (∃ db1,
     run_schedule P [0; 0]%nat [Received nowA nowA' jA (Some code) (Some project)] db =
       (db1, [Inserted jA code project (redeem_exp nowA' (c_plan c))]) ∧
     is_Some (licenses db1 !! jA) ∧
     coupon_codes db1 !! code = Some c).
Proof.
  intros Hcode Hproj Hc Hp Hone HexpA HexpB HfreshA HfreshB Hne.
  split.
  - eexists _, _. split; [|split_and!].
    + cbn [run_schedule].
      rewrite step_at_0, (step_received P nowA nowA' jA code project c) by (done || lia).
      rewrite step_at_1, (step_received P nowB nowB' jB code project c) by (done || lia).
      rewrite step_at_0, step_selected by done.
      rewrite step_at_0, step_inserted.
      rewrite step_at_1, step_selected; [|cbn; by rewrite lookup_insert_ne].
      rewrite step_at_1, step_inserted.
      reflexivity.
    + cbn. rewrite lookup_insert_ne by done. rewrite lookup_insert_eq. eauto.
    + cbn. rewrite lookup_insert_eq. eauto.
    + cbn. rewrite !lookup_alter_eq, Hc. reflexivity.
    + reflexivity.
    + cbn. lia.
  - eexists. split_and!.
    + cbn [run_schedule].
      unfold step_at at 1. cbn [lookup list_lookup].
      rewrite (step_received P nowA nowA' jA code project c) by (done || lia).
      cbn [insert list_insert].
      unfold step_at at 1. cbn [lookup list_lookup].
      rewrite step_selected by done. reflexivity.
    + cbn. rewrite lookup_insert_eq. eauto.
    + cbn. exact Hc.
Qed.

Lemma racing_redemptions_overshoot_witness :
  (∃ db' c',
     run_schedule Demo.platform [0; 1; 0; 0; 1; 1]%nat
       [Received Demo.clock Demo.clock "L-A" (Some "WELCOME") (Some "p1");
        Received Demo.clock Demo.clock "L-B" (Some "WELCOME") (Some "p1")]
       Demo.coupon_store =
       (db', [Answered (redeem_token Demo.platform "p1" "L-A" 1796284800);
              Answered (redeem_token Demo.platform "p1" "L-B" 1796284800)]) ∧
     is_Some (licenses db' !! "L-A") ∧ is_Some (licenses db' !! "L-B") ∧
     coupon_codes db' !! "WELCOME" = Some c' ∧
     c_max_uses c' = 1 ∧
     c_current_uses c' = 2) ∧
  (∃ db1,
     run_schedule Demo.platform [0; 0]%nat
       [Received Demo.clock Demo.clock "L-A" (Some "WELCOME") (Some "p1")]
       Demo.coupon_store =
       (db1, [Inserted "L-A" "WELCOME" "p1" 1796284800]) ∧
     is_Some (licenses db1 !! "L-A") ∧
     coupon_codes db1 !! "WELCOME" = Some Demo.coupon).
Proof.
  apply (racing_redemptions_overshoot Demo.platform Demo.clock Demo.clock Demo.clock
           Demo.clock "L-A" "L-B" "WELCOME" "p1" Demo.coupon Demo.coupon_store).
  - discriminate.
  - discriminate.
  - vm_compute; reflexivity.
  - reflexivity.
  - reflexivity.
  - reflexivity.
  - reflexivity.
  - vm_compute; reflexivity.
  - vm_compute; reflexivity.
  - discriminate.
Defined.

(** ** Claims on token verification *)
Section Tokens.
Context (P : Platform).

Lemma activate_start_passes now challenge activationId hostname projectId token info
    db d j l :
  payload_of P token = Some d → aud d = projectId → token_expired d now = false →
  jti d = Some j → live_license db j l →
  activation_sessions db !! activationId = None →
  activate_start P now challenge activationId hostname projectId token (Some info) db =
    (set_activation_sessions
       (insert activationId
          {| s_jti := j; s_challenge := challenge; s_device_info := Some info |}) db,
     Ok (jsonResponse (Started activationId challenge hostname j) 200)).
Proof.
  intros Hd Haud Hexp Hj Hl Hfresh.
  unfold activate_start, decode_payload. rewrite Hd.
  unfold bind at 1, ret at 1.
  rewrite bool_decide_eq_false_2 by (intros Hne; by apply Hne).
  fold (token_expired d now). rewrite Hexp, Hj.
  unfold bind at 1, bound at 1, ret at 1.
  rewrite (bind_ok _ _ _ _ _ (select_live_license_live _ _ _ Hl)).
  unfold bind at 1, bound at 1, ret at 1.
  unfold insert_session; unfold_M. rewrite Hfresh.
  rewrite (bool_decide_eq_false_2 (is_Some None)) by (intros [? [=]]).
  cbn [s_jti]. destruct Hl as [Hl _]. rewrite Hl.
  rewrite bool_decide_eq_false_2 by done. reflexivity.
Qed.

End Tokens.

(** C2, evaluated.  Tokens that [verifyJwt] rejects (a signature that does
    not verify, a foreign algorithm, a missing segment) are acted on all the
    same: [activate_start] opens a session for the licence named in the
    payload, [heartbeat] answers ok, and [meter] admits and records usage.
    The handlers read the payload segment only. *)
Theorem unverified_tokens_are_trusted P now challenge activationId hostname info
    tza t today bucket cost userIdHash db licenseToken activationCert d c j dev l q :
  verifyJwt P now licenseToken = None →
  verifyJwt P now activationCert = None →
  payload_of P licenseToken = Some d → jti d = Some j → token_expired d now = false →
  payload_of P activationCert = Some c → jti c = Some j → deviceId c = Some dev →
  live_license db j l → ¬ (l_exp l * 1000 < t) → parse_quotas l = Some q →
  quota_check tza today (dailyLimit q bucket) j bucket cost db = (db, Ok None) →
  activation_sessions db !! activationId = None →
  activate_start P now challenge activationId hostname (aud d) licenseToken (Some info) db =
    (set_activation_sessions
       (insert activationId
          {| s_jti := j; s_challenge := challenge; s_device_info := Some info |}) db,
     Ok (jsonResponse (Started activationId challenge hostname j) 200)) ∧
  (∃ db', heartbeat P now activationCert userIdHash db =
            (db', Ok (jsonResponse OkTrue 200))) ∧
  meter P tza t today now activationCert bucket cost db =
    (set_usage (λ rows, rows ++ [usage_row now j dev bucket cost]) db,
     Ok (jsonResponse Allowed 200)).
Proof.
  intros _ _ Hd Hj Hexp Hc Hcj Hdev Hl Hunexp Hpq Hq Hfresh.
  split_and!.
  - by eapply activate_start_passes.
  - destruct (heartbeat_runs P now activationCert userIdHash db c j dev)
      as (db' & Hrun & _); eauto.
  - by eapply meter_passes.
Qed.

Lemma unverified_tokens_are_trusted_witness :
  activate_start Demo.platform Demo.clock "c29tZSBjaGFsbGVuZ2U" "A1" "baas.example"
    (Some "p1") Demo.forged_license (Some "{}") (Demo.store Demo.no_quotas) =
    (set_activation_sessions
       (insert "A1" {| s_jti := "L1"; s_challenge := "c29tZSBjaGFsbGVuZ2U";
                       s_device_info := Some "{}" |}) (Demo.store Demo.no_quotas),
     Ok (jsonResponse (Started "A1" "c29tZSBjaGFsbGVuZ2U" "baas.example" "L1") 200)) ∧
  (∃ db', heartbeat Demo.platform Demo.clock Demo.forged_cert None
            (Demo.store Demo.no_quotas) = (db', Ok (jsonResponse OkTrue 200))) ∧
  meter Demo.platform 0 Demo.clock Demo.clock Demo.clock Demo.forged_cert "ai" 1
    (Demo.store Demo.no_quotas) =
    (set_usage (λ rows, rows ++ [usage_row Demo.clock "L1" "D1" "ai" 1])
       (Demo.store Demo.no_quotas),
     Ok (jsonResponse Allowed 200)).
Proof.
  apply (unverified_tokens_are_trusted Demo.platform Demo.clock "c29tZSBjaGFsbGVuZ2U" "A1"
           "baas.example" "{}" 0 Demo.clock Demo.clock "ai" 1 None
           (Demo.store Demo.no_quotas) Demo.forged_license Demo.forged_cert
           Demo.license_claims Demo.cert_claims "L1" "D1" (Demo.license Demo.no_quotas)
           Demo.no_quotas).
  - vm_compute; reflexivity.
  - vm_compute; reflexivity.
  - vm_compute; reflexivity.
  - reflexivity.
  - vm_compute; reflexivity.
  - vm_compute; reflexivity.
  - reflexivity.
  - reflexivity.
  - split; vm_compute; reflexivity.
  - vm_compute; discriminate.
  - reflexivity.
  - vm_compute; reflexivity.
  - vm_compute; reflexivity.
Defined.

(** X4.  [verifyJwt] returns a payload only for a token of at least three
    segments whose header names RS256, whose payload has not expired, and
    whose signature segment verifies over [header.payload]; the payload it
    returns is the decoded second segment. *)
Theorem verifyJwt_checks P now token d :
  verifyJwt P now token = Some d →
  ∃ headerB64 payloadB64 signatureB64 rest header,
    split_dot token = headerB64 :: payloadB64 :: signatureB64 :: rest ∧
    JSON_parse_atob P headerB64 = Some header ∧ alg header = Some "RS256" ∧
    JSON_parse_atob P payloadB64 = Some d ∧ token_expired d now = false ∧
    subtle_verify P signatureB64 (headerB64 +:+ "." +:+ payloadB64) = true.
Proof.
  unfold verifyJwt.
  destruct (split_dot token) as [|h [|p [|s rest]]]; try discriminate.
  destruct (JSON_parse_atob P h) as [header|] eqn:Hh; [|discriminate].
  destruct (JSON_parse_atob P p) as [payload|] eqn:Hp; [|discriminate].
  case_bool_decide as Halg; [discriminate|].
  fold (token_expired payload now).
  destruct (token_expired payload now) eqn:Hexp; [discriminate|].
  destruct (subtle_verify P s _) eqn:Hv; [|discriminate].
  intros [= <-]. exists h, p, s, rest, header.
  split_and!; done.
Qed.

Lemma verifyJwt_checks_witness :
  ∃ headerB64 payloadB64 signatureB64 rest header,
    split_dot (signJwt Demo.platform (RedeemedPayload "p1" "L1" "individual" 2000000000))
      = headerB64 :: payloadB64 :: signatureB64 :: rest ∧
    JSON_parse_atob Demo.platform headerB64 = Some header ∧ alg header = Some "RS256" ∧
    JSON_parse_atob Demo.platform payloadB64 = Some Demo.license_claims ∧
    token_expired Demo.license_claims Demo.clock = false ∧
    subtle_verify Demo.platform signatureB64 (headerB64 +:+ "." +:+ payloadB64) = true.
Proof.
  apply (verifyJwt_checks Demo.platform Demo.clock
           (signJwt Demo.platform (RedeemedPayload "p1" "L1" "individual" 2000000000))
           Demo.license_claims).
  vm_compute; reflexivity.
Defined.

(** [verifyJwt], which guards the developer API, does tell the tokens apart:
    it returns the payload of a token signed by [signJwt] and rejects the
    same payload under another signature. *)
Example verifyJwt_accepts_signed :
  verifyJwt Demo.platform Demo.clock Demo.license_token = Some Demo.license_claims ∧
  verifyJwt Demo.platform Demo.clock Demo.cert = Some Demo.cert_claims.
Proof. split; vm_compute; reflexivity. Qed.

Example verifyJwt_rejects_forged :
  verifyJwt Demo.platform Demo.clock Demo.forged_license = None ∧
  verifyJwt Demo.platform Demo.clock Demo.forged_cert = None.
Proof. split; vm_compute; reflexivity. Qed.

(** * Further properties *)

Module Base64Facts.
Import Base64.

Lemma list_ind3 {A} (P : list A → Prop) :
  P [] → (∀ a, P [a]) → (∀ a b, P [a; b]) →
  (∀ a b c l, P l → P (a :: b :: c :: l)) → ∀ l, P l.
Proof.
  intros H0 H1 H2 H3.
  cut (∀ l, P l ∧ (∀ a, P (a :: l)) ∧ (∀ a b, P (a :: b :: l))).
  { intros H l. apply H. }
  induction l as [|c l (IH0 & IH1 & IH2)]; [done|].
  split_and!; [apply IH1|intros a; apply IH2|intros a b; by apply H3].
Qed.

Lemma char_digit_digit_char n : (n < 64)%N → char_digit (digit_char n) = Some n.
Proof.
  intros Hn. rewrite <- (N2Nat.id n).
  assert (Hk : (N.to_nat n < 64)%nat) by lia.
  revert Hk. generalize (N.to_nat n). clear Hn. intros k Hk.
  do 64 (destruct k as [|k]; [vm_compute; reflexivity|]). lia.
Qed.

Lemma sextets_bounded codes :
  Forall (λ a, a < 256)%N codes → Forall (λ s, s < 64)%N (sextets codes).
Proof.
  induction codes as [|a|a b|a b c l IH] using list_ind3; intros Hall; cbn [sextets].
  - constructor.
  - apply Forall_cons in Hall as [Ha _].
    repeat constructor; zify; Z.to_euclidean_division_equations; lia.
  - apply Forall_cons in Hall as [Ha Hall]. apply Forall_cons in Hall as [Hb _].
    repeat constructor; zify; Z.to_euclidean_division_equations; lia.
  - apply Forall_cons in Hall as [Ha Hall]. apply Forall_cons in Hall as [Hb Hall].
    apply Forall_cons in Hall as [Hc Hall].
    repeat (constructor; [zify; Z.to_euclidean_division_equations; lia|]). by apply IH.
Qed.

Lemma octets_sextets codes :
  Forall (λ a, a < 256)%N codes → octets (sextets codes) = codes.
Proof.
  induction codes as [|a|a b|a b c l IH] using list_ind3; intros Hall;
    cbn [sextets octets].
  - done.
  - apply Forall_cons in Hall as [Ha _].
    f_equal. zify; Z.to_euclidean_division_equations; lia.
  - apply Forall_cons in Hall as [Ha Hall]. apply Forall_cons in Hall as [Hb _].
    f_equal; [|f_equal]; zify; Z.to_euclidean_division_equations; lia.
  - apply Forall_cons in Hall as [Ha Hall]. apply Forall_cons in Hall as [Hb Hall].
    apply Forall_cons in Hall as [Hc Hall].
    rewrite IH by done.
    f_equal; [|f_equal; [|f_equal]]; zify; Z.to_euclidean_division_equations; lia.
Qed.

Lemma sextets_length codes :
  length (sextets codes) = ((4 * length codes + 2) / 3)%nat.
Proof.
  induction codes as [|a|a b|a b c l IH] using list_ind3; cbn [sextets length];
    try reflexivity.
  rewrite IH.
  replace (4 * S (S (S (length l))) + 2)%nat with (4 * 3 + (4 * length l + 2))%nat by lia.
  rewrite Nat.div_add_l by lia. reflexivity.
Qed.


Lemma chars_app s t :
  String.list_ascii_of_string (s +:+ t) =
    String.list_ascii_of_string s ++ String.list_ascii_of_string t.
Proof. induction s as [|c s IH]; simpl; [done|]. by rewrite IH. Qed.

(** [replace(/c/g, by)] acts character by character. *)
Lemma replaceAll_chars c by_ s :
  String.list_ascii_of_string (replaceAll c by_ s) =
    String.list_ascii_of_string s ≫=
      (λ x, if decide (x = c) then String.list_ascii_of_string by_ else [x]).
Proof.
  induction s as [|x s IH]; cbn [replaceAll String.list_ascii_of_string]; [done|].
  rewrite bind_cons. case_decide.
  - by rewrite chars_app, IH.
  - cbn [String.list_ascii_of_string app]. by rewrite IH.
Qed.

Lemma bind_singletons {A B} (h k : A → B) (F : B → list B) (Q : A → Prop) (l : list A) :
  (∀ x, Q x → F (h x) = [k x]) → Forall Q l → (h <$> l) ≫= F = k <$> l.
Proof.
  intros HF. induction 1 as [|x l Hx _ IH]; [done|].
  rewrite !fmap_cons, bind_cons, IH, HF by done. done.
Qed.

Lemma below_64 (Q : N → Prop) `{!∀ n, Decision (Q n)} :
  forallb (λ k, bool_decide (Q (N.of_nat k))) (seq 0 64) = true →
  ∀ n, (n < 64)%N → Q n.
Proof.
  intros Hall n Hn. rewrite forallb_forall in Hall.
  rewrite <- (N2Nat.id n). eapply bool_decide_eq_true_1, Hall.
  apply in_seq. lia.
Qed.

Lemma to_url_digit n : (n < 64)%N → to_url (digit_char n) = [url_char n].
Proof. revert n. apply (below_64 (λ n, to_url (digit_char n) = [url_char n])). by vm_compute. Qed.

Lemma from_url_char n : (n < 64)%N → from_url (url_char n) = [digit_char n].
Proof. revert n. apply (below_64 (λ n, from_url (url_char n) = [digit_char n])). by vm_compute. Qed.

Lemma url_char_plain n :
  (n < 64)%N → url_char n ≠ "-"%char → url_char n ≠ "_"%char → url_char n = digit_char n.
Proof.
  revert n.
  apply (below_64 (λ n, url_char n ≠ "-"%char → url_char n ≠ "_"%char →
                        url_char n = digit_char n)).
  by vm_compute.
Qed.

Lemma digit_char_plain n :
  (n < 64)%N → digit_char n ≠ "="%char ∧ ¬ whitespace (digit_char n).
Proof.
  revert n.
  apply (below_64 (λ n, digit_char n ≠ "="%char ∧ ¬ whitespace (digit_char n))).
  by vm_compute.
Qed.

Lemma url_char_plain_text n :
  (n < 64)%N → url_char n ≠ "="%char ∧ ¬ whitespace (url_char n).
Proof.
  revert n.
  apply (below_64 (λ n, url_char n ≠ "="%char ∧ ¬ whitespace (url_char n))).
  by vm_compute.
Qed.

Lemma url_char_safe n : url_safe (url_char n).
Proof.
  unfold url_safe, url_char.
  destruct (url_alphabet !! N.to_nat n) as [c|] eqn:Hc; simpl.
  - by eapply list_elem_of_lookup_2.
  - by vm_compute; left.
Qed.

Lemma codes_bounded s : Forall (λ a, a < 256)%N (codes s).
Proof. unfold codes. apply Forall_fmap, Forall_true. intros c. apply N_ascii_bounded. Qed.

Lemma padding_removed n :
  ((padding n ≫= (λ x : ascii, if decide (x = "+"%char) then ["-"%char] else [x]))
            ≫= (λ x : ascii, if decide (x = "/"%char) then ["_"%char] else [x]))
            ≫= (λ x : ascii, if decide (x = "="%char) then [] else [x]) = [].
Proof. unfold padding. by destruct (n mod 3)%nat as [|[|[|?]]]. Qed.

Lemma bind_chain3 {A} (f1 f2 f3 : A → list A) (l : list A) :
  ((l ≫= f1) ≫= f2) ≫= f3 = l ≫= (λ x, (([x] ≫= f1) ≫= f2) ≫= f3).
Proof.
  induction l as [|x l IH]; [done|].
  rewrite !bind_cons, !bind_app, IH. f_equal.
  cbn [mbind list_bind]. by rewrite !app_nil_r.
Qed.

Lemma bind_chain2 {A} (f1 f2 : A → list A) (l : list A) :
  (l ≫= f1) ≫= f2 = l ≫= (λ x, ([x] ≫= f1) ≫= f2).
Proof.
  induction l as [|x l IH]; [done|].
  rewrite !bind_cons, !bind_app, IH. f_equal.
  cbn [mbind list_bind]. by rewrite !app_nil_r.
Qed.

(** The text of [encodeBase64Url]: the URL-safe digits of the sextets, no
    padding. *)
Lemma encodeBase64Url_chars buf :
  String.list_ascii_of_string (encodeBase64Url buf) =
    url_char <$> sextets (codes (String.string_of_list_byte buf)).
Proof.
  unfold encodeBase64Url, btoa. fold (codes (String.string_of_list_byte buf)).
  set (cs := codes (String.string_of_list_byte buf)).
  rewrite !replaceAll_chars, String.list_ascii_of_string_of_list_ascii.
  rewrite !bind_app, padding_removed, app_nil_r.
  rewrite bind_chain3. fold to_url.
  apply (bind_singletons _ _ _ (λ n, n < 64)%N).
  - apply to_url_digit.
  - apply sextets_bounded, codes_bounded.
Qed.

Lemma filter_all {A} (Q : A → Prop) `{!∀ x, Decision (Q x)} (l : list A) :
  Forall Q l → filter Q l = l.
Proof.
  induction 1 as [|x l Hx _ IH]; [done|].
  by rewrite filter_cons_True, IH.
Qed.

Lemma strip_padding_plain data :
  Forall (λ c, c ≠ "="%char) data → strip_padding data = data.
Proof.
  intros Hall. unfold strip_padding. case_decide; [|done].
  destruct (reverse data) as [|x [|y r]] eqn:Hrev; [done|..].
  all: assert (x ≠ "="%char)
    by (eapply (Forall_forall (λ c, c ≠ "="%char)); [exact Hall|];
        apply elem_of_reverse; rewrite Hrev; left).
  all: by rewrite decide_False.
Qed.

Lemma sextets_length_mod codes : (length (sextets codes) mod 4 ≠ 1)%nat.
Proof.
  induction codes as [|a|a b|a b c l IH] using list_ind3; cbn [sextets length];
    try (by vm_compute).
  change (S (S (S (S ?n)))) with (1 * 4 + n)%nat.
  by rewrite Nat.add_comm, Nat.Div0.mod_add.
Qed.

(** [atob] of the standard digits of the sextets of a byte string gives the
    string back. *)
Lemma atob_digits s :
  atob (String.string_of_list_ascii (digit_char <$> sextets (codes s))) = Some s.
Proof.
  unfold atob. rewrite String.list_ascii_of_string_of_list_ascii.
  pose proof (sextets_bounded _ (codes_bounded s)) as Hb.
  rewrite filter_all; cycle 1.
  { apply Forall_fmap. eapply Forall_impl; [exact Hb|].
    intros n Hn. by apply digit_char_plain. }
  rewrite strip_padding_plain; cycle 1.
  { apply Forall_fmap. eapply Forall_impl; [exact Hb|].
    intros n Hn. by apply digit_char_plain. }
  rewrite decide_False by (rewrite length_fmap; apply sextets_length_mod).
  rewrite mapM_fmap_Forall_Some; cycle 1.
  { eapply Forall_impl; [exact Hb|]. intros n Hn. by apply char_digit_digit_char. }
  cbn. rewrite octets_sextets by apply codes_bounded.
  unfold codes. rewrite <- list_fmap_compose.
  rewrite (list_fmap_ext _ id (String.list_ascii_of_string s)); cycle 1.
  { intros i c _. apply ascii_N_embedding. }
  rewrite list_fmap_id, String.string_of_list_ascii_of_string. done.
Qed.


Lemma String_length_chars s : String.length s = length (String.list_ascii_of_string s).
Proof. induction s as [|c s IH]; simpl; [done|]. by rewrite IH. Qed.

Lemma codes_length buf : length (codes (String.string_of_list_byte buf)) = length buf.
Proof.
  unfold codes, String.string_of_list_byte.
  by rewrite length_fmap, String.list_ascii_of_string_of_list_ascii, length_map.
Qed.

Lemma url_safe_plain c :
  url_safe c → c ≠ "."%char ∧ c ≠ "="%char ∧ c ≠ "+"%char ∧ c ≠ "/"%char.
Proof.
  unfold url_safe. revert c. apply Forall_forall.
  apply (bool_decide_eq_true_1 _). by vm_compute.
Qed.

Lemma url_text_plain buf :
  Forall (λ c, c ≠ "="%char ∧ ¬ whitespace c)
    (String.list_ascii_of_string (encodeBase64Url buf)).
Proof.
  rewrite encodeBase64Url_chars. apply Forall_fmap.
  eapply Forall_impl; [apply sextets_bounded, codes_bounded|].
  intros n Hn. by apply url_char_plain_text.
Qed.

End Base64Facts.

(** X5.  [decodeBase64Url] undoes [encodeBase64Url]: whatever the bytes,
    decoding the text that encodes them gives the same bytes back. *)
Theorem base64url_round_trip buf :
  Base64.decodeBase64Url (Base64.encodeBase64Url buf) = Some buf.
Proof.
  unfold Base64.decodeBase64Url.
  rewrite <- (String.string_of_list_ascii_of_string
                (Base64.replaceAll _ _ (Base64.replaceAll _ _ _))).
  rewrite !Base64Facts.replaceAll_chars, Base64Facts.encodeBase64Url_chars.
  rewrite Base64Facts.bind_chain2. fold Base64.from_url.
  rewrite (Base64Facts.bind_singletons _ Base64.digit_char _ (λ n, n < 64)%N).
  - rewrite Base64Facts.atob_digits. cbn.
    by rewrite String.list_byte_of_string_of_list_byte.
  - apply Base64Facts.from_url_char.
  - apply Base64Facts.sextets_bounded, Base64Facts.codes_bounded.
Qed.

(** X6.  The text [encodeBase64Url] makes has only letters, digits, [-]
    and [_]: no dot, so it is one segment of a token, and no [=], [+] or [/].
    For [n] bytes it has [ceil (4 n / 3)] characters. *)
Theorem base64url_text buf :
  Forall Base64.url_safe (String.list_ascii_of_string (Base64.encodeBase64Url buf)) ∧
  Forall (λ c, c ≠ "."%char ∧ c ≠ "="%char ∧ c ≠ "+"%char ∧ c ≠ "/"%char)
    (String.list_ascii_of_string (Base64.encodeBase64Url buf)) ∧
  String.length (Base64.encodeBase64Url buf) = ((4 * length buf + 2) / 3)%nat.
Proof.
  assert (Hsafe : Forall Base64.url_safe
            (String.list_ascii_of_string (Base64.encodeBase64Url buf))).
  { rewrite Base64Facts.encodeBase64Url_chars. apply Forall_fmap, Forall_true.
    intros n. apply Base64Facts.url_char_safe. }
  split_and!.
  - exact Hsafe.
  - eapply Forall_impl; [exact Hsafe|]. apply Base64Facts.url_safe_plain.
  - rewrite Base64Facts.String_length_chars, Base64Facts.encodeBase64Url_chars.
    by rewrite length_fmap, Base64Facts.sextets_length, Base64Facts.codes_length.
Qed.

(** X7.  [atob] applied to the text of [encodeBase64Url] as it is, the way
    the handlers read a token's payload, throws exactly when the text has a
    [-] or a [_]; otherwise it gives the encoded bytes as a binary string. *)
Theorem atob_of_url_text buf :
  Base64.atob (Base64.encodeBase64Url buf) =
    if bool_decide (Exists (λ c, c = "-"%char ∨ c = "_"%char)
                      (String.list_ascii_of_string (Base64.encodeBase64Url buf)))
    then None
    else Some (String.string_of_list_byte buf).
Proof.
  pose proof (Base64Facts.url_text_plain buf) as Hplain.
  case_bool_decide as Hurl.
  - unfold Base64.atob.
    rewrite Base64Facts.filter_all by (eapply Forall_impl; [exact Hplain|]; by intros c []).
    rewrite Base64Facts.strip_padding_plain
      by (eapply Forall_impl; [exact Hplain|]; by intros c []).
    case_decide; [done|].
    rewrite (mapM_None_2 Base64.char_digit); [done|].
    eapply Exists_impl; [exact Hurl|].
    by intros c [-> | ->]; vm_compute.
  - rewrite <- (String.string_of_list_ascii_of_string (Base64.encodeBase64Url buf)).
    rewrite Base64Facts.encodeBase64Url_chars in Hurl |- *.
    rewrite (Forall_fmap_ext_1 Base64.url_char Base64.digit_char).
    + apply Base64Facts.atob_digits.
    + pose proof (Base64Facts.sextets_bounded _
                    (Base64Facts.codes_bounded (String.string_of_list_byte buf))) as Hb.
      apply Forall_forall. intros n Hin.
      apply Base64Facts.url_char_plain.
      * by eapply (Forall_forall (λ s, s < 64)%N).
      * intros Heq. apply Hurl, Exists_exists. exists (Base64.url_char n).
        split; [by apply list_elem_of_fmap_2|by left].
      * intros Heq. apply Hurl, Exists_exists. exists (Base64.url_char n).
        split; [by apply list_elem_of_fmap_2|by right].
Qed.
(** ** Tokens: segments, signing and verifying *)
Section TokenShape.
Context (P : Platform).

Lemma append_assoc (s t u : string) : (s +:+ t) +:+ u = s +:+ t +:+ u.
Proof.
  induction s as [|c s IH]; [done|].
  change (String c (s +:+ t) +:+ u = String c (s +:+ t +:+ u)).
  change (String c ((s +:+ t) +:+ u) = String c (s +:+ t +:+ u)). by rewrite IH.
Qed.

Lemma split_dot_cons s : ∃ seg segs, split_dot s = seg :: segs.
Proof.
  induction s as [|c s (seg & segs & IH)]; cbn [split_dot]; [eauto|].
  case_bool_decide; [eauto|]. rewrite IH. eauto.
Qed.

Lemma split_dot_dotless s : dotless s → split_dot s = [s].
Proof.
  unfold dotless. induction s as [|c s IH]; cbn [split_dot String.list_ascii_of_string];
    [done|].
  intros Hc. apply not_elem_of_cons in Hc as [Hc Hs].
  rewrite bool_decide_eq_false_2 by done. by rewrite IH.
Qed.

Lemma split_dot_app s t : dotless s → split_dot (s +:+ "." +:+ t) = s :: split_dot t.
Proof.
  unfold dotless. induction s as [|c s IH]; cbn [String.list_ascii_of_string].
  - intros _. reflexivity.
  - intros Hc. apply not_elem_of_cons in Hc as [Hc Hs].
    change (String c s +:+ "." +:+ t) with (String c (s +:+ "." +:+ t)).
    cbn [split_dot]. rewrite bool_decide_eq_false_2 by done. by rewrite IH.
Qed.

Lemma encodedHeader_dotless : dotless encodedHeader.
Proof. apply (bool_decide_eq_true_1 _). by vm_compute. Qed.

Lemma signJwt_segments payload :
  dotless (encode_payload P payload) →
  dotless (subtle_sign P (encodedHeader +:+ "." +:+ encode_payload P payload)) →
  split_dot (signJwt P payload) =
    [encodedHeader; encode_payload P payload;
     subtle_sign P (encodedHeader +:+ "." +:+ encode_payload P payload)].
Proof.
  intros Hp Hs. unfold signJwt. cbv zeta.
  rewrite !append_assoc.
  rewrite split_dot_app by apply encodedHeader_dotless.
  rewrite split_dot_app by done.
  by rewrite split_dot_dotless.
Qed.


End TokenShape.



(** ** The check of admin requests *)
Section Admin.


End Admin.


(** Unfolds a statement of the store and runs its branches. *)
Ltac run_statement :=
  intros db0 HI; unfold_M; cbn [fst]; repeat case_match; simplify_eq; cbn [fst];
  try done.

(** ** Published revocations *)
Section Published.
Context (P : Platform).

Lemma license_kept_stays j l reqs db :
  license_kept j l db → license_kept j l (after P reqs db).
Proof.
  apply (after_preserves P (license_kept j l)).
  - intros id s. unfold insert_session. run_statement.
  - intros id a. unfold insert_activation. run_statement.
  - intros ts j' d. unfold update_last_seen. run_statement.
  - intros j' d h. unfold insert_or_ignore_user. run_statement.
  - intros u. unfold insert_usage. run_statement.
  - intros j' l'. unfold insert_license. run_statement.
    all: destruct HI as (l0 & Hl & Hr); exists l0; split; [|done].
    all: cbn; rewrite lookup_insert_ne; [done|]; intros ->.
    all: match goal with
         | H : bool_decide (is_Some _) = false |- _ =>
             rewrite bool_decide_eq_false in H; apply H; eauto
         end.
  - intros code. unfold increment_coupon. run_statement.
  - intros id a. unfold insert_agency. run_statement.
  - intros code c. unfold insert_coupon. run_statement.
  - intros j'. unfold batch_revoke. run_statement.
    destruct HI as (l0 & Hl & Hr).
    destruct (decide (j' = j)) as [->|Hne].
    + exists (revoke_license l0). cbn. rewrite lookup_alter_eq, Hl.
      split; [done|]. right. by destruct Hr as [-> | ->].
    + exists l0. cbn. by rewrite lookup_alter_ne.
Qed.

Lemma select_revoked_spec p db :
  ∃ revoked,
    select_revoked p db = (db, Ok revoked) ∧ NoDup revoked ∧
    ∀ j, j ∈ revoked ↔
         ∃ l, licenses db !! j = Some l ∧ l_project_id l = p ∧ l_revoked l = true.
Proof.
  unfold select_revoked; unfold_M. eexists. split; [reflexivity|]. split.
  - apply NoDup_fst_map_to_list.
  - intros j. rewrite list_elem_of_fmap. split.
    + intros ([j' l] & -> & Hin). apply elem_of_map_to_list in Hin.
      apply map_lookup_filter_Some in Hin as [Hl [Hp Hr]]. eauto.
    + intros (l & Hl & Hp & Hr). exists (j, l). split; [done|].
      apply elem_of_map_to_list, map_lookup_filter_Some. done.
Qed.

Lemma revocations_of_project now p db :
  p ≠ "" →
  ∃ revoked,
    revocations now (Some p) db = (db, Ok (jsonResponse (Revocations revoked now) 200)) ∧
    NoDup revoked ∧
    ∀ j, j ∈ revoked ↔
         ∃ l, licenses db !! j = Some l ∧ l_project_id l = p ∧ l_revoked l = true.
Proof.
  intros Hp.
  destruct (select_revoked_spec p db) as (revoked & Hsel & Hnd & Hin).
  exists revoked. split; [|done].
  unfold revocations, truthy_str. rewrite bool_decide_eq_true_2 by done.
  cbn [negb default]. unfold id.
  by rewrite (bind_ok _ _ _ _ _ Hsel).
Qed.

End Published.

(** X10.  [GET /v1/revocations] answers 400 without a [projectId];
    otherwise 200 with, each once, the ids of exactly the licences of that
    project that are revoked, and the reading of the clock.  It writes
    nothing. *)
Theorem revocations_answer now projectId db :
  (truthy_str projectId = false →
   revocations now projectId db =
     (db, Ok (jsonResponse (ErrorBody "projectId is required") 400))) ∧
  (∀ p, projectId = Some p → p ≠ "" →
     ∃ revoked,
       revocations now projectId db =
         (db, Ok (jsonResponse (Revocations revoked now) 200)) ∧
       NoDup revoked ∧
       ∀ j, j ∈ revoked ↔
            ∃ l, licenses db !! j = Some l ∧ l_project_id l = p ∧ l_revoked l = true).
Proof.
  split.
  - intros Hp. unfold revocations. by rewrite Hp.
  - intros p -> Hp. by apply revocations_of_project.
Qed.

(** X11.  Once [POST /admin/licenses/revoke] has answered for a licence,
    the licence's id is in the revocations of its project, also after any
    further requests. *)
Theorem revocation_is_published P j l p reqs now db :
  licenses db !! j = Some l → l_project_id l = p → p ≠ "" →
  ∃ db1 revoked,
    licenses_revoke true (Some j) db = (db1, Ok (jsonResponse (RevokedOk j) 200)) ∧
    revocations now (Some p) (after P reqs db1) =
      (after P reqs db1, Ok (jsonResponse (Revocations revoked now) 200)) ∧
    j ∈ revoked.
Proof.
  intros Hl Hp Hne.
  destruct (revocations_of_project now p (after P reqs (batch_revoke j db).1) Hne)
    as (revoked & Hrun & _ & Hin).
  exists (batch_revoke j db).1, revoked. split_and!; [reflexivity|exact Hrun|].
  apply Hin.
  destruct (license_kept_stays P j (revoke_license l) reqs (batch_revoke j db).1)
    as (l' & Hl' & Hterms).
  { exists (revoke_license l). split; [|by left].
    unfold batch_revoke; unfold_M. cbn. by rewrite lookup_alter_eq, Hl. }
  exists l'. split; [done|]. by destruct Hterms as [-> | ->].
Qed.

Lemma revocation_is_published_witness :
  ∃ db1 revoked,
    licenses_revoke true (Some "L1") Demo.bound_store =
      (db1, Ok (jsonResponse (RevokedOk "L1") 200)) ∧
    revocations Demo.clock (Some "p1")
      (after Demo.platform
         [Heartbeat Demo.clock Demo.cert None;
          Meter 0 Demo.clock Demo.clock Demo.clock Demo.cert "ai" 1] db1) =
      (after Demo.platform
         [Heartbeat Demo.clock Demo.cert None;
          Meter 0 Demo.clock Demo.clock Demo.clock Demo.cert "ai" 1] db1,
       Ok (jsonResponse (Revocations revoked Demo.clock) 200)) ∧
    "L1" ∈ revoked.
Proof.
  apply (revocation_is_published Demo.platform "L1" (Demo.license Demo.no_quotas) "p1").
  - by vm_compute.
  - reflexivity.
  - discriminate.
Defined.

(** ** Coupons *)
Section Coupons.
Context (P : Platform).

Lemma coupons_redeem_passes now now' j code project c db :
  code ≠ "" → project ≠ "" →
  coupon_codes db !! code = Some c → c_project_id c = project →
  c_current_uses c < c_max_uses c → expired_at c now = false →
  licenses db !! j = None →
  coupons_redeem P now now' j (Some code) (Some project) db =
    (set_coupon_codes (alter bump_coupon code)
       (set_licenses
          (insert j (redeemed_license project (c_plan c) (redeem_exp now' (c_plan c)))) db),
     Ok (redeem_token P project j (redeem_exp now' (c_plan c)))).
Proof.
  intros Hcode Hproj Hc Hp Hlt Hexp Hfresh. unfold coupons_redeem.
  rewrite (bind_ok _ _ _ _ _ (redeem_select_passes _ _ _ _ _ Hcode Hproj Hc Hp Hlt Hexp)).
  cbn [default]. unfold id.
  rewrite (bind_ok _ _ _ _ _ (insert_license_fresh _ _ _ _ _ Hfresh)).
  reflexivity.
Qed.

Lemma coupons_redeem_exhausted now now' j code project c db :
  code ≠ "" → project ≠ "" →
  coupon_codes db !! code = Some c → c_project_id c = project →
  c_max_uses c ≤ c_current_uses c →
  coupons_redeem P now now' j (Some code) (Some project) db =
    (db, Ok (jsonResponse
               (ErrorBody "This coupon has reached its maximum number of uses.") 403)).
Proof.
  intros Hcode Hproj Hc Hp Hge.
  unfold coupons_redeem, redeem_select, truthy_str.
  rewrite !bool_decide_eq_true_2 by done. cbn [negb orb default]. unfold id.
  unfold select_coupon; unfold_M. rewrite Hc.
  rewrite bool_decide_eq_true_2 by done.
  rewrite (bool_decide_eq_true_2 (_ >= _)) by lia. reflexivity.
Qed.

Lemma redeem_calls_fill code project draws : ∀ c db,
  code ≠ "" → project ≠ "" →
  coupon_codes db !! code = Some c → c_project_id c = project →
  c_current_uses c + Z.of_nat (length draws) ≤ c_max_uses c →
  Forall (λ d, expired_at c d.1.1 = false) draws →
  NoDup (draws.*2) → Forall (λ d, licenses db !! d.2 = None) draws →
  ∃ db' c',
    redeem_calls P draws (Some code) (Some project) db =
      (db', Ok ((λ d, redeem_token P project d.2 (redeem_exp d.1.2 (c_plan c))) <$> draws)) ∧
    coupon_codes db' !! code = Some c' ∧
    c_current_uses c' = c_current_uses c + Z.of_nat (length draws) ∧
    c_max_uses c' = c_max_uses c ∧ c_project_id c' = c_project_id c ∧
    (∀ j, is_Some (licenses db' !! j) ↔ is_Some (licenses db !! j) ∨ j ∈ draws.*2).
Proof.
  induction draws as [|[[now now'] j] draws IH];
    intros c db Hcode Hproj Hc Hp Hle Hexp Hnd Hfresh.
  - exists db, c. cbn. split_and!; try done; [lia|].
    intros j. rewrite elem_of_nil. tauto.
  - apply Forall_cons in Hexp as [Hexp1 Hexp]. cbn in Hexp1.
    apply Forall_cons in Hfresh as [Hfresh1 Hfresh]. cbn in Hfresh1.
    rewrite fmap_cons in Hnd. apply NoDup_cons in Hnd as [Hnotin Hnd]. cbn in Hnotin.
    rewrite length_cons in Hle.
    set (db1 := set_coupon_codes (alter bump_coupon code)
                  (set_licenses
                     (insert j (redeemed_license project (c_plan c)
                                  (redeem_exp now' (c_plan c)))) db)).
    destruct (IH (bump_coupon c) db1)
      as (db' & c' & Hrun & Hc' & Huses & Hmax & Hproj' & Hlic); try done.
    + cbn. rewrite lookup_alter_eq, Hc. reflexivity.
    + cbn. lia.
    + apply Forall_forall. intros d Hd. cbn.
      rewrite lookup_insert_ne.
      * by eapply (Forall_forall (λ d, licenses db !! d.2 = None)).
      * intros Heq. apply Hnotin. rewrite Heq. by apply list_elem_of_fmap_2.
    + exists db', c'. split_and!; try done.
      * cbn [redeem_calls].
        erewrite bind_ok; [|apply coupons_redeem_passes; try done; lia].
        fold db1. erewrite bind_ok; [|exact Hrun]. reflexivity.
      * rewrite Huses. cbn. lia.
      * intros j0. rewrite Hlic.
        change (((now, now', j) :: draws).*2) with (j :: draws.*2).
        rewrite elem_of_cons. subst db1. cbn [licenses set_coupon_codes set_licenses].
        destruct (decide (j0 = j)) as [->|Hne].
        -- rewrite lookup_insert_eq. split; [auto|]. intros _. left. eauto.
        -- rewrite lookup_insert_ne by done. tauto.
Qed.

End Coupons.

(** X12.  A coupon that has [n] uses left serves [n] redemptions run one
    after the other with fresh licence ids: each returns its token, the
    licences are the earlier ones and the [n] new ones, [current_uses] ends
    equal to [max_uses], and the next redemption is refused with 403 and
    changes nothing. *)
Theorem coupon_allows_exactly_max_uses P code project c draws now1 now1' j1 db :
  code ≠ "" → project ≠ "" →
  coupon_codes db !! code = Some c → c_project_id c = project →
  c_current_uses c + Z.of_nat (length draws) = c_max_uses c →
  Forall (λ d, expired_at c d.1.1 = false) draws →
  NoDup (draws.*2) → Forall (λ d, licenses db !! d.2 = None) draws →
  ∃ db' c',
    redeem_calls P draws (Some code) (Some project) db =
      (db', Ok ((λ d, redeem_token P project d.2 (redeem_exp d.1.2 (c_plan c))) <$> draws)) ∧
    coupon_codes db' !! code = Some c' ∧
    c_current_uses c' = c_max_uses c ∧ c_max_uses c' = c_max_uses c ∧
    (∀ j, is_Some (licenses db' !! j) ↔ is_Some (licenses db !! j) ∨ j ∈ draws.*2) ∧
    coupons_redeem P now1 now1' j1 (Some code) (Some project) db' =
      (db', Ok (jsonResponse
                  (ErrorBody "This coupon has reached its maximum number of uses.") 403)).
Proof.
  intros Hcode Hproj Hc Hp Hsum Hexp Hnd Hfresh.
  destruct (redeem_calls_fill P code project draws c db)
    as (db' & c' & Hrun & Hc' & Huses & Hmax & Hproj' & Hlic); try done; [lia|].
  exists db', c'. split_and!; try done; [lia|].
  eapply coupons_redeem_exhausted; try done; [congruence|lia].
Qed.

Lemma coupon_allows_exactly_max_uses_witness :
  ∃ db' c',
    redeem_calls Demo.platform
      [(Demo.clock, Demo.clock, "L-A"); (Demo.clock + 1000, Demo.clock + 1000, "L-B");
       (Demo.clock + 2000, Demo.clock + 2000, "L-C")]
      (Some "WELCOME") (Some "p1")
      (set_coupon_codes (insert "WELCOME" Demo2.three_uses) Demo.empty_db) =
      (db', Ok ((λ d, redeem_token Demo.platform "p1" d.2
                        (redeem_exp d.1.2 (c_plan Demo2.three_uses))) <$>
                [(Demo.clock, Demo.clock, "L-A");
                 (Demo.clock + 1000, Demo.clock + 1000, "L-B");
                 (Demo.clock + 2000, Demo.clock + 2000, "L-C")])) ∧
    coupon_codes db' !! "WELCOME" = Some c' ∧
    c_current_uses c' = c_max_uses Demo2.three_uses ∧
    c_max_uses c' = c_max_uses Demo2.three_uses ∧
    (∀ j, is_Some (licenses db' !! j) ↔
          is_Some (licenses (set_coupon_codes (insert "WELCOME" Demo2.three_uses)
                               Demo.empty_db) !! j) ∨
          j ∈ [(Demo.clock, Demo.clock, "L-A");
               (Demo.clock + 1000, Demo.clock + 1000, "L-B");
               (Demo.clock + 2000, Demo.clock + 2000, "L-C")].*2) ∧
    coupons_redeem Demo.platform (Demo.clock + 3000) (Demo.clock + 3000) "L-D"
      (Some "WELCOME") (Some "p1") db' =
      (db', Ok (jsonResponse
                  (ErrorBody "This coupon has reached its maximum number of uses.") 403)).
Proof.
  apply (coupon_allows_exactly_max_uses Demo.platform "WELCOME" "p1" Demo2.three_uses).
  - discriminate.
  - discriminate.
  - by vm_compute.
  - reflexivity.
  - reflexivity.
  - repeat constructor.
  - apply (bool_decide_eq_true_1 _). by vm_compute.
  - repeat constructor.
Defined.

(** X13.  Whatever requests are handled, a coupon stays in the store with
    its project, plan, [max_uses] and [expires_at], and its [current_uses]
    never goes down. *)
Theorem coupon_terms_fixed P code c reqs db :
  coupon_codes db !! code = Some c →
  ∃ c', coupon_codes (after P reqs db) !! code = Some c' ∧
        c_project_id c' = c_project_id c ∧ c_plan c' = c_plan c ∧
        c_max_uses c' = c_max_uses c ∧ c_expires_at c' = c_expires_at c ∧
        c_current_uses c ≤ c_current_uses c'.
Proof.
  intros Hc. apply (after_preserves P (coupon_kept code c)).
  - intros id s. unfold insert_session. run_statement.
  - intros id a. unfold insert_activation. run_statement.
  - intros ts j' d. unfold update_last_seen. run_statement.
  - intros j' d h. unfold insert_or_ignore_user. run_statement.
  - intros u. unfold insert_usage. run_statement.
  - intros j' l'. unfold insert_license. run_statement.
  - intros code'. unfold increment_coupon. run_statement.
    destruct HI as (c0 & Hc0 & Hp & Hplan & Hmax & Hexp & Huses).
    destruct (decide (code' = code)) as [->|Hne].
    + exists (bump_coupon c0). cbn. rewrite lookup_alter_eq, Hc0.
      split_and!; try done. cbn. lia.
    + exists c0. cbn. by rewrite lookup_alter_ne.
  - intros id a. unfold insert_agency. run_statement.
  - intros code' c0. unfold insert_coupon. run_statement.
    destruct HI as (c1 & Hc1 & Hrest). exists c1. split; [|done].
    cbn. rewrite lookup_insert_ne; [done|]. intros ->.
    match goal with
    | H : bool_decide (is_Some _) = false |- _ =>
        rewrite bool_decide_eq_false in H; apply H; eauto
    end.
  - intros j'. unfold batch_revoke. run_statement.
  - exists c. split_and!; try done.
Qed.

Lemma coupon_terms_fixed_witness :
  ∃ c', coupon_codes
          (after Demo.platform
             [CouponsRedeem Demo.clock Demo.clock "L-A" (Some "WELCOME") (Some "p1");
              CouponsCreate true (Some "WELCOME") (Some "p2") (Some 1) (Some Demo.no_quotas)
                (Some 100) None]
             Demo.coupon_store) !! "WELCOME" = Some c' ∧
        c_project_id c' = c_project_id Demo.coupon ∧ c_plan c' = c_plan Demo.coupon ∧
        c_max_uses c' = c_max_uses Demo.coupon ∧
        c_expires_at c' = c_expires_at Demo.coupon ∧
        c_current_uses Demo.coupon ≤ c_current_uses c'.
Proof.
  apply (coupon_terms_fixed Demo.platform "WELCOME" Demo.coupon).
  by vm_compute.
Defined.

(** X14.  The outcomes of [POST /v1/coupons/redeem]: it throws only on a
    licence id already taken, and has then written nothing; it answers 400,
    404 or 403 and has written nothing; or the coupon is of the project, has
    uses left and has not expired, and the store has one licence more, made
    from the coupon's plan, and one use more on that coupon, with the
    licence's token as the answer. *)
Theorem redeem_outcomes P now now' j couponCode projectId db db' out :
  coupons_redeem P now now' j couponCode projectId db = (db', out) →
  match out with
  | Throw e =>
      db' = db ∧ e = D1_ERROR "UNIQUE constraint failed: licenses.jti" ∧
      is_Some (licenses db !! j)
  | Ok r =>
      (db' = db ∧ (status r = 400 ∨ status r = 404 ∨ status r = 403)) ∨
      ∃ code project c,
        couponCode = Some code ∧ projectId = Some project ∧
        coupon_codes db !! code = Some c ∧ c_project_id c = project ∧
        c_current_uses c < c_max_uses c ∧ expired_at c now = false ∧
        licenses db !! j = None ∧
        db' = set_coupon_codes (alter bump_coupon code)
                (set_licenses
                   (insert j (redeemed_license project (c_plan c)
                                (redeem_exp now' (c_plan c)))) db) ∧
        r = redeem_token P project j (redeem_exp now' (c_plan c))
  end.
Proof.
  unfold coupons_redeem, redeem_select, select_coupon, insert_license, increment_coupon.
  unfold_M.
  destruct couponCode as [code|]; cbn [truthy_str negb orb];
    [|intros [= <- <-]; left; auto].
  case_bool_decide as Hcode; cbn [negb orb]; [|intros [= <- <-]; left; auto].
  destruct projectId as [project|]; cbn [truthy_str negb];
    [|intros [= <- <-]; left; auto].
  case_bool_decide as Hproj; cbn [negb]; [|intros [= <- <-]; left; auto].
  cbn [default]. unfold id.
  destruct (coupon_codes db !! code) as [c|] eqn:Hc; [|intros [= <- <-]; left; auto].
  case_bool_decide as Hp; [|intros [= <- <-]; left; auto].
  case_bool_decide as Hge; [intros [= <- <-]; left; auto|].
  fold (expired_at c now).
  destruct (expired_at c now) eqn:Hexp; [intros [= <- <-]; left; auto|].
  cbn [l_type l_agency_id redeemed_license].
  rewrite (bool_decide_eq_false_2 (_ ∧ _)) by (intros [_ ?]; done).
  case_bool_decide as Hdup; [intros [= <- <-]; done|].
  intros [= <- <-]. right. exists code, project, c.
  split_and!; try done; [lia|].
  by apply eq_None_not_Some.
Qed.

Lemma redeem_outcomes_witness :
  match Ok (redeem_token Demo.platform "p1" "L-A" 1796284800) with
  | Throw e =>
      Demo2.redeemed_store = Demo.coupon_store ∧
      e = D1_ERROR "UNIQUE constraint failed: licenses.jti" ∧
      is_Some (licenses Demo.coupon_store !! "L-A")
  | Ok r =>
      (Demo2.redeemed_store = Demo.coupon_store ∧
       (status r = 400 ∨ status r = 404 ∨ status r = 403)) ∨
      ∃ code project c,
        Some "WELCOME" = Some code ∧ Some "p1" = Some project ∧
        coupon_codes Demo.coupon_store !! code = Some c ∧ c_project_id c = project ∧
        c_current_uses c < c_max_uses c ∧ expired_at c Demo.clock = false ∧
        licenses Demo.coupon_store !! "L-A" = None ∧
        Demo2.redeemed_store =
          set_coupon_codes (alter bump_coupon code)
            (set_licenses
               (insert "L-A" (redeemed_license project (c_plan c)
                                (redeem_exp Demo.clock (c_plan c))))
               Demo.coupon_store) ∧
        r = redeem_token Demo.platform project "L-A" (redeem_exp Demo.clock (c_plan c))
  end.
Proof.
  apply (redeem_outcomes Demo.platform Demo.clock Demo.clock "L-A" (Some "WELCOME")
           (Some "p1") Demo.coupon_store Demo2.redeemed_store
           (Ok (redeem_token Demo.platform "p1" "L-A" 1796284800))).
  by vm_compute.
Defined.

(** X15.  A coupon made by [POST /admin/coupons/create] can be redeemed at
    once: the licence issued is of type individual, of the coupon's project,
    with the plan's quotas, not revoked, and expires [durationDays] days after
    the redemption; the coupon then counts one use.  Creating a coupon under
    the same code again does not answer 201. *)
Theorem created_coupon_redeems P code p d q m expiresAt now now' j db :
  code ≠ "" → p ≠ "" → d ≠ 0 → 0 < m →
  coupon_codes db !! code = None → licenses db !! j = None →
  (∀ e, expiresAt = Some e → ¬ e * 1000 < now) →
  ∃ db1 db2 l c,
    coupons_create true (Some code) (Some p) (Some d) (Some q) (Some m) expiresAt db =
      (db1, Ok (jsonResponse (CouponCreated code) 201)) ∧
    coupons_redeem P now now' j (Some code) (Some p) db1 =
      (db2, Ok (redeem_token P p j (now' `div` 1000 + d * 24 * 60 * 60))) ∧
    licenses db2 !! j = Some l ∧
    l_project_id l = p ∧ l_type l = "individual" ∧ parse_quotas l = Some q ∧
    l_exp l = now' `div` 1000 + d * 24 * 60 * 60 ∧ l_revoked l = false ∧
    coupon_codes db2 !! code = Some c ∧ c_current_uses c = 1 ∧ c_max_uses c = m ∧
    (∀ code' p' d' q' m' e',
       ∃ err, coupons_create true (Some code) p' d' q' m' e' db2 = (db2, err) ∧
              err ≠ Ok (jsonResponse (CouponCreated code') 201)).
Proof.
  intros Hcode Hp Hd Hm Hnew Hfresh Hexp.
  set (c0 := {| c_project_id := p; c_plan := {| durationDays := d; plan_quotas := q |};
                c_max_uses := m; c_current_uses := 0;
                c_expires_at := or_else expiresAt None |}).
  set (db1 := set_coupon_codes (insert code c0) db).
  assert (Hcreate :
    coupons_create true (Some code) (Some p) (Some d) (Some q) (Some m) expiresAt db =
      (db1, Ok (jsonResponse (CouponCreated code) 201))).
  { unfold coupons_create, truthy_str, truthy.
    rewrite !bool_decide_eq_true_2 by (done || lia || eauto).
    cbn [negb orb default]. unfold id, insert_coupon; unfold_M.
    rewrite Hnew. rewrite bool_decide_eq_false_2 by (intros [? [=]]). reflexivity. }
  assert (Hredeem :
    coupons_redeem P now now' j (Some code) (Some p) db1 =
      (set_coupon_codes (alter bump_coupon code)
         (set_licenses
            (insert j (redeemed_license p (c_plan c0) (redeem_exp now' (c_plan c0)))) db1),
       Ok (redeem_token P p j (redeem_exp now' (c_plan c0))))).
  { apply coupons_redeem_passes; try done.
    - subst db1. cbn. by rewrite lookup_insert_eq.
    - unfold expired_at. subst c0. cbn [c_expires_at]. unfold or_else, truthy.
      destruct expiresAt as [e|]; [|done].
      case_bool_decide as He; [|done].
      rewrite (bool_decide_eq_false_2 (e * 1000 < now)) by (by apply Hexp).
      by rewrite andb_false_r. }
  eexists db1, _, _, _. split_and!.
  - exact Hcreate.
  - exact Hredeem.
  - cbn. by rewrite lookup_insert_eq.
  - reflexivity.
  - reflexivity.
  - reflexivity.
  - reflexivity.
  - reflexivity.
  - cbn. rewrite lookup_alter_eq, lookup_insert_eq. reflexivity.
  - reflexivity.
  - reflexivity.
  - intros code' p' d' q' m' e'. unfold coupons_create.
    destruct (negb _ || _ || _ || _ || _); cbn [negb].
    + eexists. split; [reflexivity|]. intros [=].
    + unfold insert_coupon; unfold_M. cbn [default]. unfold id.
      rewrite bool_decide_eq_true_2.
      * eexists. split; [reflexivity|]. intros [=].
      * cbn. rewrite lookup_alter_eq, lookup_insert_eq. eauto.
Qed.

Lemma created_coupon_redeems_witness :
  ∃ db1 db2 l c,
    coupons_create true (Some "SPRING") (Some "p1") (Some 30) (Some Demo.daily_100)
      (Some 2) None Demo.empty_db =
      (db1, Ok (jsonResponse (CouponCreated "SPRING") 201)) ∧
    coupons_redeem Demo.platform Demo.clock Demo.clock "L-A" (Some "SPRING") (Some "p1") db1 =
      (db2, Ok (redeem_token Demo.platform "p1" "L-A"
                  (Demo.clock `div` 1000 + 30 * 24 * 60 * 60))) ∧
    licenses db2 !! "L-A" = Some l ∧
    l_project_id l = "p1" ∧ l_type l = "individual" ∧
    parse_quotas l = Some Demo.daily_100 ∧
    l_exp l = Demo.clock `div` 1000 + 30 * 24 * 60 * 60 ∧ l_revoked l = false ∧
    coupon_codes db2 !! "SPRING" = Some c ∧ c_current_uses c = 1 ∧ c_max_uses c = 2 ∧
    (∀ code' p' d' q' m' e',
       ∃ err, coupons_create true (Some "SPRING") p' d' q' m' e' db2 = (db2, err) ∧
              err ≠ Ok (jsonResponse (CouponCreated code') 201)).
Proof.
  apply (created_coupon_redeems Demo.platform "SPRING" "p1" 30 Demo.daily_100 2 None
           Demo.clock Demo.clock "L-A" Demo.empty_db).
  - discriminate.
  - discriminate.
  - discriminate.
  - reflexivity.
  - by vm_compute.
  - by vm_compute.
  - discriminate.
Defined.

(** ** Issuing seats *)
Section Issue.
Context (P : Platform).

Lemma insert_license_ok j l db :
  licenses db !! j = None →
  l_type l = "seat" ∨ l_type l = "individual" →
  (∀ ag, l_agency_id l = Some ag → is_Some (agencies db !! ag)) →
  insert_license j l db = (set_licenses (insert j l) db, Ok tt).
Proof.
  intros Hfresh Hty Hag. unfold insert_license; unfold_M.
  rewrite (bool_decide_eq_false_2 (_ ∧ _)) by (intros []; by destruct Hty).
  rewrite Hfresh. rewrite (bool_decide_eq_false_2 (is_Some None)) by (intros [? [=]]).
  destruct (l_agency_id l) as [ag|]; [|done].
  rewrite bool_decide_eq_false_2; [done|].
  destruct (Hag ag eq_refl) as [a Ha]. by rewrite Ha.
Qed.

Lemma issue_seats_run draw p ty ag dur q n : ∀ i toks db,
  ty = "seat" ∨ ty = "individual" →
  (∀ a, ag = Some a → is_Some (agencies db !! a)) →
  NoDup ((λ k, (draw k).1) <$> seqZ i (Z.of_nat n)) →
  (∀ k, i ≤ k < i + Z.of_nat n → licenses db !! (draw k).1 = None) →
  issue_seats P draw (Some p) (Some ty) (Some ag) dur (Some q) n i toks db =
    (with_seats draw p ty ag dur q (seqZ i (Z.of_nat n)) db,
     Ok (toks ++ (issued_token P draw p ty ag dur <$> seqZ i (Z.of_nat n)))).
Proof.
  induction n as [|n IH]; intros i toks db Hty Hag Hnd Hfresh.
  - cbn. unfold ret. rewrite app_nil_r. by destruct db.
  - rewrite Nat2Z.inj_succ, seqZ_cons in Hnd |- * by lia.
    rewrite Z.pred_succ in Hnd |- *.
    rewrite fmap_cons in Hnd. apply NoDup_cons in Hnd as [Hnotin Hnd].
    cbn [issue_seats]. destruct (draw i) as [j now] eqn:Hdraw.
    assert (Hj : (draw i).1 = j) by (by rewrite Hdraw).
    cbn [bound]. unfold bind at 1 2 3 4, ret at 1 2 3 4.
    erewrite bind_ok; cycle 1.
    { apply insert_license_ok; [|done|done].
      rewrite <- Hj. apply Hfresh. lia. }
    rewrite IH; try done.
    + rewrite <- app_assoc. unfold with_seats, issued_token, issued_license, issued_exp,
        seat_index_of at 1 3. cbn [fmap list_fmap foldl app]. rewrite Hdraw.
      cbn [fst snd]. rewrite (bool_decide_ext (Some ty = Some "seat") (ty = "seat"))
        by (split; congruence).
      reflexivity.
    + intros k Hk. cbn. rewrite lookup_insert_ne.
      * apply Hfresh. lia.
      * intros Heq. apply Hnotin. cbn [fst]. rewrite Heq.
        apply (list_elem_of_fmap_2 (λ k, (draw k).1)). apply elem_of_seqZ. lia.
Qed.

Lemma with_seats_other draw p ty ag dur q seats db j :
  (∀ k, k ∈ seats → (draw k).1 ≠ j) →
  licenses (with_seats draw p ty ag dur q seats db) !! j = licenses db !! j.
Proof.
  unfold with_seats. cbn. generalize (licenses db) as rows.
  induction seats as [|i seats IH]; intros rows Hne; cbn [foldl]; [done|].
  rewrite IH by (intros k Hk; apply Hne; by right).
  apply lookup_insert_ne, Hne. by left.
Qed.

Lemma with_seats_lookup draw p ty ag dur q seats db i :
  NoDup ((λ k, (draw k).1) <$> seats) → i ∈ seats →
  licenses (with_seats draw p ty ag dur q seats db) !! (draw i).1 =
    Some (issued_license draw p ty ag dur q i).
Proof.
  unfold with_seats. cbn. generalize (licenses db) as rows.
  induction seats as [|i0 seats IH]; intros rows Hnd Hin; [by apply elem_of_nil in Hin|].
  rewrite fmap_cons in Hnd. apply NoDup_cons in Hnd as [Hnotin Hnd].
  cbn [foldl]. apply elem_of_cons in Hin as [->|Hin]; [|by apply IH].
  pose proof (with_seats_other draw p ty ag dur q seats
                (set_licenses (λ _, <[(draw i0).1 :=
                   issued_license draw p ty ag dur q i0]> rows) db) (draw i0).1) as Ho.
  unfold with_seats in Ho. cbn in Ho. rewrite Ho.
  - by rewrite lookup_insert_eq.
  - intros k Hk Heq. apply Hnotin. rewrite <- Heq.
    by apply (list_elem_of_fmap_2 (λ k, (draw k).1)).
Qed.

Lemma with_seats_keeps draw p ty ag dur q seats db j :
  is_Some (licenses db !! j) →
  is_Some (licenses (with_seats draw p ty ag dur q seats db) !! j).
Proof.
  unfold with_seats. cbn. generalize (licenses db) as rows.
  induction seats as [|i seats IH]; intros rows Hj; cbn [foldl]; [done|].
  apply IH. destruct (decide ((draw i).1 = j)) as [->|Hne].
  - rewrite lookup_insert_eq. eauto.
  - by rewrite lookup_insert_ne.
Qed.

(** A seat whose licence id is taken stops the loop: the seats before it
    stay inserted. *)
Lemma issue_seats_collision draw p ty ag dur q n : ∀ i toks db k,
  ty = "seat" ∨ ty = "individual" →
  (∀ a, ag = Some a → is_Some (agencies db !! a)) →
  i ≤ k < i + Z.of_nat n →
  NoDup ((λ k, (draw k).1) <$> seqZ i (k - i)) →
  (∀ k', i ≤ k' < k → licenses db !! (draw k').1 = None) →
  is_Some (licenses db !! (draw k).1) →
  issue_seats P draw (Some p) (Some ty) (Some ag) dur (Some q) n i toks db =
    (with_seats draw p ty ag dur q (seqZ i (k - i)) db,
     Throw (D1_ERROR "UNIQUE constraint failed: licenses.jti")).
Proof.
  induction n as [|n IH]; intros i toks db k Hty Hag Hk Hnd Hfresh Htaken; [lia|].
  cbn [issue_seats]. destruct (draw i) as [j now] eqn:Hdraw.
  assert (Hj : (draw i).1 = j) by (by rewrite Hdraw).
  cbn [bound]. unfold bind at 1 2 3 4, ret at 1 2 3 4.
  destruct (decide (k = i)) as [->|Hne].
  - rewrite Z.sub_diag. cbn [seqZ]. unfold bind at 1, insert_license; unfold_M.
    cbn [l_type]. rewrite (bool_decide_eq_false_2 (_ ∧ _)) by (intros []; by destruct Hty).
    rewrite Hj in Htaken. rewrite bool_decide_eq_true_2 by done.
    by destruct db.
  - rewrite seqZ_cons in Hnd |- * by lia.
    rewrite fmap_cons in Hnd. apply NoDup_cons in Hnd as [Hnotin Hnd].
    erewrite bind_ok; cycle 1.
    { apply insert_license_ok; [|done|done]. rewrite <- Hj. apply Hfresh. lia. }
    replace (Z.pred (k - i)) with (k - Z.succ i) in Hnd |- * by lia.
    rewrite (IH (Z.succ i) _ _ k); try done; try lia.
    + unfold with_seats. cbn [foldl]. rewrite Hdraw.
      unfold issued_license, issued_exp, seat_index_of at 2. rewrite Hdraw. cbn [fst snd].
      rewrite (bool_decide_ext (Some ty = Some "seat") (ty = "seat"))
        by (split; congruence).
      reflexivity.
    + intros k' Hk'. cbn. rewrite lookup_insert_ne.
      * apply Hfresh. lia.
      * intros Heq. apply Hnotin. rewrite Hj, Heq.
        apply (list_elem_of_fmap_2 (λ k, (draw k).1)). apply elem_of_seqZ. lia.
    + cbn. destruct (decide (j = (draw k).1)) as [->|Hjk].
      * rewrite lookup_insert_eq. eauto.
      * by rewrite lookup_insert_ne.
Qed.

End Issue.

(** X16.  [POST /admin/licenses/issue] for [n] seats, with a type the schema
    allows, an agency that exists (or none) and fresh licence ids, answers 201
    with [n] tokens and stores one licence per seat, with [seat_index] from 1
    for type seat and [null] otherwise, and the expiry read for that seat; no
    other licence changes, nor any of the six other tables. *)
Theorem issue_seats_all P draw p ty ag dur q n db :
  ty = "seat" ∨ ty = "individual" →
  (∀ a, ag = Some a → is_Some (agencies db !! a)) →
  0 ≤ n →
  NoDup ((λ k, (draw k).1) <$> seqZ 0 n) →
  (∀ k, 0 ≤ k < n → licenses db !! (draw k).1 = None) →
  ∃ db',
    licenses_issue P true draw (Some p) (Some ty) (Some ag) (Some n) dur (Some q) db =
      (db', Ok (jsonResponse
                  (IssuedTokens (issued_token P draw p ty ag (default 30 dur) <$> seqZ 0 n))
                  201)) ∧
    (∀ k, 0 ≤ k < n →
          licenses db' !! (draw k).1 =
            Some (issued_license draw p ty ag (default 30 dur) q k)) ∧
    (∀ j, (∀ k, 0 ≤ k < n → (draw k).1 ≠ j) → licenses db' !! j = licenses db !! j) ∧
    agencies db' = agencies db ∧ activation_sessions db' = activation_sessions db ∧
    activations db' = activations db ∧ usage db' = usage db ∧
    users_seen db' = users_seen db ∧ coupon_codes db' = coupon_codes db.
Proof.
  intros Hty Hag Hn Hnd Hfresh.
  exists (with_seats draw p ty ag (default 30 dur) q (seqZ 0 n) db).
  split_and!; try reflexivity.
  - unfold licenses_issue. cbn [negb default]. unfold id at 1.
    erewrite bind_ok; [reflexivity|].
    rewrite <- (Z2Nat.id n) at 2 3 by done.
    apply issue_seats_run; try done; rewrite Z2Nat.id by done; [done|].
    intros k Hk. apply Hfresh. lia.
  - intros k Hk. apply with_seats_lookup; [done|]. apply elem_of_seqZ. lia.
  - intros j Hj. apply with_seats_other. intros k Hk. apply Hj.
    apply elem_of_seqZ in Hk. lia.
Qed.

Lemma issue_seats_all_witness :
  ∃ db',
    licenses_issue Demo.platform true Demo2.draw (Some "p1") (Some "seat")
      (Some (Some "acme")) (Some 3) None (Some (Some Demo.daily_100)) Demo2.agency_store =
      (db', Ok (jsonResponse
                  (IssuedTokens
                     (issued_token Demo.platform Demo2.draw "p1" "seat" (Some "acme")
                        (default 30 None) <$> seqZ 0 3))
                  201)) ∧
    (∀ k, 0 ≤ k < 3 →
          licenses db' !! (Demo2.draw k).1 =
            Some (issued_license Demo2.draw "p1" "seat" (Some "acme") (default 30 None)
                    (Some Demo.daily_100) k)) ∧
    (∀ j, (∀ k, 0 ≤ k < 3 → (Demo2.draw k).1 ≠ j) →
          licenses db' !! j = licenses Demo2.agency_store !! j) ∧
    agencies db' = agencies Demo2.agency_store ∧
    activation_sessions db' = activation_sessions Demo2.agency_store ∧
    activations db' = activations Demo2.agency_store ∧
    usage db' = usage Demo2.agency_store ∧
    users_seen db' = users_seen Demo2.agency_store ∧
    coupon_codes db' = coupon_codes Demo2.agency_store.
Proof.
  apply (issue_seats_all Demo.platform Demo2.draw "p1" "seat" (Some "acme") None
           (Some Demo.daily_100) 3 Demo2.agency_store).
  - by left.
  - intros a [= <-]. cbn. rewrite lookup_insert_eq. eauto.
  - lia.
  - apply (bool_decide_eq_true_1 _). by vm_compute.
  - intros k _. apply lookup_empty.
Defined.

(** X17.  Where [POST /admin/licenses/issue] issues nothing or fails: a
    seat count of 0 or less answers 201 with no tokens; a missing [projectId],
    [type], [agencyId] or [quotas] makes the first insert throw; so does a
    type other than seat and individual, whatever the licence id, with the
    store's [CHECK constraint failed: type IN ('seat', 'individual')], and,
    for a fresh id, an agency not in the store.  A licence id already taken at
    seat [k] throws at that seat with the [k] licences before it left in the
    store. *)
Theorem issue_refusals P draw projectId type agencyId seats dur quotas db :
  (default 1 seats ≤ 0 →
   licenses_issue P true draw projectId type agencyId seats dur quotas db =
     (db, Ok (jsonResponse (IssuedTokens []) 201))) ∧
  (0 < default 1 seats →
   projectId = None ∨ type = None ∨ agencyId = None ∨ quotas = None →
   licenses_issue P true draw projectId type agencyId seats dur quotas db =
     (db, Throw D1_TYPE_ERROR)) ∧
  (∀ p ty ag q,
     0 < default 1 seats →
     projectId = Some p → type = Some ty → agencyId = Some ag → quotas = Some q →
     (ty ≠ "seat" ∧ ty ≠ "individual" →
      licenses_issue P true draw projectId type agencyId seats dur quotas db =
        (db, Throw (D1_ERROR
                      "CHECK constraint failed: type IN ('seat', 'individual')"))) ∧
     (ty = "seat" ∨ ty = "individual" →
      licenses db !! (draw 0).1 = None →
      (∃ a, ag = Some a ∧ agencies db !! a = None) →
      licenses_issue P true draw projectId type agencyId seats dur quotas db =
        (db, Throw (D1_ERROR "FOREIGN KEY constraint failed")))) ∧
  (∀ p ty ag q k,
     projectId = Some p → type = Some ty → agencyId = Some ag → quotas = Some q →
     ty = "seat" ∨ ty = "individual" →
     (∀ a, ag = Some a → is_Some (agencies db !! a)) →
     0 ≤ k < default 1 seats →
     NoDup ((λ k, (draw k).1) <$> seqZ 0 k) →
     (∀ k', 0 ≤ k' < k → licenses db !! (draw k').1 = None) →
     is_Some (licenses db !! (draw k).1) →
     licenses_issue P true draw projectId type agencyId seats dur quotas db =
       (with_seats draw p ty ag (default 30 dur) q (seqZ 0 k) db,
        Throw (D1_ERROR "UNIQUE constraint failed: licenses.jti"))).
Proof.
  split_and!.
  - intros Hn. unfold licenses_issue. cbn [negb].
    rewrite Z2Nat.nonpos by done. reflexivity.
  - intros Hn Hmissing. unfold licenses_issue. cbn [negb].
    destruct (Z.to_nat (default 1 seats)) as [|n] eqn:Hnat; [lia|].
    cbn [issue_seats]. destruct (draw 0) as [j now].
    unfold bind at 1.
    destruct projectId as [p|]; [|done].
    destruct type as [ty|]; [|done].
    destruct agencyId as [ag|]; [|done].
    destruct quotas as [q|]; [|done].
    by destruct Hmissing as [|[|[|]]].
  - intros p ty ag q Hn -> -> -> ->.
    unfold licenses_issue. cbn [negb].
    destruct (Z.to_nat (default 1 seats)) as [|n] eqn:Hnat; [lia|].
    cbn [issue_seats]. destruct (draw 0) as [j now]. cbn [fst].
    unfold bind at 1. cbn [bound]. unfold bind at 1 2 3 4 5, ret at 1 2 3 4.
    unfold insert_license; unfold_M.
    cbn [l_type l_agency_id]. split.
    + intros Hty. by rewrite bool_decide_eq_true_2.
    + intros Hty Hfresh (a & -> & Ha).
      rewrite (bool_decide_eq_false_2 (_ ∧ _)) by (intros []; by destruct Hty).
      rewrite Hfresh.
      rewrite (bool_decide_eq_false_2 (is_Some None)) by (intros [? [=]]).
      by rewrite Ha, bool_decide_eq_true_2.
  - intros p ty ag q k -> -> -> -> Hty Hag Hk Hnd Hfresh Htaken.
    unfold licenses_issue. cbn [negb].
    unfold bind at 1.
    rewrite (issue_seats_collision P draw p ty ag (default 30 dur) q _ 0 [] db k);
      try done; rewrite ?Z.sub_0_r; try done.
    rewrite Z2Nat.id by lia. lia.
Qed.

(** ** Rows keep their terms *)
Section Terms.
Context (P : Platform).

Lemma activation_kept_stays k a reqs db :
  activation_kept k a db → activation_kept k a (after P reqs db).
Proof.
  apply (after_preserves P (activation_kept k a)).
  - intros id s. unfold insert_session. run_statement.
  - intros id a0. unfold insert_activation. run_statement.
    destruct HI as (a1 & Ha1 & Hrest). exists a1. split; [|done].
    cbn. rewrite lookup_insert_ne; [done|]. intros ->.
    match goal with
    | H : bool_decide (is_Some _) = false |- _ =>
        rewrite bool_decide_eq_false in H; apply H; eauto
    end.
  - intros ts j' d. unfold update_last_seen. run_statement.
    destruct HI as (a1 & Ha1 & Hrest).
    eexists. cbn. rewrite lookup_fmap, Ha1. split; [reflexivity|].
    by case_bool_decide.
  - intros j' d h. unfold insert_or_ignore_user. run_statement.
  - intros u. unfold insert_usage. run_statement.
  - intros j' l'. unfold insert_license. run_statement.
  - intros code. unfold increment_coupon. run_statement.
  - intros id a0. unfold insert_agency. run_statement.
  - intros code c. unfold insert_coupon. run_statement.
  - intros j'. unfold batch_revoke. run_statement.
    destruct HI as (a1 & Ha1 & Hj & Hd & Hc & Hk & Hr).
    eexists. cbn. rewrite lookup_fmap, Ha1. split; [reflexivity|].
    case_bool_decide; split_and!; done.
Qed.

Lemma session_kept_stays k s reqs db :
  activation_sessions db !! k = Some s →
  activation_sessions (after P reqs db) !! k = Some s.
Proof.
  apply (after_preserves P (λ db', activation_sessions db' !! k = Some s)).
  - intros id s0. unfold insert_session. run_statement.
    cbn. rewrite lookup_insert_ne; [done|]. intros ->.
    match goal with
    | H : bool_decide (is_Some _) = false |- _ =>
        rewrite bool_decide_eq_false in H; apply H; eauto
    end.
  - intros id a. unfold insert_activation. run_statement.
  - intros ts j' d. unfold update_last_seen. run_statement.
  - intros j' d h. unfold insert_or_ignore_user. run_statement.
  - intros u. unfold insert_usage. run_statement.
  - intros j' l'. unfold insert_license. run_statement.
  - intros code. unfold increment_coupon. run_statement.
  - intros id a. unfold insert_agency. run_statement.
  - intros code c. unfold insert_coupon. run_statement.
  - intros j'. unfold batch_revoke. run_statement.
Qed.

End Terms.

(** X18.  Whatever requests are handled, a licence keeps its project, type,
    agency, seat index, quotas and expiry, an activation keeps its licence,
    device, credential and key, neither is deleted nor un-revoked, and an
    activation session stays as it was stored. *)
Theorem rows_keep_their_terms P reqs db :
  (∀ j l, licenses db !! j = Some l →
     ∃ l', licenses (after P reqs db) !! j = Some l' ∧
           l_project_id l' = l_project_id l ∧ l_type l' = l_type l ∧
           l_agency_id l' = l_agency_id l ∧ l_seat_index l' = l_seat_index l ∧
           l_quotas l' = l_quotas l ∧ l_exp l' = l_exp l ∧
           (l_revoked l = true → l_revoked l' = true)) ∧
  (∀ k a, activations db !! k = Some a →
     ∃ a', activations (after P reqs db) !! k = Some a' ∧
           a_jti a' = a_jti a ∧ a_device_id a' = a_device_id a ∧
           a_credential_id a' = a_credential_id a ∧ a_public_key a' = a_public_key a ∧
           (a_revoked a = true → a_revoked a' = true)) ∧
  (∀ k s, activation_sessions db !! k = Some s →
          activation_sessions (after P reqs db) !! k = Some s).
Proof.
  split_and!.
  - intros j l Hl.
    destruct (license_kept_stays P j l reqs db) as (l' & Hl' & Hterms).
    { exists l. split; [done|by left]. }
    exists l'. split; [done|]. by destruct Hterms as [-> | ->].
  - intros k a Ha. apply (activation_kept_stays P k a reqs db).
    exists a. split_and!; done.
  - intros k s. apply session_kept_stays.
Qed.

(** ** From a licence token to a metered call *)
Section Flow.
Context (P : Platform).

Lemma activate_finish_passes dev now now' id cid s l db :
  activation_sessions db !! id = Some s →
  activations db !! id = None → bindings (s_jti s) dev db = ∅ →
  licenses db !! s_jti s = Some l →
  activate_finish P dev now now' id (Some (Some cid)) db =
    (set_activations (insert id (finish_row (s_jti s) dev cid now)) db,
     Ok (jsonResponse (Finished (signJwt P (finish_payload l (s_jti s) dev now'))) 200)).
Proof.
  intros Hs Hfresh Huniq Hl.
  unfold activate_finish, select_session, select_license, insert_activation. unfold_M.
  rewrite Hs. cbv beta iota. cbn [a_jti a_device_id].
  rewrite Hfresh.
  rewrite (bool_decide_eq_false_2 (is_Some None)) by (intros [? [=]]).
  rewrite (bool_decide_eq_false_2 (_ ≠ ∅)) by (intros Hne; by apply Hne).
  rewrite Hl. rewrite (bool_decide_eq_false_2 (Some l = None)) by done.
  change (licenses (set_activations ?f db)) with (licenses db). rewrite Hl.
  reflexivity.
Qed.

Lemma activate_start_outcome now challenge activationId hostname projectId token
    deviceInfo db db' r :
  activate_start P now challenge activationId hostname projectId token deviceInfo db =
    (db', Ok r) →
  (db' = db ∧ (status r = 400 ∨ status r = 404)) ∨
  ∃ d j l info,
    payload_of P token = Some d ∧ aud d = projectId ∧ token_expired d now = false ∧
    jti d = Some j ∧ live_license db j l ∧ deviceInfo = Some info ∧
    activation_sessions db !! activationId = None ∧
    db' = set_activation_sessions
            (insert activationId
               {| s_jti := j; s_challenge := challenge; s_device_info := Some info |}) db ∧
    r = jsonResponse (Started activationId challenge hostname j) 200.
Proof.
  unfold activate_start, decode_payload.
  destruct (payload_of P token) as [d|] eqn:Hd; [|discriminate].
  unfold bind at 1, ret at 1.
  case_bool_decide as Haud; [intros [= <- <-]; left; auto|].
  fold (token_expired d now).
  destruct (token_expired d now) eqn:Hexp; [intros [= <- <-]; left; auto|].
  destruct (jti d) as [j|] eqn:Hj; [|discriminate].
  unfold bind at 1, bound at 1, ret at 1.
  unfold bind at 1, select_live_license. unfold_M.
  destruct (licenses db !! j) as [l|] eqn:Hl; [|intros [= <- <-]; left; auto].
  destruct (l_revoked l) eqn:Hr; [intros [= <- <-]; left; auto|].
  destruct deviceInfo as [info|]; [|discriminate].
  unfold insert_session; unfold_M.
  case_bool_decide as Hpk; [discriminate|].
  cbn [s_jti]. rewrite Hl. rewrite bool_decide_eq_false_2 by done.
  intros [= <- <-]. right. exists d, j, l, info.
  split_and!; try done.
  by apply eq_None_not_Some.
Qed.

End Flow.

(** X19.  When [POST /v1/activate/start] answers, either it answers 400 or
    404 and has written nothing, or the token's [aud] is the request's
    [projectId], its [exp] has not passed, its licence is in the store and not
    revoked, and exactly one session is stored, under a fresh id, with the
    challenge that the answer carries. *)
Theorem start_outcomes P now challenge activationId hostname projectId token
    deviceInfo db db' r :
  activate_start P now challenge activationId hostname projectId token deviceInfo db =
    (db', Ok r) →
  (db' = db ∧ (status r = 400 ∨ status r = 404)) ∨
  ∃ d j l info,
    payload_of P token = Some d ∧ aud d = projectId ∧ token_expired d now = false ∧
    jti d = Some j ∧ live_license db j l ∧ deviceInfo = Some info ∧
    activation_sessions db !! activationId = None ∧
    db' = set_activation_sessions
            (insert activationId
               {| s_jti := j; s_challenge := challenge; s_device_info := Some info |}) db ∧
    r = jsonResponse (Started activationId challenge hostname j) 200.
Proof. apply activate_start_outcome. Qed.

(** X20.  A device's way through the Worker.  For a licence token that is
    not expired, of a licence not revoked, not expired and not yet bound to
    the device, and a certificate whose encoded payload and signature are
    segments without a dot, start answers 200 and finish with the same activation id answers 200 with
    a certificate and stores the activation.  What follows turns on the
    certificate's payload segment, which heartbeat and meter read with
    [JSON.parse(atob(…))] as it is: where that gives the payload back, a
    heartbeat with the certificate answers ok and sets [last_seen] of the
    activation, and a metered call with it that the quota lets through records
    its usage row; where it throws, as [atob] does on a segment with [-] or
    [_], heartbeat and meter throw and write nothing, for the device that was
    just bound. *)
Theorem activation_flow P now1 challenge activationId hostname token info
    dev now2 now2' cid now3 userIdHash tza t today now4 bucket cost db d j l q :
  payload_of P token = Some d → jti d = Some j → token_expired d now1 = false →
  live_license db j l →
  activation_sessions db !! activationId = None →
  activations db !! activationId = None → bindings j dev db = ∅ →
  dotless (encode_payload P (finish_payload l j dev now2')) →
  dotless (subtle_sign P
             (encodedHeader +:+ "." +:+ encode_payload P (finish_payload l j dev now2'))) →
  ¬ (l_exp l * 1000 < t) → parse_quotas l = Some q →
  quota_check tza today (dailyLimit q bucket) j bucket cost db = (db, Ok None) →
  ∃ db1 db2,
    activate_start P now1 challenge activationId hostname (aud d) token (Some info) db =
      (db1, Ok (jsonResponse (Started activationId challenge hostname j) 200)) ∧
    activate_finish P dev now2 now2' activationId (Some (Some cid)) db1 =
      (db2, Ok (jsonResponse
                  (Finished (signJwt P (finish_payload l j dev now2'))) 200)) ∧
    activations db2 !! activationId = Some (finish_row j dev cid now2) ∧
    (JSON_parse_atob P (encode_payload P (finish_payload l j dev now2')) =
       Some (claims_of (finish_payload l j dev now2')) →
     ∃ db3 a,
       heartbeat P now3 (signJwt P (finish_payload l j dev now2')) userIdHash db2 =
         (db3, Ok (jsonResponse OkTrue 200)) ∧
       activations db3 !! activationId = Some a ∧
       a_last_seen a = Some (now3 `div` 1000) ∧ a_jti a = j ∧ a_device_id a = dev ∧
       meter P tza t today now4 (signJwt P (finish_payload l j dev now2')) bucket cost db3 =
         (set_usage (λ rows, rows ++ [usage_row now4 j dev bucket cost]) db3,
          Ok (jsonResponse Allowed 200))) ∧
    (JSON_parse_atob P (encode_payload P (finish_payload l j dev now2')) = None →
     heartbeat P now3 (signJwt P (finish_payload l j dev now2')) userIdHash db2 =
       (db2, Throw (TypeError "token payload does not decode")) ∧
     meter P tza t today now4 (signJwt P (finish_payload l j dev now2')) bucket cost db2 =
       (db2, Throw (TypeError "token payload does not decode"))).
Proof.
  intros Hd Hj Hexp Hl Hsfresh Hafresh Huniq Hseg Hsig Hunexp Hpq Hq.
  set (s := {| s_jti := j; s_challenge := challenge; s_device_info := Some info |}).
  set (db1 := set_activation_sessions (insert activationId s) db).
  set (db2 := set_activations (insert activationId (finish_row j dev cid now2)) db1).
  set (cert := signJwt P (finish_payload l j dev now2')).
  assert (Hread : payload_of P cert =
                  JSON_parse_atob P (encode_payload P (finish_payload l j dev now2'))).
  { unfold payload_of, cert. by rewrite signJwt_segments. }
  exists db1, db2. split_and!.
  - by eapply activate_start_passes.
  - apply (activate_finish_passes P dev now2 now2' activationId cid s l db1).
    + subst db1. cbn. by rewrite lookup_insert_eq.
    + done.
    + done.
    + destruct Hl as [Hl _]. exact Hl.
  - subst db2. cbn. by rewrite lookup_insert_eq.
  - intros Hback. rewrite Hback in Hread.
    destruct (heartbeat_runs P now3 cert userIdHash db2 _ j dev Hread eq_refl eq_refl)
      as (db3 & Hbeat & Htouch).
    assert (Hlic3 : licenses db3 = licenses db ∧ usage db3 = usage db).
    { revert Hbeat. unfold heartbeat, decode_payload. rewrite Hread.
      unfold update_last_seen, insert_or_ignore_user. unfold_M. cbn.
      destruct (truthy_str userIdHash); by intros [= <-]. }
    destruct Hlic3 as [Hlic3 Huse3].
    exists db3, (touch_activation (now3 `div` 1000) (finish_row j dev cid now2)).
    split_and!.
    + exact Hbeat.
    + apply Htouch; [|done]. subst db2. cbn. by rewrite lookup_insert_eq.
    + reflexivity.
    + reflexivity.
    + reflexivity.
    + eapply meter_passes; eauto.
      * destruct Hl as [Hl Hr]. split; [by rewrite Hlic3|done].
      * rewrite quota_check_cases in Hq |- *.
        unfold window_cost in *. rewrite Huse3.
        destruct (dailyLimit q bucket) as [L|]; [|done].
        destruct (truthy (Some L) && _); [|done].
        by destruct (next_local_midnight tza today).
  - intros Hnone. rewrite Hnone in Hread.
    unfold heartbeat, meter, decode_payload. rewrite Hread. done.
Qed.

Lemma activation_flow_witness :
  ∃ db1 db2,
    activate_start Demo.platform Demo2.late_clock "c29tZSBjaGFsbGVuZ2U" "A1" "baas.example"
      (aud Demo.license_claims) Demo.license_token (Some "{}")
      (Demo.store Demo.daily_100) =
      (db1, Ok (jsonResponse (Started "A1" "c29tZSBjaGFsbGVuZ2U" "baas.example" "L1") 200)) ∧
    activate_finish Demo.platform "D1" Demo2.late_clock Demo2.late_clock "A1"
      (Some (Some "cred-1")) db1 =
      (db2, Ok (jsonResponse (Finished Demo.cert) 200)) ∧
    activations db2 !! "A1" = Some (finish_row "L1" "D1" "cred-1" Demo2.late_clock) ∧
    ∃ db3 a,
      heartbeat Demo.platform Demo2.late_clock Demo.cert (Some "u1") db2 =
        (db3, Ok (jsonResponse OkTrue 200)) ∧
      activations db3 !! "A1" = Some a ∧
      a_last_seen a = Some (Demo2.late_clock `div` 1000) ∧ a_jti a = "L1" ∧
      a_device_id a = "D1" ∧
      meter Demo.platform 0 Demo2.late_clock Demo2.late_clock Demo2.late_clock
        Demo.cert "ai" 1 db3 =
        (set_usage (λ rows, rows ++ [usage_row Demo2.late_clock "L1" "D1" "ai" 1]) db3,
         Ok (jsonResponse Allowed 200)).
Proof.
  destruct (activation_flow Demo.platform Demo2.late_clock "c29tZSBjaGFsbGVuZ2U" "A1"
              "baas.example" Demo.license_token "{}" "D1" Demo2.late_clock Demo2.late_clock
              "cred-1" Demo2.late_clock (Some "u1") 0 Demo2.late_clock Demo2.late_clock
              Demo2.late_clock "ai" 1 (Demo.store Demo.daily_100) Demo.license_claims "L1"
              (Demo.license Demo.daily_100) Demo.daily_100)
    as (db1 & db2 & Hstart & Hfinish & Hrow & Hreadable & _).
  - by vm_compute.
  - reflexivity.
  - by vm_compute.
  - split; by vm_compute.
  - by vm_compute.
  - by vm_compute.
  - by vm_compute.
  - apply (bool_decide_eq_true_1 _). by vm_compute.
  - apply (bool_decide_eq_true_1 _). by vm_compute.
  - vm_compute. discriminate.
  - reflexivity.
  - by vm_compute.
  - exists db1, db2. split_and!; [exact Hstart|exact Hfinish|exact Hrow|].
    apply Hreadable. by vm_compute.
Defined.

(** A certificate that [atob] cannot read: for project [my~app] the payload
    segment the Worker signs holds a [-], so [atob] throws on it, and the
    heartbeat and the metered call of the device that finish has just bound
    throw. *)
Example unreadable_certificate :
  let payload := ActivationPayload "my~app" "L1" "D1" "webauthn" 2000000000 in
  let db := set_activations (insert "A1" Demo.activation_D1)
              (set_licenses (insert "L1" Demo2.tilde_license) Demo.empty_db) in
  encode_payload Demo.platform payload =
    Base64.encodeBase64Url (String.list_byte_of_string (Demo.stringify payload)) ∧
  "-"%char ∈ String.list_ascii_of_string (encode_payload Demo.platform payload) ∧
  Base64.atob (encode_payload Demo.platform payload) = None ∧
  JSON_parse_atob Demo.platform (encode_payload Demo.platform payload) = None ∧
  heartbeat Demo.platform Demo.clock (signJwt Demo.platform payload) None db =
    (db, Throw (TypeError "token payload does not decode")) ∧
  meter Demo.platform 0 Demo.clock Demo.clock Demo.clock (signJwt Demo.platform payload)
    "ai" 1 db = (db, Throw (TypeError "token payload does not decode")).
Proof.
  cbv zeta. split_and!; try (by vm_compute).
  apply (bool_decide_eq_true_1 _). by vm_compute.
Qed.

Lemma start_outcomes_witness :
  (Demo.session_store = Demo.store Demo.no_quotas ∧
   (status (jsonResponse (Started "A1" "c29tZSBjaGFsbGVuZ2U" "baas.example" "L1") 200) = 400 ∨
    status (jsonResponse (Started "A1" "c29tZSBjaGFsbGVuZ2U" "baas.example" "L1") 200) = 404)) ∨
  ∃ d j l info,
    payload_of Demo.platform Demo.license_token = Some d ∧ aud d = Some "p1" ∧
    token_expired d Demo.clock = false ∧
    jti d = Some j ∧ live_license (Demo.store Demo.no_quotas) j l ∧
    Some "{}" = Some info ∧
    activation_sessions (Demo.store Demo.no_quotas) !! "A1" = None ∧
    Demo.session_store =
      set_activation_sessions
        (insert "A1" {| s_jti := j; s_challenge := "c29tZSBjaGFsbGVuZ2U";
                        s_device_info := Some info |}) (Demo.store Demo.no_quotas) ∧
    jsonResponse (Started "A1" "c29tZSBjaGFsbGVuZ2U" "baas.example" "L1") 200 =
      jsonResponse (Started "A1" "c29tZSBjaGFsbGVuZ2U" "baas.example" j) 200.
Proof.
  apply (start_outcomes Demo.platform Demo.clock "c29tZSBjaGFsbGVuZ2U" "A1" "baas.example"
           (Some "p1") Demo.license_token (Some "{}") (Demo.store Demo.no_quotas)
           Demo.session_store).
  by vm_compute.
Defined.

(** ** The keys of a usage row and the reset time *)
Section Keys.
Import JSDate JSDateFacts.

Lemma Day_of_day t : Day (Day t * msPerDay) = Day t.
Proof. unfold Day, msPerDay. Z.div_mod_to_equations; lia. Qed.

Lemma monthKey_of_day now : monthKey now = monthKey (Day now * msPerDay).
Proof.
  unfold monthKey, getUTCFullYear, getUTCMonth, YearFromTime, MonthFromTime,
    DayWithinYear, InLeapYear, YearFromTime.
  by rewrite Day_of_day.
Qed.

End Keys.

(** X21.  The keys of a usage row are nested: the day is the day of the
    minute, and the month is the month of the day, so that two rows of one day
    have the same month key. *)
Theorem usage_keys_nested now j dev b cost now' j' dev' b' cost' :
  u_minute_key (usage_row now j dev b cost) `div` 1440 =
    u_day_key (usage_row now j dev b cost) ∧
  u_month_key (usage_row now j dev b cost) =
    monthKey (u_day_key (usage_row now j dev b cost) * 86400000) ∧
  (u_day_key (usage_row now' j' dev' b' cost') = u_day_key (usage_row now j dev b cost) →
   u_month_key (usage_row now' j' dev' b' cost') =
     u_month_key (usage_row now j dev b cost)).
Proof.
  unfold usage_row. cbn [u_minute_key u_day_key u_month_key].
  split_and!.
  - Z.div_mod_to_equations; lia.
  - apply monthKey_of_day.
  - intros Hday. rewrite (monthKey_of_day now), (monthKey_of_day now').
    unfold JSDate.Day, JSDate.msPerDay. by rewrite Hday.
Qed.

(** X22.  In any time zone, daylight saving included, the [resetAt] of a
    denial (in a local year outside 0..99) is the midnight that starts the
    next local day, read as an instant with the offset the zone has for that
    midnight.  That midnight is after the request's local time and at most a
    day later; [resetAt] itself comes after the request by that span plus the
    difference of the offset at the request and the offset of the midnight.
    So where the two offsets are equal, as in a zone with a fixed offset,
    [resetAt] is after the request and at most 24 hours later, and across a
    change of offset it is not: earlier or later by the change.  In a zone
    with a fixed offset it is the [next_local_midnight] of the meter
    handler. *)
Theorem reset_is_next_local_midnight LocalTZA today resetAt :
  ¬ (0 ≤ JSLocal.getFullYear LocalTZA today ≤ 99) →
  next_local_midnight_in LocalTZA today = Some resetAt →
  ∃ midnight,
    midnight = (JSDate.Day (JSLocal.LocalTime LocalTZA today) + 1) * 86400000 ∧
    JSLocal.LocalTime LocalTZA today < midnight ≤
      JSLocal.LocalTime LocalTZA today + 86400000 ∧
    resetAt = midnight - LocalTZA midnight false ∧
    resetAt - today =
      midnight - JSLocal.LocalTime LocalTZA today
        + (LocalTZA today true - LocalTZA midnight false) ∧
    (LocalTZA resetAt true = LocalTZA midnight false →
     JSLocal.LocalTime LocalTZA resetAt = midnight) ∧
    (LocalTZA midnight false = LocalTZA today true →
     today < resetAt ≤ today + 86400000) ∧
    (∀ tza, (∀ t isUTC, LocalTZA t isUTC = tza) →
            next_local_midnight tza today = Some resetAt).
Proof.
  intros Hy.
  unfold next_local_midnight_in, JSLocal.DateOfYMD; cbv zeta.
  rewrite bool_decide_eq_false_2 by done.
  unfold JSLocal.getFullYear, JSLocal.getMonth, JSLocal.getDate in *.
  rewrite JSDateFacts.MakeDay_accessors.
  unfold JSDate.TimeClip, JSLocal.UTC, JSDate.MakeDate. rewrite Z.add_0_r.
  case_bool_decide as Hclip; [|discriminate]. intros [= <-].
  change JSDate.msPerDay with 86400000 in *.
  eexists. split; [reflexivity|].
  unfold JSLocal.LocalTime in *.
  set (midnight := (JSDate.Day (today + LocalTZA today true) + 1) * 86400000) in *.
  assert (Hspan : today + LocalTZA today true < midnight ≤
                  today + LocalTZA today true + 86400000).
  { unfold midnight, JSDate.Day, JSDate.msPerDay. Z.div_mod_to_equations; lia. }
  split_and!; try lia.
  intros tza Hfixed.
  assert (Hm : midnight = (JSDate.Day (today + tza) + 1) * JSDate.msPerDay)
    by (unfold midnight; by rewrite Hfixed).
  rewrite (Hfixed midnight false) in Hclip |- *. rewrite Hm in Hclip |- *.
  apply next_local_midnight_eq; [|done].
  unfold JSDate.getFullYear, JSDate.LocalTime. by rewrite <- (Hfixed today true).
Qed.

(** At 00:30 local time of the day on which New York sets its clocks back,
    the next local midnight is 24 hours and 30 minutes away. *)
Lemma reset_is_next_local_midnight_witness :
  next_local_midnight_in Demo2.new_york 1793507400000 = Some 1793595600000 ∧
  1793595600000 - 1793507400000 = 88200000 ∧
  ∃ midnight,
    midnight = (JSDate.Day (JSLocal.LocalTime Demo2.new_york 1793507400000) + 1) * 86400000 ∧
    JSLocal.LocalTime Demo2.new_york 1793507400000 < midnight ≤
      JSLocal.LocalTime Demo2.new_york 1793507400000 + 86400000 ∧
    1793595600000 = midnight - Demo2.new_york midnight false ∧
    1793595600000 - 1793507400000 =
      midnight - JSLocal.LocalTime Demo2.new_york 1793507400000
        + (Demo2.new_york 1793507400000 true - Demo2.new_york midnight false) ∧
    (Demo2.new_york 1793595600000 true = Demo2.new_york midnight false →
     JSLocal.LocalTime Demo2.new_york 1793595600000 = midnight) ∧
    (Demo2.new_york midnight false = Demo2.new_york 1793507400000 true →
     1793507400000 < 1793595600000 ≤ 1793507400000 + 86400000) ∧
    (∀ tza, (∀ t isUTC, Demo2.new_york t isUTC = tza) →
            next_local_midnight tza 1793507400000 = Some 1793595600000).
Proof.
  split; [by vm_compute|]. split; [reflexivity|].
  apply (reset_is_next_local_midnight Demo2.new_york 1793507400000 1793595600000).
  - vm_compute. intros [_ H]. by apply H.
  - by vm_compute.
Defined.

(** X23.  [POST /v1/usage/meter] takes the cost as it is given: whenever
    usage plus cost is within the limit the call is let through and the cost is
    added to the day's usage.  So a call with a negative cost lowers the
    recorded usage, and a call that would have been denied can be let through
    after it. *)
Theorem meter_takes_any_cost P tza t today now cert b credit cost db d j dev l q L :
  payload_of P cert = Some d → jti d = Some j → deviceId d = Some dev →
  live_license db j l → ¬ (l_exp l * 1000 < t) → parse_quotas l = Some q →
  dailyLimit q b = Some L →
  now `div` 86400000 = today `div` 86400000 →
  window_cost j (today `div` 86400000) b db + credit ≤ L →
  window_cost j (today `div` 86400000) b db + credit + cost ≤ L →
  let db1 := set_usage (λ rows, rows ++ [usage_row now j dev b credit]) db in
  let db2 := set_usage (λ rows, rows ++ [usage_row now j dev b cost]) db1 in
  meter P tza t today now cert b credit db = (db1, Ok (jsonResponse Allowed 200)) ∧
  meter P tza t today now cert b cost db1 = (db2, Ok (jsonResponse Allowed 200)) ∧
  window_cost j (today `div` 86400000) b db1 =
    window_cost j (today `div` 86400000) b db + credit ∧
  window_cost j (today `div` 86400000) b db2 =
    window_cost j (today `div` 86400000) b db + credit + cost.
Proof.
  intros Hd Hj Hdev Hl Hexp Hpq HL Hday Hcredit Hcost db1 db2.
  assert (Hrow : ∀ c, in_window j (today `div` 86400000) b (usage_row now j dev b c)).
  { intros c. unfold in_window, usage_row. cbn [u_jti u_day_key u_bucket]. done. }
  assert (Hw1 : window_cost j (today `div` 86400000) b db1 =
                window_cost j (today `div` 86400000) b db + credit).
  { unfold db1. rewrite window_cost_insert. rewrite decide_True by apply Hrow. done. }
  assert (Hw2 : window_cost j (today `div` 86400000) b db2 =
                window_cost j (today `div` 86400000) b db + credit + cost).
  { unfold db2. rewrite window_cost_insert, Hw1. rewrite decide_True by apply Hrow. done. }
  split_and!; [| |done|done].
  - eapply meter_passes; try done. rewrite HL. by apply quota_check_under.
  - eapply (meter_passes P tza t today now cert b cost db1 d j dev l q); try done.
    rewrite HL. apply quota_check_under. rewrite Hw1. done.
Qed.

Lemma meter_takes_any_cost_witness :
  let db1 := set_usage (λ rows, rows ++ [usage_row Demo.clock "L1" "D1" "general" (-1)])
               (Demo.store Demo.daily_1) in
  let db2 := set_usage (λ rows, rows ++ [usage_row Demo.clock "L1" "D1" "general" 2]) db1 in
  (meter Demo.platform 0 Demo.clock Demo.clock Demo.clock Demo.cert "general" 2
     (Demo.store Demo.daily_1)).2 =
    Ok (jsonResponse (Denied "general" 1 1793750400000) 429) ∧
  meter Demo.platform 0 Demo.clock Demo.clock Demo.clock Demo.cert "general" (-1)
    (Demo.store Demo.daily_1) = (db1, Ok (jsonResponse Allowed 200)) ∧
  meter Demo.platform 0 Demo.clock Demo.clock Demo.clock Demo.cert "general" 2 db1 =
    (db2, Ok (jsonResponse Allowed 200)) ∧
  window_cost "L1" (Demo.clock `div` 86400000) "general" db1 =
    window_cost "L1" (Demo.clock `div` 86400000) "general" (Demo.store Demo.daily_1) + -1 ∧
  window_cost "L1" (Demo.clock `div` 86400000) "general" db2 =
    window_cost "L1" (Demo.clock `div` 86400000) "general" (Demo.store Demo.daily_1)
      + -1 + 2.
Proof.
  split; [by vm_compute|].
  apply (meter_takes_any_cost Demo.platform 0 Demo.clock Demo.clock Demo.clock Demo.cert
           "general" (-1) 2 (Demo.store Demo.daily_1) Demo.cert_claims "L1" "D1"
           (Demo.license Demo.daily_1) Demo.daily_1 1); try done; by vm_compute.
Defined.

(** ** The CORS header *)
Section Cors.

Lemma split_on_first sep s t :
  sep ∉ String.list_ascii_of_string s →
  head (split_on sep (s +:+ String sep t)) = Some s.
Proof.
  induction s as [|c s IH]; cbn [String.list_ascii_of_string].
  - intros _. change ("" +:+ String sep t) with (String sep t).
    cbn [split_on]. by rewrite bool_decide_eq_true_2.
  - intros Hc. apply not_elem_of_cons in Hc as [Hc Hs].
    change (String c s +:+ String sep t) with (String c (s +:+ String sep t)).
    cbn [split_on]. rewrite bool_decide_eq_false_2 by done.
    specialize (IH Hs). destruct (split_on sep (s +:+ String sep t)); [done|].
    cbn in *. congruence.
Qed.

Lemma split_on_whole sep s :
  sep ∉ String.list_ascii_of_string s → split_on sep s = [s].
Proof.
  induction s as [|c s IH]; cbn [split_on String.list_ascii_of_string]; [done|].
  intros Hc. apply not_elem_of_cons in Hc as [Hc Hs].
  rewrite bool_decide_eq_false_2 by done. by rewrite IH.
Qed.

Lemma split_on_head sep s : ∃ seg, head (split_on sep s) = Some seg ∧
  sep ∉ String.list_ascii_of_string seg.
Proof.
  induction s as [|c s (seg & Hseg & Hsep)]; cbn [split_on].
  - exists "". split; [done|]. apply not_elem_of_nil.
  - case_bool_decide as Hc.
    + exists "". split; [done|]. apply not_elem_of_nil.
    + destruct (split_on sep s) as [|seg' segs]; [done|].
      cbn in Hseg. injection Hseg as ->.
      exists (String c seg). split; [done|].
      cbn. by apply not_elem_of_cons.
Qed.

Lemma split_on_dot s : split_on "." s = split_dot s.
Proof. induction s as [|c s IH]; cbn [split_on split_dot]; [done|]. by rewrite IH. Qed.

End Cors.

(** ** The value a header keeps *)
Section HeaderValue.
Implicit Types (cs pre value post : list ascii).

Lemma strip_leading_app pre value :
  Forall http_whitespace pre →
  (∀ c, head value = Some c → ¬ http_whitespace c) →
  strip_leading (pre ++ value) = value.
Proof.
  intros Hpre Hhead. induction Hpre as [|c pre Hc _ IH]; cbn [app strip_leading].
  - destruct value as [|c value]; [done|]. cbn [strip_leading].
    rewrite bool_decide_eq_false_2; [done|]. by apply Hhead.
  - by rewrite bool_decide_eq_true_2.
Qed.

Lemma strip_leading_split cs :
  ∃ pre, cs = pre ++ strip_leading cs ∧ Forall http_whitespace pre ∧
         ∀ c, head (strip_leading cs) = Some c → ¬ http_whitespace c.
Proof.
  induction cs as [|c cs (pre & Heq & Hpre & Hhead)]; cbn [strip_leading].
  - exists []. split_and!; [done|constructor|done].
  - case_bool_decide as Hc.
    + exists (c :: pre). split_and!; [cbn; congruence|by constructor|done].
    + exists []. split_and!; [done|constructor|]. by intros c' [= <-].
Qed.

Lemma strip_leading_all cs : Forall http_whitespace cs → strip_leading cs = [].
Proof.
  intros Hcs. rewrite <- (app_nil_r cs). by apply strip_leading_app.
Qed.

Lemma normalize_app pre value post :
  Forall http_whitespace pre → Forall http_whitespace post →
  (∀ c, head value = Some c → ¬ http_whitespace c) →
  (∀ c, last value = Some c → ¬ http_whitespace c) →
  normalize (pre ++ value ++ post) = value.
Proof.
  intros Hpre Hpost Hhead Hlast. unfold normalize.
  destruct value as [|c0 value0] eqn:Hvalue.
  - cbn [app]. rewrite (strip_leading_all (pre ++ post)) by (by apply Forall_app).
    done.
  - rewrite <- Hvalue in *.
    rewrite strip_leading_app; [|done|].
    + rewrite reverse_app. rewrite strip_leading_app.
      * apply reverse_involutive.
      * by apply Forall_reverse.
      * intros c Hc. apply Hlast. by rewrite <- head_reverse.
    + rewrite Hvalue. cbn. intros c [= <-]. apply Hhead. by rewrite Hvalue.
Qed.

Lemma normalize_split cs :
  ∃ pre post,
    cs = pre ++ normalize cs ++ post ∧
    Forall http_whitespace pre ∧ Forall http_whitespace post ∧
    (∀ c, head (normalize cs) = Some c → ¬ http_whitespace c) ∧
    (∀ c, last (normalize cs) = Some c → ¬ http_whitespace c).
Proof.
  unfold normalize.
  destruct (strip_leading_split cs) as (pre & Hcs & Hpre & Hhead).
  destruct (strip_leading_split (reverse (strip_leading cs)))
    as (tsop & Hrev & Hpost & Hlast).
  set (s2 := strip_leading (reverse (strip_leading cs))) in *.
  assert (Hs1 : strip_leading cs = reverse s2 ++ reverse tsop)
    by (by rewrite <- reverse_app, <- Hrev, reverse_involutive).
  exists pre, (reverse tsop). split_and!.
  - by rewrite <- Hs1.
  - done.
  - by apply Forall_reverse.
  - intros c Hc. apply Hhead. rewrite Hs1.
    destruct (reverse s2); [done|]. exact Hc.
  - intros c Hc. apply Hlast. by rewrite <- last_reverse.
Qed.

Lemma elem_of_strip_leading c cs : c ∈ strip_leading cs → c ∈ cs.
Proof.
  induction cs as [|c0 cs IH]; cbn [strip_leading]; [done|].
  case_bool_decide; [|done]. intros Hc. apply elem_of_cons. right. by apply IH.
Qed.

Lemma elem_of_normalize c cs : c ∈ normalize cs → c ∈ cs.
Proof.
  unfold normalize. rewrite elem_of_reverse. intros Hc.
  apply elem_of_strip_leading in Hc. rewrite elem_of_reverse in Hc.
  by apply elem_of_strip_leading.
Qed.

End HeaderValue.

(** X24.  The [Access-Control-Allow-Origin] header of a JSON answer comes
    from the first entry of [ALLOWED_ORIGINS] alone: it is [*] when nothing is
    configured or the text is empty or starts with a comma, and entries after
    the first are never used.  Otherwise it is the first entry as the
    response keeps a header value: without the tabs, line feeds, carriage
    returns and spaces around it, so that an entry of such whitespace only
    gives an empty header; and constructing the response throws when a NUL, a
    line feed or a carriage return is left inside.  Every text splits into
    such whitespace around a value that neither starts nor ends with it.  The
    header never holds a comma. *)
Theorem allow_origin_is_first_entry ALLOWED_ORIGINS :
  (truthy_str ALLOWED_ORIGINS = false → allowOrigin ALLOWED_ORIGINS = Some "*") ∧
  (∀ rest, ALLOWED_ORIGINS = Some ("," +:+ rest) →
     allowOrigin ALLOWED_ORIGINS = Some "*") ∧
  (∀ first rest, ALLOWED_ORIGINS = Some (first +:+ "," +:+ rest) →
     ","%char ∉ String.list_ascii_of_string first →
     allowOrigin ALLOWED_ORIGINS = allowOrigin (Some first)) ∧
  (∀ pre value post,
     ALLOWED_ORIGINS = Some (String.string_of_list_ascii (pre ++ value ++ post)) →
     pre ++ value ++ post ≠ [] → ","%char ∉ value →
     Forall http_whitespace pre → Forall http_whitespace post →
     (∀ c, head value = Some c → ¬ http_whitespace c) →
     (∀ c, last value = Some c → ¬ http_whitespace c) →
     allowOrigin ALLOWED_ORIGINS =
       if bool_decide (Exists forbidden_in_value value) then None
       else Some (String.string_of_list_ascii value)) ∧
  (∀ origin, ∃ pre value post,
     String.list_ascii_of_string origin = pre ++ value ++ post ∧
     Forall http_whitespace pre ∧ Forall http_whitespace post ∧
     (∀ c, head value = Some c → ¬ http_whitespace c) ∧
     (∀ c, last value = Some c → ¬ http_whitespace c)) ∧
  (∀ kept, allowOrigin ALLOWED_ORIGINS = Some kept →
     ","%char ∉ String.list_ascii_of_string kept).
Proof.
  split_and!.
  - destruct ALLOWED_ORIGINS as [o|]; cbn; [|by intros _; vm_compute].
    case_bool_decide as Ho; [done|]. intros _.
    destruct o; [by vm_compute|discriminate Ho].
  - intros rest ->. by vm_compute.
  - intros first rest -> Hsep. unfold allowOrigin; cbv zeta. cbn [default]. unfold id.
    change ("," +:+ rest) with (String ","%char rest).
    rewrite (split_on_first "," first rest) by done.
    by rewrite split_on_whole by done.
  - intros pre value post -> Hne Hsep Hpre Hpost Hhead Hlast.
    unfold allowOrigin; cbv zeta. cbn [default]. unfold id.
    rewrite split_on_whole.
    + cbn [head truthy_str default]. unfold id.
      rewrite bool_decide_eq_true_2.
      * unfold header_value; cbv zeta.
        rewrite String.list_ascii_of_string_of_list_ascii.
        by rewrite normalize_app.
      * intros Hnil. apply Hne.
        apply (f_equal String.list_ascii_of_string) in Hnil.
        by rewrite String.list_ascii_of_string_of_list_ascii in Hnil.
    + rewrite String.list_ascii_of_string_of_list_ascii.
      rewrite !elem_of_app. intros [Hc|[Hc|Hc]]; [|done|].
      * rewrite Forall_forall in Hpre. apply Hpre in Hc. revert Hc.
        apply (bool_decide_eq_false_1 _). by vm_compute.
      * rewrite Forall_forall in Hpost. apply Hpost in Hc. revert Hc.
        apply (bool_decide_eq_false_1 _). by vm_compute.
  - intros origin.
    destruct (normalize_split (String.list_ascii_of_string origin))
      as (pre & post & Heq & Hpre & Hpost & Hhead & Hlast).
    by exists pre, (normalize (String.list_ascii_of_string origin)), post.
  - intros kept. unfold allowOrigin, header_value; cbv zeta.
    case_bool_decide; [done|]. intros [= <-].
    rewrite String.list_ascii_of_string_of_list_ascii.
    intros Hc%elem_of_normalize. revert Hc.
    destruct (split_on_head "," (default "" ALLOWED_ORIGINS)) as (seg & -> & Hseg).
    unfold truthy_str. case_bool_decide; cbn [default]; unfold id; [done|].
    apply (bool_decide_eq_false_1 _). by vm_compute.
Qed.

(** A first entry of one space gives an empty header; spaces around the
    first entry are dropped; a line feed inside it makes the response's
    construction throw. *)
Example allow_origin_examples :
  allowOrigin (Some " ,https://b.example") = Some "" ∧
  allowOrigin (Some " https://a.example ,https://b.example") = Some "https://a.example" ∧
  allowOrigin (Some ("https://a" +:+ String (ascii_of_nat 10) ".example")) = None ∧
  allowOrigin (Some "") = Some "*" ∧ allowOrigin None = Some "*".
Proof. split_and!; by vm_compute. Qed.

(** ** The SDK against the Worker *)
Section SdkFacts.
Context (P : Platform).

Lemma sdk_verifyJwt_aud version pid now token d :
  SDK.verifyJwt P version pid now token = Some d →
  payload_of P token = Some d ∧ SDK.of_option (aud d) = pid.
Proof.
  unfold SDK.verifyJwt, payload_of. destruct version.
  - destruct (split_dot token) as [|h [|p rest]]; try discriminate.
    cbn [lookup list_lookup mbind option_bind].
    destruct (JSON_parse_atob P h); [|discriminate].
    destruct (JSON_parse_atob P p) as [payload|]; [|discriminate].
    destruct (token_expired payload now); [discriminate|].
    case_bool_decide as Haud; [discriminate|].
    destruct rest as [|s rest]; [discriminate|].
    destruct (subtle_verify P s _); [|discriminate].
    intros [= <-]. split; [done|].
    by destruct (decide (SDK.of_option (aud payload) = pid)).
  - destruct (split_dot token !! 1%nat ≫= JSON_parse_atob P) as [payload|];
      [|discriminate].
    destruct (token_expired payload now); [discriminate|].
    case_bool_decide as Haud; [discriminate|].
    intros [= <-]. split; [done|].
    by destruct (decide (SDK.of_option (aud payload) = pid)).
Qed.

Lemma sdk_verifyJwt_certificate version project now projectId jti deviceId level exp :
  no_aud_in_certificates P →
  SDK.verifyJwt P version (SDK.Str project) now
    (signJwt P (ActivationPayload projectId jti deviceId level exp)) = None.
Proof.
  intros Hno.
  destruct (SDK.verifyJwt P version (SDK.Str project) now _) as [d|] eqn:Hv; [|done].
  apply sdk_verifyJwt_aud in Hv as [Hd Haud].
  apply Hno in Hd. rewrite Hd in Haud. discriminate.
Qed.

(** Whatever [activate_finish] answers with a certificate, it signed it. *)
Lemma finish_certificate dev now now' id cred db db' r cert :
  activate_finish P dev now now' id cred db = (db', Ok r) →
  body r = Finished cert →
  ∃ projectId jti, cert = signJwt P (ActivationPayload projectId jti dev "webauthn"
                                       (now' `div` 1000 + 7 * 24 * 60 * 60)).
Proof.
  unfold activate_finish, select_session, select_license, insert_activation. unfold_M.
  destruct (activation_sessions db !! id) as [s|]; [|intros [= <- <-]; discriminate].
  destruct cred as [[cid|]|]; try discriminate.
  cbv beta iota. repeat (case_bool_decide; [discriminate|]).
  cbn [licenses set_activations a_jti].
  destruct (licenses db !! s_jti s) as [l|]; [|discriminate].
  intros [= <- <-] [= <-]. eauto.
Qed.

Lemma meter_throw_writes_nothing tza t today now cert b cost db db' e :
  meter P tza t today now cert b cost db = (db', Throw e) → db' = db.
Proof.
  unfold meter, decode_payload.
  destruct (payload_of P cert) as [d|]; [|by intros [= <-]].
  unfold bind at 1, ret at 1.
  destruct (jti d) as [j|]; [|by intros [= <-]].
  unfold bind at 1, bound at 1, ret at 1.
  unfold bind at 1, select_live_license at 1. unfold_M.
  destruct (licenses db !! j) as [l|] eqn:Hl; [|discriminate].
  destruct (l_revoked l); [discriminate|].
  case_bool_decide; [discriminate|].
  destruct (parse_quotas l) as [q|]; [|by intros [= <-]].
  rewrite quota_check_cases.
  assert (Hins : ∀ dev,
    insert_usage (usage_row now j dev b cost) db =
      (set_usage (λ rows, rows ++ [usage_row now j dev b cost]) db, Ok tt)).
  { intros dev. unfold insert_usage; unfold_M.
    change (u_jti (usage_row now j dev b cost)) with j.
    rewrite Hl. by rewrite bool_decide_eq_false_2. }
  destruct (dailyLimit q b) as [L|].
  - destruct (truthy (Some L) && _).
    + destruct (next_local_midnight tza today); [discriminate|by intros [= <-]].
    + destruct (deviceId d) as [dev|]; [|by intros [= <-]].
      unfold bound, bind, ret. rewrite Hins. discriminate.
  - destruct (deviceId d) as [dev|]; [|by intros [= <-]].
    unfold bound, bind, ret. rewrite Hins. discriminate.
Qed.

Lemma activate_reports_failure version project draws licenseToken activation0 storage0 db :
  no_aud_in_certificates P →
  ∃ db', SDK.activate P version project draws licenseToken activation0 storage0 db =
           (db', (false, activation0, storage0)).
Proof.
  intros Hno. unfold SDK.activate; cbv zeta.
  destruct (activate_start P _ _ _ _ _ _ _ db) as [db1 startRes].
  destruct (negb (SDK.ok startRes)); [eauto|].
  destruct startRes as [[st []]|]; eauto.
  destruct (Base64.decodeBase64Url _); [|eauto].
  destruct (SDK.ad_credential draws); [|eauto].
  destruct (activate_finish P _ _ _ _ _ db1) as [db2 finishRes] eqn:Hfin.
  destruct (negb (SDK.ok finishRes)); [eauto|].
  destruct finishRes as [[st2 body2]|]; [|eauto].
  destruct body2; eauto.
  destruct (finish_certificate _ _ _ _ _ _ _ _ activationCert Hfin eq_refl)
    as (proj & j & ->).
  rewrite sdk_verifyJwt_certificate by done. eauto.
Qed.

End SdkFacts.

(** The demo platform reads no [aud] off a certificate: the segment of a
    certificate begins with the digits of [{"t], that of the one payload with
    an [aud] it knows with those of [{"a]. *)
Section DemoCertificates.

Lemma stringify_activation_prefix projectId jti deviceId level exp :
  ∃ rest, Demo.stringify (ActivationPayload projectId jti deviceId level exp) =
          String "{" (String (ascii_of_nat 34) (String "t" rest)).
Proof. eexists. reflexivity. Qed.

Lemma encode_prefix a b c rest :
  Demo.encodeBase64Url (String a (String b (String c rest))) =
    String (Demo.sextet (nat_of_ascii a / 4))
      (String (Demo.sextet ((nat_of_ascii a mod 4) * 16 + nat_of_ascii b / 16))
         (String (Demo.sextet ((nat_of_ascii b mod 16) * 4 + nat_of_ascii c / 64))
            (String (Demo.sextet (nat_of_ascii c mod 64)) (Demo.encodeBase64Url rest)))).
Proof. reflexivity. Qed.

Lemma activation_segment_prefix projectId jti deviceId level exp :
  ∃ rest, encode_payload Demo.platform (ActivationPayload projectId jti deviceId level exp) =
          String "e" (String "y" (String "J" (String "0" rest))).
Proof.
  destruct (stringify_activation_prefix projectId jti deviceId level exp) as [rest Hrest].
  cbn [encode_payload Demo.platform]. rewrite Hrest, encode_prefix. eauto.
Qed.

Lemma split_dot_prefix4 a b c d rest :
  a ≠ "."%char → b ≠ "."%char → c ≠ "."%char → d ≠ "."%char →
  ∃ seg, head (split_dot (String a (String b (String c (String d rest))))) =
           Some (String a (String b (String c (String d seg)))).
Proof.
  intros Ha Hb Hc Hd. destruct (split_dot_cons rest) as (seg & segs & Hrest).
  exists seg. cbn [split_dot]. rewrite !bool_decide_eq_false_2 by done.
  by rewrite Hrest.
Qed.

Lemma demo_no_aud_in_certificates : no_aud_in_certificates Demo.platform.
Proof.
  intros projectId jti deviceId level exp d. unfold payload_of, signJwt. cbv zeta.
  destruct (activation_segment_prefix projectId jti deviceId level exp) as [rest ->].
  rewrite !append_assoc, split_dot_app by apply encodedHeader_dotless.
  change (String "e" (String "y" (String "J" (String "0" rest))) +:+ ?x)
    with (String "e" (String "y" (String "J" (String "0" (rest +:+ x))))).
  match goal with
  | |- context [split_dot (String _ (String _ (String _ (String _ ?x))))] =>
      destruct (split_dot_prefix4 "e" "y" "J" "0" x) as [seg Hseg]; try done
  end.
  destruct (split_dot _) as [|first segs] eqn:Hsplit; [done|].
  cbn in Hseg. injection Hseg as ->.
  cbn [lookup list_lookup mbind option_bind JSON_parse_atob Demo.platform].
  unfold Demo.parse.
  case_bool_decide as H1; [by intros [= <-]|].
  case_bool_decide as H2; [discriminate H2|].
  case_bool_decide as H3; [by intros [= <-]|]. discriminate.
Qed.

End DemoCertificates.

(** X25.  The SDK's [activate] against this Worker returns [false] and
    leaves the SDK's activation and storage as they were: the certificate of
    the Worker has no [aud], which the SDK's [verifyJwt] compares with the
    project id.  The Worker meanwhile, where start and finish succeed, has
    stored the session and the activation. *)
Theorem sdk_activate_fails P version project draws licenseToken activation0 storage0 db :
  no_aud_in_certificates P →
  ∃ db',
    SDK.activate P version project draws licenseToken activation0 storage0 db =
      (db', (false, activation0, storage0)) ∧
    (∀ d j l cid,
       payload_of P licenseToken = Some d → aud d = Some project →
       token_expired d (SDK.ad_now_start draws) = false → jti d = Some j →
       live_license db j l →
       activation_sessions db !! SDK.ad_activationId draws = None →
       activations db !! SDK.ad_activationId draws = None →
       bindings j (SDK.ad_deviceId draws) db = ∅ →
       is_Some (Base64.decodeBase64Url (SDK.ad_challenge draws)) →
       SDK.ad_credential draws = Some cid →
       db' = set_activations
               (insert (SDK.ad_activationId draws)
                  (finish_row j (SDK.ad_deviceId draws) cid (SDK.ad_now_finish draws)))
               (set_activation_sessions
                  (insert (SDK.ad_activationId draws)
                     {| s_jti := j; s_challenge := SDK.ad_challenge draws;
                        s_device_info := Some (SDK.ad_deviceInfo draws) |}) db)).
Proof.
  intros Hno.
  pose proof (activate_reports_failure P version project draws licenseToken activation0
                storage0 db Hno) as Hfail.
  destruct Hfail as [db' Hrun]. exists db'. split; [exact Hrun|].
  intros d j l cid Hd Haud Hexp Hj Hl Hsfresh Hafresh Huniq [bytes Hbytes] Hcred.
  revert Hrun. unfold SDK.activate; cbv zeta.
  rewrite (activate_start_passes P _ _ _ _ (Some project) licenseToken _ db d j l
             Hd Haud Hexp Hj Hl Hsfresh).
  cbn [SDK.ok negb status jsonResponse].
  rewrite bool_decide_eq_true_2 by lia. cbn [negb body].
  rewrite Hbytes, Hcred.
  erewrite (activate_finish_passes P _ _ _ _ _ _ l); cycle 1.
  - cbn. by rewrite lookup_insert_eq.
  - done.
  - done.
  - destruct Hl as [Hl _]. exact Hl.
  - cbn [SDK.ok negb status jsonResponse].
    rewrite bool_decide_eq_true_2 by lia. cbn [negb body s_jti].
    unfold finish_payload. rewrite sdk_verifyJwt_certificate by done.
    by intros [= <-].
Qed.

Lemma sdk_activate_fails_witness :
  ∃ db',
    SDK.activate Demo.platform SDK.Verifying "p1" Demo2.activate_draws Demo.license_token
      None Demo2.empty_storage (Demo.store Demo.no_quotas) =
      (db', (false, None, Demo2.empty_storage)) ∧
    (∀ d j l cid,
       payload_of Demo.platform Demo.license_token = Some d → aud d = Some "p1" →
       token_expired d (SDK.ad_now_start Demo2.activate_draws) = false → jti d = Some j →
       live_license (Demo.store Demo.no_quotas) j l →
       activation_sessions (Demo.store Demo.no_quotas) !!
         SDK.ad_activationId Demo2.activate_draws = None →
       activations (Demo.store Demo.no_quotas) !!
         SDK.ad_activationId Demo2.activate_draws = None →
       bindings j (SDK.ad_deviceId Demo2.activate_draws) (Demo.store Demo.no_quotas) = ∅ →
       is_Some (Base64.decodeBase64Url (SDK.ad_challenge Demo2.activate_draws)) →
       SDK.ad_credential Demo2.activate_draws = Some cid →
       db' = set_activations
               (insert (SDK.ad_activationId Demo2.activate_draws)
                  (finish_row j (SDK.ad_deviceId Demo2.activate_draws) cid
                     (SDK.ad_now_finish Demo2.activate_draws)))
               (set_activation_sessions
                  (insert (SDK.ad_activationId Demo2.activate_draws)
                     {| s_jti := j; s_challenge := SDK.ad_challenge Demo2.activate_draws;
                        s_device_info := Some (SDK.ad_deviceInfo Demo2.activate_draws) |})
                  (Demo.store Demo.no_quotas))).
Proof.
  apply (sdk_activate_fails Demo.platform SDK.Verifying "p1" Demo2.activate_draws
           Demo.license_token None Demo2.empty_storage (Demo.store Demo.no_quotas)).
  apply demo_no_aud_in_certificates.
Defined.

(** On the demo store the Worker did bind the device while [activate]
    reported a failure. *)
Example sdk_activate_demo :
  SDK.activate Demo.platform SDK.Verifying "p1" Demo2.activate_draws Demo.license_token
    None Demo2.empty_storage (Demo.store Demo.no_quotas) =
    (set_activations (insert "A1" (finish_row "L1" "D1" "cred-1" (Demo.clock + 2000)))
       Demo.session_store,
     (false, None, Demo2.empty_storage)).
Proof. by vm_compute. Qed.

(** X26.  [license.ensure] in a browser that keeps no activation never
    starts the heartbeat, reports only invalid statuses and keeps no
    activation.  When neither [opts] nor the configuration name a project, it
    stops after reading the first token, reporting nothing. *)
Theorem sdk_ensure_never_activates P version inputs s0 db :
  no_aud_in_certificates P →
  (∀ project, SDK.kept_activation (SDK.storage s0) !! project = None) →
  SDK.heartbeat_started (SDK.ensure P version inputs s0 db).2 = false ∧
  Forall (λ st, SDK.valid st = false) (SDK.statuses (SDK.ensure P version inputs s0 db).2) ∧
  (∀ project, SDK.kept_activation
                (SDK.storage (SDK.sdk (SDK.ensure P version inputs s0 db).2)) !! project
              = None) ∧
  (SDK.opts_projectId inputs = None →
   SDK.projectId s0 = SDK.Null ∨ SDK.projectId s0 = SDK.Undefined →
   ∀ t1, SDK.token1 inputs = Some t1 →
     SDK.ensure P version inputs s0 db =
       (db, {| SDK.sdk := {| SDK.projectId := SDK.Undefined; SDK.state := SDK.state s0;
                             SDK.storage := SDK.storage s0 |};
               SDK.statuses := []; SDK.heartbeat_started := false;
               SDK.ended := SDK.Resolved |})).
Proof.
  intros Hno Hfresh.
  assert (Hinvalid : ∀ s, SDK.activation (SDK.state s) = None →
                          SDK.valid (SDK.updateStatus s) = false).
  { intros s Hs. unfold SDK.updateStatus. cbn [SDK.valid]. rewrite Hs.
    apply bool_decide_eq_false_2. intros [_ [? [=]]]. }
  assert (Hmain :
    SDK.heartbeat_started (SDK.ensure P version inputs s0 db).2 = false ∧
    Forall (λ st, SDK.valid st = false)
      (SDK.statuses (SDK.ensure P version inputs s0 db).2) ∧
    (∀ project, SDK.kept_activation
                  (SDK.storage (SDK.sdk (SDK.ensure P version inputs s0 db).2)) !! project
                = None)).
  { unfold SDK.ensure; cbv zeta.
    destruct (SDK.token1 inputs) as [t1|]; [|by cbn].
    destruct (match SDK.verifyJwt P version _ (SDK.now1 inputs) t1 with
              | Some payload => SDK.of_option (aud payload)
              | None => SDK.Undefined
              end) as [| |project]; [by cbn..|].
    destruct (negb (SDK.truthy_val (SDK.Str project))); [by cbn|].
    rewrite Hfresh.
    destruct (match SDK.kept_license (SDK.storage s0) !! project with
              | Some token => SDK.verifyJwt P version (SDK.Str project) (SDK.now2 inputs) token
              | None => SDK.license (SDK.state s0)
              end) as [lic|].
    - cbn [SDK.with_state SDK.state SDK.activation SDK.storage].
      destruct (SDK.kept_license (SDK.storage s0) !! project) as [token|]; [|by cbn].
      destruct (activate_reports_failure P version project (SDK.draws inputs) token None
                  (SDK.storage s0) db Hno) as (db' & ->).
      cbn. split_and!; [done| |done]. constructor; [|done]. by apply Hinvalid.
    - destruct (SDK.token2 inputs) as [t2|]; [|by cbn].
      destruct (SDK.verifyJwt P version (SDK.Str project) (SDK.now3 inputs) t2)
        as [payload|].
      + cbn [SDK.state SDK.activation SDK.storage SDK.kept_license].
        rewrite lookup_insert_eq.
        destruct (activate_reports_failure P version project (SDK.draws inputs) t2 None
                    {| SDK.kept_license :=
                         <[project := t2]> (SDK.kept_license (SDK.storage s0));
                       SDK.kept_activation := SDK.kept_activation (SDK.storage s0) |}
                    db Hno) as (db' & ->).
        cbn. split_and!; [done| |done]. constructor; [|done]. by apply Hinvalid.
      + cbn. split_and!; [done| |done]. constructor; [|done]. by apply Hinvalid. }
  destruct Hmain as (H1 & H2 & H3). split_and!; try done.
  intros Hopts Hpid t1 Ht1. unfold SDK.ensure; cbv zeta. rewrite Hopts, Ht1.
  cbn [default SDK.projectId].
  destruct (SDK.verifyJwt P version (SDK.projectId s0) (SDK.now1 inputs) t1)
    as [payload|] eqn:Hv; [|done].
  apply sdk_verifyJwt_aud in Hv as [_ Haud].
  destruct Hpid as [Hpid|Hpid]; rewrite Hpid in Haud.
  - by destruct (aud payload).
  - destruct (aud payload); [discriminate|done].
Qed.

Lemma sdk_ensure_never_activates_witness :
  SDK.heartbeat_started
    (SDK.ensure Demo.platform SDK.Verifying Demo2.ensure_inputs Demo2.fresh_sdk
       (Demo.store Demo.no_quotas)).2 = false ∧
  Forall (λ st, SDK.valid st = false)
    (SDK.statuses
       (SDK.ensure Demo.platform SDK.Verifying Demo2.ensure_inputs Demo2.fresh_sdk
          (Demo.store Demo.no_quotas)).2) ∧
  (∀ project,
     SDK.kept_activation
       (SDK.storage
          (SDK.sdk (SDK.ensure Demo.platform SDK.Verifying Demo2.ensure_inputs
                      Demo2.fresh_sdk (Demo.store Demo.no_quotas)).2)) !! project = None) ∧
  (SDK.opts_projectId Demo2.ensure_inputs = None →
   SDK.projectId Demo2.fresh_sdk = SDK.Null ∨ SDK.projectId Demo2.fresh_sdk = SDK.Undefined →
   ∀ t1, SDK.token1 Demo2.ensure_inputs = Some t1 →
     SDK.ensure Demo.platform SDK.Verifying Demo2.ensure_inputs Demo2.fresh_sdk
       (Demo.store Demo.no_quotas) =
       (Demo.store Demo.no_quotas,
        {| SDK.sdk := {| SDK.projectId := SDK.Undefined;
                         SDK.state := SDK.state Demo2.fresh_sdk;
                         SDK.storage := SDK.storage Demo2.fresh_sdk |};
           SDK.statuses := []; SDK.heartbeat_started := false;
           SDK.ended := SDK.Resolved |})).
Proof.
  apply (sdk_ensure_never_activates Demo.platform SDK.Verifying Demo2.ensure_inputs
           Demo2.fresh_sdk (Demo.store Demo.no_quotas)).
  - apply demo_no_aud_in_certificates.
  - intros project. apply lookup_empty.
Defined.

(** With [projectId] given in [opts], [ensure] on the demo store gets as far
    as binding the device at the Worker, keeps the licence token, and still
    reports an invalid status. *)
Example sdk_ensure_demo :
  SDK.ensure Demo.platform SDK.Verifying Demo2.ensure_inputs Demo2.fresh_sdk
    (Demo.store Demo.no_quotas) =
    (set_activations (insert "A1" (finish_row "L1" "D1" "cred-1" (Demo.clock + 2000)))
       Demo.session_store,
     {| SDK.sdk :=
          {| SDK.projectId := SDK.Str "p1";
             SDK.state := {| SDK.license := Some Demo.license_claims;
                             SDK.activation := None |};
             SDK.storage := {| SDK.kept_license := {[ "p1" := Demo.license_token ]};
                               SDK.kept_activation := ∅ |} |};
        SDK.statuses :=
          [{| SDK.valid := false; SDK.st_projectId := SDK.Str "p1";
              SDK.st_license := Some Demo.license_claims; SDK.st_activation := None |}];
        SDK.heartbeat_started := false; SDK.ended := SDK.Resolved |}).
Proof. by vm_compute. Qed.

(** X27.  A function wrapped by [quota.wrap] runs only after the Worker has
    let the metered call through and recorded its usage row, with bucket
    [general] and cost 1 where none are given; when the SDK is not activated,
    the call is denied or the Worker fails, the function is not called and
    nothing is recorded. *)
Theorem sdk_wrap_runs_paid {A B} P tza t today now activation0 (fn : A → B) bucket cost
    args db db' result :
  SDK.quota_wrap P tza t today now activation0 fn bucket cost args db = (db', result) →
  match result with
  | Some y =>
      y = fn args ∧
      ∃ a d j dev,
        activation0 = Some a ∧ payload_of P (SDK.act_activationCert a) = Some d ∧
        jti d = Some j ∧ deviceId d = Some dev ∧
        db' = set_usage
                (λ rows, rows ++ [usage_row now j dev (default "general" bucket)
                                    (default 1 cost)]) db
  | None => db' = db
  end.
Proof.
  unfold SDK.quota_wrap, SDK.quota_meter.
  destruct activation0 as [a|]; [|by intros [= <- <-]].
  destruct (meter P tza t today now (SDK.act_activationCert a) _ _ db)
    as [db1 [r|e]] eqn:Hrun.
  - apply meter_inv in Hrun
      as [[Hst ->]|(d & j & l & q & Hd & Hj & Hl & Hexp & Hpq & Hq)].
    + cbn [SDK.ok]. rewrite bool_decide_eq_false_2 by lia. by intros [= <- <-].
    + destruct Hq as [[Hq ->]|(dev & Hdev & _ & -> & ->)].
      * rewrite quota_check_cases in Hq.
        destruct (dailyLimit q _) as [L|]; [|discriminate].
        destruct (_ && _); [|discriminate].
        destruct (next_local_midnight tza today); [|discriminate].
        injection Hq as <-. cbn [SDK.ok status jsonResponse].
        rewrite bool_decide_eq_false_2 by lia. by intros [= <- <-].
      * cbn [SDK.ok status jsonResponse]. rewrite bool_decide_eq_true_2 by lia.
        intros [= <- <-]. split; [done|]. exists a, d, j, dev. done.
  - apply meter_throw_writes_nothing in Hrun as ->. by intros [= <- <-].
Qed.

Lemma sdk_wrap_runs_paid_witness :
  SDK.quota_wrap Demo.platform 0 Demo.clock Demo.clock Demo.clock
    (Some {| SDK.act_deviceId := Some "D1"; SDK.act_activationCert := Demo.cert;
             SDK.act_level := "webauthn" |})
    Z.succ None None 41 Demo.bound_store =
    (set_usage (λ rows, rows ++ [usage_row Demo.clock "L1" "D1" "general" 1])
       Demo.bound_store, Some 42) ∧
  42 = Z.succ 41 ∧
  ∃ a d j dev,
    Some {| SDK.act_deviceId := Some "D1"; SDK.act_activationCert := Demo.cert;
            SDK.act_level := "webauthn" |} = Some a ∧
    payload_of Demo.platform (SDK.act_activationCert a) = Some d ∧
    jti d = Some j ∧ deviceId d = Some dev ∧
    set_usage (λ rows, rows ++ [usage_row Demo.clock "L1" "D1" "general" 1])
      Demo.bound_store =
    set_usage (λ rows, rows ++ [usage_row Demo.clock j dev (default "general" None)
                                  (default 1 None)]) Demo.bound_store.
Proof.
  assert (Hrun : SDK.quota_wrap Demo.platform 0 Demo.clock Demo.clock Demo.clock
            (Some {| SDK.act_deviceId := Some "D1"; SDK.act_activationCert := Demo.cert;
                     SDK.act_level := "webauthn" |})
            Z.succ None None 41 Demo.bound_store =
            (set_usage (λ rows, rows ++ [usage_row Demo.clock "L1" "D1" "general" 1])
               Demo.bound_store, Some 42)) by (by vm_compute).
  split; [exact Hrun|].
  exact (sdk_wrap_runs_paid Demo.platform 0 Demo.clock Demo.clock Demo.clock _ Z.succ
           None None 41 Demo.bound_store _ (Some 42) Hrun).
Defined.

(** ** The agency summary *)
Section Analytics.
Implicit Types (rows : list (string * string * Z)) (acc : gmap string (gmap string Z)).

Lemma usageByJti_step acc row j b :
  b ≠ "__proto__" →
  default ∅ (<[row.1.1 := if bool_decide (row.1.2 = "__proto__")
                          then default ∅ (acc !! row.1.1)
                          else <[row.1.2 := row.2]> (default ∅ (acc !! row.1.1))]> acc !! j)
    !! b =
  if decide (row.1 = (j, b)) then Some row.2 else default ∅ (acc !! j) !! b.
Proof.
  intros Hb. destruct row as [[j' b'] total]. cbn [fst snd].
  destruct (decide (j' = j)) as [->|Hj].
  - rewrite (lookup_insert_eq (M := gmap string)). cbn [default from_option]. unfold id.
    case_bool_decide as Hproto.
    + by rewrite decide_False by congruence.
    + destruct (decide (b' = b)) as [->|Hbb].
      * rewrite lookup_insert_eq. by rewrite decide_True.
      * rewrite lookup_insert_ne by done. by rewrite decide_False by congruence.
  - rewrite lookup_insert_ne by done. by rewrite decide_False by congruence.
Qed.

Lemma usageByJti_fold rows : ∀ acc j b total,
  b ≠ "__proto__" → NoDup rows.*1 →
  default ∅ (foldl (λ acc row,
                      let inner := default ∅ (acc !! row.1.1) in
                      <[row.1.1 := if bool_decide (row.1.2 = "__proto__") then inner
                                   else <[row.1.2 := row.2]> inner]> acc) acc rows !! j)
    !! b = Some total ↔
  (j, b, total) ∈ rows ∨ (((j, b) ∉ rows.*1) ∧ default ∅ (acc !! j) !! b = Some total).
Proof.
  induction rows as [|row rows IH]; intros acc j b total Hb Hnd.
  - cbn [foldl]. split.
    + intros Hacc. right. split; [apply not_elem_of_nil|done].
    + intros [Hin|[_ Hacc]]; [by apply elem_of_nil in Hin|done].
  - rewrite fmap_cons in Hnd. apply NoDup_cons in Hnd as [Hnotin Hnd].
    cbn [foldl]. rewrite IH by done. cbv zeta.
    rewrite usageByJti_step by done.
    rewrite fmap_cons, elem_of_cons, not_elem_of_cons.
    destruct (decide (row.1 = (j, b))) as [Hkey|Hkey].
    + split.
      * intros [Hin|[_ [= <-]]]; [by left; right|].
        left. left. destruct row as [[] ?]. cbn in Hkey. by injection Hkey as -> ->.
      * intros [[<-|Hin]|[[Hne _] _]]; [|by left|by destruct Hne].
        right. split; [|done]. by rewrite <- Hkey.
    + split.
      * intros [Hin|[Hnot Hacc]]; [by left; right|]. right. split; [|done].
        split; [congruence|done].
      * intros [[<-|Hin]|[[_ Hnot] Hacc]]; [by destruct Hkey|by left|by right].
Qed.

Lemma usageByJti_lookup rows j b total :
  b ≠ "__proto__" → NoDup rows.*1 →
  default ∅ (usageByJti rows !! j) !! b = Some total ↔ (j, b, total) ∈ rows.
Proof.
  intros Hb Hnd. unfold usageByJti. rewrite usageByJti_fold by done.
  rewrite lookup_empty. cbn. rewrite lookup_empty. split; [|by left].
  by intros [?|[_ ?]].
Qed.

Lemma agency_window ag day db j b :
  of_agency ag db j →
  filter (λ u, u_jti u = j ∧ u_bucket u = b) (agency_usage ag day db) =
    filter (in_window j day b) (usage db).
Proof.
  intros Hag. unfold agency_usage. rewrite list_filter_filter.
  apply list_filter_iff. intros u. unfold in_window. split.
  - intros [[-> ->] [-> _]]. done.
  - intros (-> & -> & ->). done.
Qed.

Lemma select_usage_totals_spec ag day db :
  ∃ totals,
    select_usage_totals ag day db = (db, Ok totals) ∧ NoDup totals.*1 ∧
    ∀ j b total,
      of_agency ag db j →
      ((j, b, total) ∈ totals ↔
       filter (in_window j day b) (usage db) ≠ [] ∧ total = window_cost j day b db).
Proof.
  unfold select_usage_totals; unfold_M. cbv zeta. eexists. split; [reflexivity|]. split.
  - rewrite <- list_fmap_compose.
    rewrite (list_fmap_ext _ id (remove_dups _)) by (by intros ? [] ?).
    rewrite list_fmap_id. apply NoDup_remove_dups.
  - intros j b total Hag. rewrite list_elem_of_fmap. unfold window_cost.
    rewrite <- (agency_window ag day db j b Hag). split.
    + intros ([j' b'] & [= -> -> ->] & Hin). cbn [fst snd].
      split; [|by rewrite (agency_window ag day db j' b' Hag)].
      apply elem_of_remove_dups, list_elem_of_fmap in Hin as (u & [= -> ->] & Hu).
      intros Hnil. assert (Hin : u ∈ filter (λ u', u_jti u' = u_jti u ∧ u_bucket u' = u_bucket u)
                                   (agency_usage ag day db))
        by (by apply list_elem_of_filter).
      rewrite Hnil in Hin. by apply elem_of_nil in Hin.
    + intros [Hne ->]. exists (j, b).
      split; [cbn [fst snd]; by rewrite (agency_window ag day db j b Hag)|].
      apply elem_of_remove_dups, list_elem_of_fmap.
      destruct (filter _ (agency_usage ag day db)) as [|u us] eqn:Hf; [done|].
      assert (Hu : u ∈ filter (λ u, u_jti u = j ∧ u_bucket u = b) (agency_usage ag day db))
        by (rewrite Hf; left).
      apply list_elem_of_filter in Hu as [[<- <-] Hu]. eauto.
Qed.

Lemma seats_of_spec db j l seat :
  seat ∈ seats_of db (j, l) →
  seat_jti seat = j ∧ seat_revoked seat = l_revoked l ∧ seat_exp seat = l_exp l ∧
  seat_seat_index seat = l_seat_index l ∧
  match seat_device_id seat with
  | Some dev => ∃ k a, activations db !! k = Some a ∧ a_jti a = j ∧ a_device_id a = dev ∧
                       seat_last_seen seat = a_last_seen a
  | None => ∀ k a, activations db !! k = Some a → a_jti a ≠ j
  end.
Proof.
  unfold seats_of, activations_of. cbn [fst snd].
  destruct ((map_to_list (filter _ (activations db))).*2) as [|a0 acts] eqn:Hacts.
  - intros ->%list_elem_of_singleton. cbn. split_and!; try done.
    intros k a Ha Hj.
    assert (Hin : a ∈ (map_to_list (filter (λ ka, a_jti ka.2 = j) (activations db))).*2).
    { apply list_elem_of_fmap. exists (k, a). split; [done|].
      by apply elem_of_map_to_list, map_lookup_filter_Some. }
    rewrite Hacts in Hin. by apply elem_of_nil in Hin.
  - intros (a & -> & Hin)%list_elem_of_fmap. cbn. split_and!; try done.
    rewrite <- Hacts in Hin.
    apply list_elem_of_fmap in Hin as ([k a'] & -> & Hin).
    apply elem_of_map_to_list, map_lookup_filter_Some in Hin as [Hk Hj]. eauto 10.
Qed.

Lemma seats_of_nonempty db jl : ∃ seat, seat ∈ seats_of db jl ∧ seat_jti seat = jl.1.
Proof.
  unfold seats_of. destruct (activations_of jl.1 db) as [|a acts].
  - eexists. split; [by left|done].
  - eexists. split; [rewrite fmap_cons; by left|done].
Qed.

Lemma select_seats_spec ag db :
  ∃ seats,
    select_seats ag db = (db, Ok seats) ∧
    (∀ j l, licenses db !! j = Some l → l_agency_id l = Some ag →
            ∃ seat, seat ∈ seats ∧ seat_jti seat = j) ∧
    (∀ seat, seat ∈ seats →
       ∃ l, licenses db !! seat_jti seat = Some l ∧ l_agency_id l = Some ag ∧
            seat ∈ seats_of db (seat_jti seat, l)).
Proof.
  unfold select_seats; unfold_M. eexists. split; [reflexivity|]. split.
  - intros j l Hl Hag. destruct (seats_of_nonempty db (j, l)) as (seat & Hin & Hj).
    exists seat. split; [|done]. apply list_elem_of_bind. exists (j, l). split; [done|].
    by apply elem_of_map_to_list, map_lookup_filter_Some.
  - intros seat (jl & Hin & Hjl)%list_elem_of_bind. destruct jl as [j l].
    apply elem_of_map_to_list, map_lookup_filter_Some in Hjl as [Hl Hag]. cbn in Hag.
    pose proof (seats_of_spec db j l seat Hin) as (Hj & _). subst j. eauto.
Qed.

End Analytics.

(** X28.  [GET /admin/analytics/summary] for an agency whose licence ids are
    no property names of [Object.prototype] answers with a row for every
    licence of the agency, and rows for these only, without writing.  A row's
    status is revoked for a revoked licence, else active when the row has a
    non-empty device id, whatever the expiry, else expired or issued by the
    expiry; its usage of a bucket other than [__proto__] is the cost recorded
    today for the licence in that bucket, on every device, and absent where
    none is recorded. *)
Theorem summary_reports_window_cost today clock ag db :
  ag ≠ "" →
  (∀ j l, licenses db !! j = Some l → l_agency_id l = Some ag → j ∉ inherited) →
  ∃ summary,
    analytics_summary true today clock (Some ag) db = (db, Ok (SummaryRows summary)) ∧
    (∀ j l, licenses db !! j = Some l → l_agency_id l = Some ag →
       ∃ row, row ∈ summary ∧ seat_jti (ss_seat row) = j) ∧
    (∀ i row, summary !! i = Some row →
       ∃ l, licenses db !! seat_jti (ss_seat row) = Some l ∧ l_agency_id l = Some ag ∧
            match seat_device_id (ss_seat row) with
            | Some dev => ∃ k a, activations db !! k = Some a ∧
                                 a_jti a = seat_jti (ss_seat row) ∧ a_device_id a = dev
            | None => ∀ k a, activations db !! k = Some a → a_jti a ≠ seat_jti (ss_seat row)
            end ∧
            ss_status row =
              (if l_revoked l then "revoked"
               else if truthy_str (seat_device_id (ss_seat row)) then "active"
               else if bool_decide (l_exp l * 1000 < clock i) then "expired"
               else "issued") ∧
            ∀ b total, b ≠ "__proto__" →
              (ss_todays_usage row !! b = Some total ↔
               filter (in_window (seat_jti (ss_seat row)) (today `div` 86400000) b) (usage db)
                 ≠ [] ∧
               total = window_cost (seat_jti (ss_seat row)) (today `div` 86400000) b db)).
Proof.
  intros Hag Hown. unfold analytics_summary. cbn [negb truthy_str default from_option].
  rewrite bool_decide_eq_true_2 by done. cbn [negb].
  destruct (select_seats_spec ag db) as (seats & Hseats & Hall & Hrows).
  destruct (select_usage_totals_spec ag (today `div` 86400000) db)
    as (totals & Htotals & Hnd & Hsum).
  cbv zeta. unfold id. rewrite (bind_ok _ _ _ _ _ Hseats), (bind_ok _ _ _ _ _ Htotals).
  rewrite bool_decide_eq_false_2.
  2: { intros (seat & Hin & Hbad)%Exists_exists.
       destruct (Hrows seat Hin) as (l & Hl & Hlag & _). by apply (Hown _ _ Hl Hlag). }
  eexists. split; [reflexivity|]. split.
  - intros j l Hl Hlag. destruct (Hall j l Hl Hlag) as (seat & Hin & Hj).
    apply list_elem_of_lookup in Hin as [i Hi].
    exists {| ss_seat := seat; ss_status := seat_status (clock i) seat;
              ss_todays_usage := default ∅ (usageByJti totals !! seat_jti seat) |}.
    split; [|exact Hj].
    apply list_elem_of_lookup. exists i. by rewrite list_lookup_imap, Hi.
  - intros i row Hrow. rewrite list_lookup_imap in Hrow.
    destruct (seats !! i) as [seat|] eqn:Hi; [|done]. injection Hrow as <-.
    cbn [ss_seat ss_status ss_todays_usage].
    assert (Hin : seat ∈ seats) by (by eapply list_elem_of_lookup_2).
    destruct (Hrows seat Hin) as (l & Hl & Hlag & Hof).
    apply seats_of_spec in Hof as (_ & Hrev & Hexp & _ & Hdev).
    exists l. split_and!; try done.
    + destruct (seat_device_id seat); [|done].
      destruct Hdev as (k & a & ? & ? & ? & _). eauto.
    + unfold seat_status. by rewrite Hrev, Hexp.
    + intros b total Hb. rewrite usageByJti_lookup by done. apply Hsum.
      unfold of_agency. by rewrite Hl.
Qed.

Lemma summary_reports_window_cost_witness :
  ∃ row,
    analytics_summary true Demo.clock (λ _, Demo.clock) (Some "acme") Demo2.seat_store =
      (Demo2.seat_store, Ok (SummaryRows [row])) ∧
    ss_status row = "active" ∧ ss_todays_usage row !! "general" = Some 1.
Proof.
  destruct (summary_reports_window_cost Demo.clock (λ _, Demo.clock) "acme" Demo2.seat_store)
    as (summary & Hrun & _).
  - done.
  - intros j l Hl _. cbn in Hl. apply lookup_insert_Some in Hl as [[<- _]|[_ Hl]].
    + apply (bool_decide_unpack _). by vm_compute.
    + by rewrite lookup_empty in Hl.
  - eexists. split; [by vm_compute|]. split; [done|]. by vm_compute.
Defined.
